(** * DeepLX relay: a shallow embedding of the request-orchestration code

    The development follows the layout of the TypeScript sources:

    - [Js]              the fragment of JavaScript values the code relies on
                        (numbers with [NaN], truthiness, thrown values);
    - [Config]          src/lib/config.ts;
    - [RetryLogic]      src/lib/retryLogic.ts;
    - [CircuitBreakerM] src/lib/circuitBreaker.ts;
    - [Types]           src/lib/types.ts;
    - [ErrorHandler]    src/lib/errorHandler.ts;
    - [RateLimit]       src/lib/rateLimit.ts;
    - [Cache]           src/lib/cache.ts;
    - [Query]           src/lib/query.ts;
    - [Security]        src/lib/security.ts;
    - [TextUtils]       src/lib/textUtils.ts;
    - [Index]           src/index.ts.

    Numbers are exact rationals extended with [NaN]; rounding of IEEE doubles
    is not modelled.  [Date.now()] and [Math.random()] are explicit inputs.
    Asynchronous collaborators (the key-value store, the upstream transport)
    are explicit inputs as well: each call receives the answer the
    collaborator gives at that point. *)

From Stdlib Require Import ZArith QArith Qround Qpower String Ascii List Lia Lqa Bool.
From stdpp Require Import base gmap strings.
Import ListNotations.

Open Scope Z_scope.

(* ===================================================================== *)
(** ** JavaScript values *)
(* ===================================================================== *)

Module Js.

(** A JavaScript number: a finite value or [NaN]. *)
Inductive number : Type :=
| Fin (q : Q)
| NaN.

Definition of_Z (z : Z) : number := Fin (inject_Z z).

Definition add (a b : number) : number :=
  match a, b with
  | Fin x, Fin y => Fin (x + y)
  | _, _ => NaN
  end.

Definition sub (a b : number) : number :=
  match a, b with
  | Fin x, Fin y => Fin (x - y)
  | _, _ => NaN
  end.

Definition mul (a b : number) : number :=
  match a, b with
  | Fin x, Fin y => Fin (x * y)
  | _, _ => NaN
  end.

(** [a / b]; the divisors of the embedded code are the literals 1000 and
    60, so the infinities of a division by zero are not represented. *)
Definition div (a b : number) : number :=
  match a, b with
  | Fin x, Fin y => if Qeq_bool y 0 then NaN else Fin (x / y)
  | _, _ => NaN
  end.

(** [Math.pow(a, n)] for an integer exponent, which in the embedded code is
    the attempt index and so is not negative; [Math.pow(NaN, 0)] is 1. *)
Definition pow (a : number) (n : Z) : number :=
  if Z.eqb n 0 then Fin 1
  else match a with
       | Fin x => Fin (x ^ n)
       | NaN => NaN
       end.

(** [Math.min(a, b)]: [NaN] as soon as one argument is [NaN]. *)
Definition min (a b : number) : number :=
  match a, b with
  | Fin x, Fin y => if Qle_bool x y then Fin x else Fin y
  | _, _ => NaN
  end.

(** Comparisons: every comparison with [NaN] is false. *)
Definition ltb (a b : number) : bool :=
  match a, b with
  | Fin x, Fin y => Qle_bool x y && negb (Qeq_bool x y)
  | _, _ => false
  end.

Definition leb (a b : number) : bool :=
  match a, b with
  | Fin x, Fin y => Qle_bool x y
  | _, _ => false
  end.

(** [a === b] on numbers. *)
Definition eqb (a b : number) : bool :=
  match a, b with
  | Fin x, Fin y => Qeq_bool x y
  | _, _ => false
  end.

Definition isNaN (a : number) : bool :=
  match a with NaN => true | Fin _ => false end.

(** [Number.isInteger]. *)
Definition isInteger (a : number) : bool :=
  match a with
  | Fin x => Qeq_bool (inject_Z (Qfloor x)) x
  | NaN => false
  end.

(** [Math.floor]. *)
Definition floor (a : number) : number :=
  match a with
  | Fin x => Fin (inject_Z (Qfloor x))
  | NaN => NaN
  end.

(** Truthiness of a number: [0] and [NaN] are falsy. *)
Definition truthy (a : number) : bool :=
  match a with
  | Fin x => negb (Qeq_bool x 0)
  | NaN => false
  end.

(** The values an untyped field ([error.status], [error.code], a count
    read off some object) can hold.  A value that is neither [undefined]
    nor a number is described by the two observations the code makes of
    it: its truthiness and the result of [Number(v)]. *)
Inductive value : Type :=
| Undefined
| Num (n : number)
| Other (isTruthy : bool) (asNumber : number).

Definition value_truthy (v : value) : bool :=
  match v with
  | Undefined => false
  | Num n => truthy n
  | Other t _ => t
  end.

(** [Number(v)]; [Number(undefined)] is [NaN]. *)
Definition toNumber (v : value) : number :=
  match v with
  | Undefined => NaN
  | Num n => n
  | Other _ n => n
  end.

(** [v === n] for a number literal [n]: only a number can be equal. *)
Definition value_eqb (v : value) (n : number) : bool :=
  match v with
  | Num m => eqb m n
  | _ => false
  end.

(** [xs.includes(v)] on an array of number literals. *)
Definition includes (xs : list Z) (v : value) : bool :=
  existsb (fun x => value_eqb v (of_Z x)) xs.

(** The outcome of a call that may throw. *)
Inductive completion (T E : Type) : Type :=
| Return (v : T)
| Throw (e : E).
Arguments Return {T E} v.
Arguments Throw {T E} e.

(** An error object, by the fields the code inspects. *)
Record Error : Type := mkError {
  name : string;
  message : string;
  status : value;
  code : value
}.

(** [new Error(msg)]. *)
Definition newError (msg : string) : Error :=
  {| name := "Error"; message := msg; status := Undefined; code := Undefined |}.

(** A thrown value: an error object, or [undefined]. *)
Inductive thrown : Type :=
| ThrownUndefined
| ThrownError (e : Error).

(** [s.includes(sub)] on strings. *)
Fixpoint str_includes (sub s : string) : bool :=
  if String.prefix sub s then true
  else match s with
       | EmptyString => false
       | String _ rest => str_includes sub rest
       end.

End Js.

Import Js.

(* ===================================================================== *)
(** ** 32-bit integers and integer rendering *)
(* ===================================================================== *)

Module Int32.

(** [ToInt32]: the value modulo 2^32 taken in [-2^31, 2^31). *)
Definition toInt32 (z : Z) : Z :=
  (z + 2147483648) mod 4294967296 - 2147483648.

(** [a << n] for a shift count from 0 to 31. *)
Definition shl (a n : Z) : Z := toInt32 (Z.shiftl (toInt32 a) n).

(** [a & b]. *)
Definition bitand (a b : Z) : Z := Z.land (toInt32 a) (toInt32 b).

(** The digit of [toString(36)] for a value from 0 to 35. *)
Definition digit36 (d : Z) : ascii :=
  if Z.ltb d 10 then ascii_of_nat (48 + Z.to_nat d)
  else ascii_of_nat (87 + Z.to_nat d).

(** The value of a base-36 digit. *)
Definition value36 (c : ascii) : Z :=
  let n := Z.of_nat (nat_of_ascii c) in
  if Z.ltb n 58 then n - 48 else n - 87.

(** The digits of [n] in base 36 put in front of [acc]; [fuel] bounds the
    number of digits. *)
Fixpoint toString36_go (fuel : nat) (n : Z) (acc : string) : string :=
  match fuel with
  | O => acc
  | S fuel' =>
      let acc' := String (digit36 (n mod 36)) acc in
      if Z.ltb n 36 then acc' else toString36_go fuel' (n / 36) acc'
  end.

(** [n.toString(36)] for an integer [n >= 0]; a number has no more base-36
    digits than binary ones. *)
Definition toString36 (n : Z) : string :=
  toString36_go (S (Z.to_nat (Z.log2 n))) n EmptyString.

(** Reading a string of base-36 digits, most significant first. *)
Fixpoint parse36_go (v : Z) (s : string) : Z :=
  match s with
  | EmptyString => v
  | String c rest => parse36_go (v * 36 + value36 c) rest
  end.

Definition parse36 (s : string) : Z := parse36_go 0 s.

End Int32.

(* ===================================================================== *)
(** ** src/lib/config.ts *)
(* ===================================================================== *)

Module Config.

Definition REQUEST_TIMEOUT : Z := 10000.

Record RetryConfig : Type := {
  cfg_maxRetries : Z;
  cfg_initialDelay : number;
  cfg_backoffFactor : number
}.

Definition DEFAULT_RETRY_CONFIG : RetryConfig :=
  {| cfg_maxRetries := 3;
     cfg_initialDelay := of_Z 1000;
     cfg_backoffFactor := of_Z 2 |}.

Definition PROXY_TOKENS_PER_SECOND : number := of_Z 8.
Definition PROXY_MAX_TOKENS : number := of_Z 16.
Definition BASE_TOKENS_PER_MINUTE : number := of_Z 480.

Definition MAX_TEXT_LENGTH : Z := 5000.
Definition MAX_REQUEST_SIZE : Z := 32768.

Record DynamicRateLimits : Type := {
  TOKENS_PER_MINUTE : number;
  REFILL_RATE : number
}.

(** [calculateDynamicRateLimits(proxyCount)].  The argument is whatever
    the caller passes; [proxyCount === 0] holds for the number 0 only, and
    the product coerces its operand with [Number]. *)
Definition calculateDynamicRateLimits (proxyCount : value) : DynamicRateLimits :=
  if value_eqb proxyCount (of_Z 0) then
    {| TOKENS_PER_MINUTE := BASE_TOKENS_PER_MINUTE;
       REFILL_RATE := div BASE_TOKENS_PER_MINUTE (of_Z 60) |}
  else
    let tokensPerMinute :=
      mul (mul (toNumber proxyCount) PROXY_TOKENS_PER_SECOND) (of_Z 60) in
    {| TOKENS_PER_MINUTE := tokensPerMinute;
       REFILL_RATE := div tokensPerMinute (of_Z 60) |}.

End Config.

(* ===================================================================== *)
(** ** src/lib/retryLogic.ts *)
(* ===================================================================== *)

Module RetryLogic.

(** [isRetryableError(error)]. *)
Definition isRetryableError (error : thrown) : bool :=
  match error with
  | ThrownUndefined => false
  | ThrownError e =>
      if String.eqb (name e) "AbortError"
         || (String.eqb (name e) "TypeError" && str_includes "fetch" (message e))
      then true
      else if value_truthy (status e)
      then includes [408; 429; 500; 502; 503; 504] (status e)
      else if value_truthy (code e)
      then includes [429; 500; 502; 503; 504] (code e)
      else false
  end.

Section Retry.
(** [W] is the state of everything the operation touches, [T] its
    result.  An operation is a state transformer that returns or
    throws. *)
Context {W T : Type}.

Record RetryOptions : Type := {
  maxRetries : Z;
  initialDelay : number;
  backoffFactor : number;
  isRetryable : thrown -> bool
}.

(** What a run of the loop has done so far: the state left by the
    operation, how often the operation was invoked, and the arguments
    (in seconds) of the [delayRequest] calls, oldest first. *)
Record Run : Type := {
  world : W;
  invocations : nat;
  delays : list number
}.

Definition start (w : W) : Run :=
  {| world := w; invocations := 0; delays := [] |}.

(** The same run over a transformed state. *)
Definition mapWorld (f : W -> W) (r : Run) : Run :=
  {| world := f (world r); invocations := invocations r; delays := delays r |}.

Variable operation : W -> completion T thrown * W.
Variable options : RetryOptions.

(** [initialDelay * Math.pow(backoffFactor, attempt)], in milliseconds. *)
Definition backoffDelay (attempt : Z) : number :=
  mul (initialDelay options) (pow (backoffFactor options) attempt).

(** The seconds passed to [delayRequest] after the failure of attempt
    number [j] (counted from 0). *)
Definition nthDelay (j : nat) : number :=
  div (backoffDelay (Z.of_nat j)) (of_Z 1000).

(** The body of [for (let attempt = 0; attempt < maxRetries; attempt++)],
    with [remaining] the number of iterations still to run, that is
    [maxRetries - attempt] when positive.  Falling out of the loop
    executes [throw lastError], which throws [undefined] when no
    iteration assigned it.  [delayRequest] is represented by its argument:
    it returns once the clock has advanced by that many seconds, so the
    loop goes on after every finite delay; a delay of [NaN] never
    elapses, and the iterations recorded after one do not take place. *)
Fixpoint retryLoop (remaining : nat) (attempt : Z) (lastError : thrown)
         (r : Run) : completion T thrown * Run :=
  match remaining with
  | O => (Throw lastError, r)
  | S remaining' =>
      let '(res, w') := operation (world r) in
      let r1 := {| world := w';
                   invocations := S (invocations r);
                   delays := delays r |} in
      match res with
      | Return v => (Return v, r1)
      | Throw error =>
          if isRetryable options error then
            let delay := backoffDelay attempt in
            let r2 := {| world := world r1;
                         invocations := invocations r1;
                         delays := delays r1 ++ [div delay (of_Z 1000)] |} in
            retryLoop remaining' (attempt + 1) error r2
          else (Throw error, r1)
      end
  end.

Definition retryWithBackoff (w : W) : completion T thrown * Run :=
  retryLoop (Z.to_nat (maxRetries options)) 0 ThrownUndefined (start w).

End Retry.

Arguments RetryOptions : clear implicits.
Arguments Run : clear implicits.

(** [calculateSmartDelay(attempt, isRateLimit)], in milliseconds. *)
Definition calculateSmartDelay (attempt : Z) (isRateLimit : bool) : number :=
  if isRateLimit then
    min (mul (of_Z 60000) (pow (Fin (3 # 2)) attempt)) (of_Z 300000)
  else
    min (mul (of_Z 1000) (pow (of_Z 2) attempt)) (of_Z 30000).

End RetryLogic.

(* ===================================================================== *)
(** ** src/lib/circuitBreaker.ts *)
(* ===================================================================== *)

Module CircuitBreakerM.

Inductive Mode : Type := CLOSED | OPEN | HALF_OPEN.

Record CircuitBreakerState : Type := {
  state : Mode;
  failureCount : Z;
  lastFailureTime : Z;
  successCount : Z
}.

Definition FAILURE_THRESHOLD : Z := 5.
Definition RECOVERY_TIMEOUT : Z := 30000.
Definition SUCCESS_THRESHOLD : Z := 3.

(** The field initialiser of [class CircuitBreaker]. *)
Definition initial : CircuitBreakerState :=
  {| state := CLOSED; failureCount := 0; lastFailureTime := 0; successCount := 0 |}.

Definition circuitOpenError : Error := newError "Circuit breaker is OPEN".

(** The gate at the head of [execute]: the state with which the operation
    is then invoked, or the rejection. *)
Definition enter (now : Z) (s : CircuitBreakerState)
  : completion CircuitBreakerState thrown :=
  match state s with
  | OPEN =>
      if Z.ltb RECOVERY_TIMEOUT (now - lastFailureTime s) then
        Return {| state := HALF_OPEN;
                  failureCount := failureCount s;
                  lastFailureTime := lastFailureTime s;
                  successCount := 0 |}
      else Throw (ThrownError circuitOpenError)
  | _ => Return s
  end.

Definition onSuccess (s : CircuitBreakerState) : CircuitBreakerState :=
  match state s with
  | HALF_OPEN =>
      let successCount' := successCount s + 1 in
      if Z.leb SUCCESS_THRESHOLD successCount' then
        {| state := CLOSED;
           failureCount := 0;
           lastFailureTime := lastFailureTime s;
           successCount := successCount' |}
      else
        {| state := HALF_OPEN;
           failureCount := failureCount s;
           lastFailureTime := lastFailureTime s;
           successCount := successCount' |}
  | CLOSED =>
      {| state := CLOSED;
         failureCount := 0;
         lastFailureTime := lastFailureTime s;
         successCount := successCount s |}
  | OPEN => s
  end.

Definition onFailure (now : Z) (s : CircuitBreakerState) : CircuitBreakerState :=
  let failureCount' := failureCount s + 1 in
  {| state := if Z.leb FAILURE_THRESHOLD failureCount' then OPEN else state s;
     failureCount := failureCount';
     lastFailureTime := now;
     successCount := successCount s |}.

Section Execute.
Context {W T : Type}.
Variable operation : W -> completion T thrown * W.

(** [execute(operation)] when nothing else touches the breaker while the
    operation runs.  [now] is the clock read by the gate, [now'] the one
    read by [onFailure]. *)
Definition execute (now now' : Z) (s : CircuitBreakerState) (w : W)
  : completion T thrown * CircuitBreakerState * W :=
  match enter now s with
  | Throw e => (Throw e, s, w)
  | Return s1 =>
      let '(res, w') := operation w in
      match res with
      | Return v => (Return v, onSuccess s1, w')
      | Throw e => (Throw e, onFailure now' s1, w')
      end
  end.
End Execute.

(** One breaker is shared by every request to its endpoint, and [execute]
    suspends while the operation is in flight, so the gate, [onSuccess]
    and [onFailure] of different calls interleave.  A step of the breaker
    is any one of the three. *)
Inductive step : CircuitBreakerState -> CircuitBreakerState -> Prop :=
| step_enter now s s' : enter now s = Return s' -> step s s'
| step_success s : step s (onSuccess s)
| step_failure now s : step s (onFailure now s).

Inductive reachable : CircuitBreakerState -> Prop :=
| reachable_initial : reachable initial
| reachable_step s s' : reachable s -> step s s' -> reachable s'.

(** Away from [CLOSED] the failure count has reached the threshold. *)
Definition tripped (s : CircuitBreakerState) : Prop :=
  state s <> CLOSED -> FAILURE_THRESHOLD <= failureCount s.

(** [getCircuitBreaker(proxyUrl)] on the process-wide registry. *)
Definition getCircuitBreaker (proxyUrl : string)
           (circuitBreakers : gmap string CircuitBreakerState)
  : CircuitBreakerState * gmap string CircuitBreakerState :=
  match circuitBreakers !! proxyUrl with
  | Some b => (b, circuitBreakers)
  | None => (initial, <[proxyUrl := initial]> circuitBreakers)
  end.

(** The counters of a reachable breaker: the state is [CLOSED] exactly when
    fewer than [FAILURE_THRESHOLD] failures are counted, and a half-open
    breaker has counted fewer than [SUCCESS_THRESHOLD] successes. *)
Definition counted (s : CircuitBreakerState) : Prop :=
  0 <= failureCount s
  /\ (state s = CLOSED <-> failureCount s < FAILURE_THRESHOLD)
  /\ (state s = HALF_OPEN -> 0 <= successCount s < SUCCESS_THRESHOLD).

(** A call of [execute]: the clock read by the gate, the clock read by
    [onFailure], and whether the operation succeeds. *)
Record Call : Type := {
  call_now : Z;
  call_now' : Z;
  call_succeeds : bool
}.

Definition operationError : thrown := ThrownError (newError "operation failed").

(** An operation that counts its invocations and succeeds or throws as
    told. *)
Definition countingOperation (succeeds : bool) (invoked : nat)
  : completion unit thrown * nat :=
  (if succeeds then Return tt else Throw operationError, S invoked).

(** Calls of [execute] one after the other on one breaker; the state of the
    operation is the number of times it was invoked. *)
Fixpoint executeAll (calls : list Call) (s : CircuitBreakerState) (invoked : nat)
  : CircuitBreakerState * nat :=
  match calls with
  | [] => (s, invoked)
  | c :: rest =>
      let '(_, s', invoked') :=
        execute (countingOperation (call_succeeds c)) (call_now c) (call_now' c)
                s invoked in
      executeAll rest s' invoked'
  end.

End CircuitBreakerM.

(* ===================================================================== *)
(** ** Strings *)
(* ===================================================================== *)

Module Str.

(** A string is its sequence of code units, each below 256.  Case mapping
    is the one of JavaScript on the code units below 128, the range of
    language tags; from 128 on JavaScript maps further letters (U+00E9 to
    U+00C9, U+00DF to two letters), which [toUpperCase] and [toLowerCase]
    leave as they are. *)
Definition upper_ascii (c : ascii) : ascii :=
  let n := nat_of_ascii c in
  if (Nat.leb 97 n && Nat.leb n 122)%bool then ascii_of_nat (n - 32) else c.

Definition lower_ascii (c : ascii) : ascii :=
  let n := nat_of_ascii c in
  if (Nat.leb 65 n && Nat.leb n 90)%bool then ascii_of_nat (n + 32) else c.

Fixpoint map_string (f : ascii -> ascii) (s : string) : string :=
  match s with
  | EmptyString => EmptyString
  | String c rest => String (f c) (map_string f rest)
  end.

Definition toUpperCase : string -> string := map_string upper_ascii.
Definition toLowerCase : string -> string := map_string lower_ascii.

Definition truthy (s : string) : bool :=
  match s with EmptyString => false | _ => true end.

(** [s.split(sep)] for a one-character separator, written with the piece
    being read as an accumulator (in reverse). *)
Fixpoint split_go (sep : ascii) (s : string) (piece : string) : list string :=
  match s with
  | EmptyString => [piece]
  | String c rest =>
      if Ascii.eqb c sep then piece :: split_go sep rest EmptyString
      else split_go sep rest (piece ++ String c EmptyString)
  end.

Definition split (sep : ascii) (s : string) : list string :=
  split_go sep s EmptyString.

Fixpoint rev_string (s acc : string) : string :=
  match s with
  | EmptyString => acc
  | String c rest => rev_string rest (String c acc)
  end.

(** The number of code units equal to [c]. *)
Fixpoint occurrences (c : ascii) (s : string) : nat :=
  match s with
  | EmptyString => O
  | String d rest =>
      if Ascii.eqb d c then S (occurrences c rest) else occurrences c rest
  end.

Fixpoint repeat_char (c : ascii) (n : nat) : string :=
  match n with
  | O => EmptyString
  | S n' => String c (repeat_char c n')
  end.

(** The code units below 128, on which the case mapping of the model is
    the one of JavaScript. *)
Fixpoint is_ascii (s : string) : bool :=
  match s with
  | EmptyString => true
  | String c rest => Nat.ltb (nat_of_ascii c) 128 && is_ascii rest
  end.

Fixpoint forall_chars (p : ascii -> bool) (s : string) : bool :=
  match s with
  | EmptyString => true
  | String c rest => p c && forall_chars p rest
  end.

(** [s.startsWith(prefix)]. *)
Definition startsWith (prefix s : string) : bool := String.prefix prefix s.

(** [s.slice(0, n)] and [s.substring(0, n)] for [n >= 0]. *)
Definition take (n : nat) (s : string) : string := String.substring 0 n s.

(** The white space of [String.prototype.trim] among the code units below
    256: tab, line feed, vertical tab, form feed, carriage return, space and
    the no-break space. *)
Definition is_white (c : ascii) : bool :=
  let n := nat_of_ascii c in
  (Nat.eqb n 32 || (Nat.leb 9 n && Nat.leb n 13) || Nat.eqb n 160)%bool.

Fixpoint trimStart (s : string) : string :=
  match s with
  | String c rest => if is_white c then trimStart rest else s
  | EmptyString => EmptyString
  end.

(** [s.trim()]. *)
Definition trimWs (s : string) : string :=
  rev_string (trimStart (rev_string (trimStart s) EmptyString)) EmptyString.

(** The first element of [s.split(sep)]. *)
Definition firstPiece (sep : ascii) (s : string) : string :=
  match split sep s with
  | first :: _ => first
  | [] => EmptyString
  end.

End Str.

(* ===================================================================== *)
(** ** src/lib/types.ts *)
(* ===================================================================== *)

Module Types.

(** What [normalizeLanguageCode] can hand to [createStandardResponse]: a
    string, or an object that is not a string (see [Query.languageMap]). *)
Inductive LangValue : Type :=
| LangStr (s : string)
| LangObject.

Record RequestParams : Type := {
  text : string;
  source_lang : string;
  target_lang : string
}.

Record ResponseParams : Type := {
  code : number;
  data : option string;
  id : number;
  r_source_lang : option string;
  r_target_lang : option string
}.

Definition toUpperCaseError : Error :=
  mkError "TypeError" "toUpperCase is not a function" Undefined Undefined.

(** [(lang || fallback).toUpperCase()]. *)
Definition upperOr (lang : option LangValue) (fallback : string)
  : completion string thrown :=
  match lang with
  | None => Return (Str.toUpperCase fallback)
  | Some (LangStr s) =>
      Return (Str.toUpperCase (if Str.truthy s then s else fallback))
  | Some LangObject => Throw (ThrownError toUpperCaseError)
  end.

(** [createStandardResponse(code, data, id?, source_lang?, target_lang?)];
    [random] is the value of [Math.random()] should it be drawn. *)
Definition createStandardResponse (random : Q) (code : number)
           (data : option string) (id : option number)
           (source_lang target_lang : option LangValue)
  : completion ResponseParams thrown :=
  let responseId :=
    match id with
    | Some n => if truthy n then n
                else floor (mul (Fin random) (of_Z 10000000000))
    | None => floor (mul (Fin random) (of_Z 10000000000))
    end in
  if negb (eqb code (of_Z 200)) then
    Return {| code := code;
              data := None;
              id := responseId;
              r_source_lang := None;
              r_target_lang := None |}
  else
    match upperOr source_lang "AUTO" with
    | Throw e => Throw e
    | Return src =>
        match upperOr target_lang "EN" with
        | Throw e => Throw e
        | Return tgt =>
            Return {| code := code;
                      data := data;
                      id := responseId;
                      r_source_lang := Some src;
                      r_target_lang := Some tgt |}
        end
    end.

End Types.

(* ===================================================================== *)
(** ** src/lib/errorHandler.ts *)
(* ===================================================================== *)

Module ErrorHandler.

Definition isValidHttpStatusCode (code : value) : bool :=
  let numCode := toNumber code in
  negb (isNaN numCode)
  && leb (of_Z 200) numCode
  && leb numCode (of_Z 599)
  && isInteger numCode.

(** [sanitizeStatusCode(code)]; the branch for the code 5 returns 500, as
    the default does. *)
Definition sanitizeStatusCode (code : value) : number :=
  let numCode := toNumber code in
  if isValidHttpStatusCode (Num numCode) then numCode
  else of_Z 500.

(** [error?.status] and [error?.code]. *)
Definition status_of (error : thrown) : value :=
  match error with
  | ThrownUndefined => Undefined
  | ThrownError e => status e
  end.

Definition code_of (error : thrown) : value :=
  match error with
  | ThrownUndefined => Undefined
  | ThrownError e => Js.code e
  end.

Record ErrorResponse : Type := {
  response : completion Types.ResponseParams thrown;
  httpStatus : number
}.

(** [createErrorResponse(error, context)] on the thrown values of
    [Js.thrown]: [undefined], or an object with a string [message] whose
    [status] and [code] are values that [Number] converts.  On these
    [logError] returns ([String(undefined)] and [message.replace] do not
    throw), and the log line it writes is not represented.  A value whose
    conversion to a string throws, or an [Error] whose [message] is not a
    string, makes [logError] throw; such values are outside [Js.thrown]. *)
Definition createErrorResponse (random : Q) (error : thrown) : ErrorResponse :=
  let httpStatus :=
    if value_truthy (status_of error) then sanitizeStatusCode (status_of error)
    else if value_truthy (code_of error) then sanitizeStatusCode (code_of error)
    else of_Z 500 in
  {| response := Types.createStandardResponse random httpStatus None None None None;
     httpStatus := httpStatus |}.

End ErrorHandler.

(* ===================================================================== *)
(** ** src/lib/proxyManager.ts *)
(* ===================================================================== *)

Module ProxyManager.

(** The part of [Env] that is plain data.  The key-value bindings are
    represented by the answers they give (see [RateLimit] and [Cache]). *)
Record Env : Type := { PROXY_URLS : option string }.

Record ProxyEndpoint : Type := { url : string }.

(** The value of a call to an [async] function: a promise, which holds the
    result but is not the result. *)
Inductive Promise (A : Type) : Type := Fulfilled (a : A).
Arguments Fulfilled {A} a.

Definition await {A : Type} (p : Promise A) : A :=
  match p with Fulfilled a => a end.

(** [p.length] on a promise that was not awaited: promise objects have no
    such property, so the read gives [undefined]. *)
Definition promise_length {A : Type} (p : Promise (list A)) : value := Undefined.

(** [export async function getProxyEndpoints(env)]. *)
Definition getProxyEndpoints (env : Env) : Promise (list ProxyEndpoint) :=
  let proxyUrls :=
    match PROXY_URLS env with
    | Some s => if Str.truthy s then map Str.trimWs (Str.split "," s) else []
    | None => []
    end in
  Fulfilled (map (fun u => {| url := u |}) proxyUrls).

(** [selectProxy(env)], with [random] the draw of [Math.random()]; the
    index is the floor of the exact product, where the code floors the
    product rounded to a double. *)
Definition selectProxy (random : Q) (env : Env) : option ProxyEndpoint :=
  let proxies := await (getProxyEndpoints env) in
  if Nat.eqb (List.length proxies) 0 then None
  else
    let index := Qfloor (random * inject_Z (Z.of_nat (List.length proxies))) in
    if Z.ltb index 0 then None else nth_error proxies (Z.to_nat index).

(** [getProxyUrls(env)]. *)
Definition getProxyUrls (env : Env) : list string :=
  match PROXY_URLS env with
  | Some s =>
      if Str.truthy s then
        filter (fun u => Str.startsWith "http://" u || Str.startsWith "https://" u)
               (map Str.trimWs (Str.split "," s))
      else []
  | None => []
  end.

End ProxyManager.

(* ===================================================================== *)
(** ** src/lib/rateLimit.ts *)
(* ===================================================================== *)

Module RateLimit.
Import ProxyManager.

(** What the durable store holds for a bucket, as parsed from JSON. *)
Record RateLimitEntry : Type := {
  tokens : number;
  lastRefill : number
}.

(** An entry of the in-memory [rateLimitCache]. *)
Record CachedEntry : Type := {
  c_tokens : number;
  c_lastRefill : Z;
  c_lastUpdate : Z
}.

Definition CACHE_TTL : Z := 5000.

(** The answer of [RATE_LIMIT_KV.get(key, "json")]: it throws (binding
    absent, unparsable content), yields a falsy value, or yields an
    entry. *)
Inductive KvGet : Type :=
| KvGetThrows
| KvGetNull
| KvGetEntry (e : RateLimitEntry).

(** The store as seen by one check: the answer of its read, and whether
    the call of [put] itself throws (a rejected promise is swallowed by
    the [.catch], a synchronous throw is not). *)
Record KvAnswer : Type := {
  kv_get : KvGet;
  kv_put_throws : bool
}.

Record KvPut : Type := {
  put_key : string;
  put_tokens : number;
  put_lastRefill : Z;
  put_expirationTtl : Z
}.

Record RateLimitResult : Type := {
  allowed : bool;
  reason : option string
}.

(** [getDynamicRateLimits(env)]: the promise returned by
    [getProxyEndpoints] is used as it is, without [await]. *)
Definition getDynamicRateLimits (env : Env) : Config.DynamicRateLimits :=
  let proxyEndpoints := getProxyEndpoints env in
  Config.calculateDynamicRateLimits (promise_length proxyEndpoints).

Definition PROXY_TOKENS_PER_SECOND : number := Config.PROXY_TOKENS_PER_SECOND.
Definition PROXY_MAX_TOKENS : number := Config.PROXY_MAX_TOKENS.
Definition PROXY_REFILL_RATE : number := PROXY_TOKENS_PER_SECOND.

(** [Math.min(maxTokens, stored.tokens + timePassed * refillRate)] with
    [timePassed = (now - stored.lastRefill) / 1000], in exact arithmetic:
    the rounding of the division and of the product to doubles is not
    represented. *)
Definition refill (maxTokens refillRate : number) (now : Z)
           (storedTokens storedLastRefill : number) : number :=
  let timePassed := div (sub (of_Z now) storedLastRefill) (of_Z 1000) in
  min maxTokens (add storedTokens (mul timePassed refillRate)).

(** The body that [checkRateLimit] and [checkProxyRateLimit] share; the
    two differ in the key, the capacity and the refill rate only.  The
    result is the decision, the updated [rateLimitCache] and the writes
    issued to the durable store. *)
Definition tokenBucket (key : string) (maxTokens refillRate : number)
           (now : Z) (kv : KvAnswer) (rateLimitCache : gmap string CachedEntry)
  : bool * gmap string CachedEntry * list KvPut :=
  let fromKv :=
    match kv_get kv with
    | KvGetEntry existing =>
        refill maxTokens refillRate now (tokens existing) (lastRefill existing)
    | _ => maxTokens
    end in
  let tokens :=
    match rateLimitCache !! key with
    | Some cached =>
        if Z.ltb (now - c_lastUpdate cached) CACHE_TTL then
          refill maxTokens refillRate now (c_tokens cached) (of_Z (c_lastRefill cached))
        else fromKv
    | None => fromKv
    end in
  if ltb tokens (of_Z 1) then
    let cache1 :=
      <[key := {| c_tokens := tokens; c_lastRefill := now; c_lastUpdate := now |}]>
        rateLimitCache in
    if kv_put_throws kv then (true, cache1, [])
    else (false, cache1,
          [{| put_key := key; put_tokens := tokens; put_lastRefill := now;
              put_expirationTtl := 3600 |}])
  else
    let tokens' := sub tokens (of_Z 1) in
    let cache1 :=
      <[key := {| c_tokens := tokens'; c_lastRefill := now; c_lastUpdate := now |}]>
        rateLimitCache in
    if kv_put_throws kv then (true, cache1, [])
    else (true, cache1,
          [{| put_key := key; put_tokens := tokens'; put_lastRefill := now;
              put_expirationTtl := 3600 |}]).

(** The in-memory entry of [key] after [j] of the [N] tokens of a full
    bucket were spent at the instant [now]. *)
Definition spent (key : string) (N now j : Z)
           (rateLimitCache : gmap string CachedEntry) : Prop :=
  exists q,
    rateLimitCache !! key
    = Some {| c_tokens := Fin q; c_lastRefill := now; c_lastUpdate := now |}
    /\ (q == inject_Z (N - j))%Q.

(** [checkRateLimit(clientIP, env)]. *)
Definition checkRateLimit (clientIP : string) (env : Env) (now : Z)
           (kv : KvAnswer) (rateLimitCache : gmap string CachedEntry)
  : bool * gmap string CachedEntry * list KvPut :=
  let key := ("rate_limit:" ++ clientIP)%string in
  let rateLimits := getDynamicRateLimits env in
  let maxTokens := Config.TOKENS_PER_MINUTE rateLimits in
  tokenBucket key maxTokens (Config.REFILL_RATE rateLimits) now kv rateLimitCache.

(** [checkProxyRateLimit(proxyUrl, env)]. *)
Definition checkProxyRateLimit (proxyUrl : string) (now : Z)
           (kv : KvAnswer) (rateLimitCache : gmap string CachedEntry)
  : bool * gmap string CachedEntry * list KvPut :=
  let key := ("proxy_rate_limit:" ++ proxyUrl)%string in
  tokenBucket key PROXY_MAX_TOKENS PROXY_REFILL_RATE now kv rateLimitCache.

(** [cleanupCacheIfNeeded()]. *)
Definition cleanupCacheIfNeeded (now : Z) (rateLimitCache : gmap string CachedEntry)
  : gmap string CachedEntry :=
  if Nat.ltb 100 (size rateLimitCache) then
    filter (fun kv : string * CachedEntry =>
              now - c_lastUpdate (snd kv) <= CACHE_TTL * 2) rateLimitCache
  else rateLimitCache.

(** The clock readings and store answers met by one call of
    [checkCombinedRateLimit]. *)
Record CombinedInputs : Type := {
  now_cleanup : Z;
  now_client : Z;
  kv_client : KvAnswer;
  now_proxy : Z;
  kv_proxy : KvAnswer
}.

Definition DIRECT_URL : string := "https://www2.deepl.com/jsonrpc".

(** [checkCombinedRateLimit(clientIP, endpoint, env)]. *)
Definition checkCombinedRateLimit (clientIP endpoint : string) (env : Env)
           (i : CombinedInputs) (rateLimitCache : gmap string CachedEntry)
  : RateLimitResult * gmap string CachedEntry * list KvPut :=
  let cache0 := cleanupCacheIfNeeded (now_cleanup i) rateLimitCache in
  let '(clientAllowed, cache1, puts1) :=
    checkRateLimit clientIP env (now_client i) (kv_client i) cache0 in
  if negb clientAllowed then
    ({| allowed := false; reason := Some "Client rate limit exceeded" |},
     cache1, puts1)
  else if Str.truthy endpoint && negb (String.eqb endpoint DIRECT_URL) then
    let '(proxyAllowed, cache2, puts2) :=
      checkProxyRateLimit endpoint (now_proxy i) (kv_proxy i) cache1 in
    if negb proxyAllowed then
      ({| allowed := false; reason := Some "Proxy rate limit exceeded" |},
       cache2, puts1 ++ puts2)
    else ({| allowed := true; reason := None |}, cache2, puts1 ++ puts2)
  else ({| allowed := true; reason := None |}, cache1, puts1).

(** [getClientIP(request)]; [headers] is [request.headers.get]. *)
Definition getClientIP (headers : string -> option string) : string :=
  let forwarded :=
    match headers "X-Forwarded-For" with
    | Some f => Str.trimWs (Str.firstPiece "," f)
    | None => EmptyString
    end in
  match headers "CF-Connecting-IP" with
  | Some cf => if Str.truthy cf then cf
               else if Str.truthy forwarded then forwarded else "unknown"%string
  | None => if Str.truthy forwarded then forwarded else "unknown"%string
  end.

End RateLimit.

(* ===================================================================== *)
(** ** src/lib/cache.ts *)
(* ===================================================================== *)

Module Cache.

Record CacheEntry : Type := {
  data : string;
  timestamp : number;
  source_lang : string;
  target_lang : string;
  id : option number
}.

(** Seconds. *)
Definition CACHE_TTL : Z := 3600.

(** The answer of [CACHE_KV.get(key, "json")]. *)
Inductive KvGet : Type :=
| KvGetThrows
| KvGetNull
| KvGetEntry (e : CacheEntry).

(** [now - entry.timestamp < CACHE_TTL * 1000]. *)
Definition fresh (now : Z) (entry : CacheEntry) : bool :=
  ltb (sub (of_Z now) (timestamp entry)) (of_Z (CACHE_TTL * 1000)).

(** [getCachedTranslation(key, env)]: [now1] is the clock read for the
    in-memory entry, [now2] the one read after the durable store has
    answered.  The result comes with the in-memory cache it leaves. *)
Definition getCachedTranslation (key : string) (now1 now2 : Z) (kv : KvGet)
           (memoryCache : gmap string CacheEntry)
  : option CacheEntry * gmap string CacheEntry :=
  let fromKv :=
    match kv with
    | KvGetEntry kvResult =>
        if fresh now2 kvResult
        then (Some kvResult, <[key := kvResult]> memoryCache)
        else (None, memoryCache)
    | _ => (None, memoryCache)
    end in
  match memoryCache !! key with
  | Some memoryResult =>
      if fresh now1 memoryResult then (Some memoryResult, memoryCache)
      else fromKv
  | None => fromKv
  end.

(** [setCachedTranslation(key, entry, env)]; the write to the durable store
    is a request whose failure is swallowed. *)
Definition setCachedTranslation (key : string) (entry : CacheEntry)
           (memoryCache : gmap string CacheEntry)
  : gmap string CacheEntry * (string * CacheEntry * Z) :=
  (<[key := entry]> memoryCache, (key, entry, CACHE_TTL)).

(** [new TextEncoder().encode(s)] on code units below 256: one byte below
    128, two bytes from there on. *)
Fixpoint encode (s : string) : list Z :=
  match s with
  | EmptyString => []
  | String c rest =>
      let u := Z.of_nat (nat_of_ascii c) in
      if Z.ltb u 128 then u :: encode rest
      else Z.lor 192 (Z.shiftr u 6) :: Z.lor 128 (Z.land u 63) :: encode rest
  end.

(** One round of the hash loop: [hash = (hash << 5) - hash + char] followed
    by [hash = hash & hash]. *)
Definition hashStep (hash char : Z) : Z :=
  let hash' := Int32.shl hash 5 - hash + char in
  Int32.bitand hash' hash'.

(** The loop over the encoded content, from [hash = 0]. *)
Definition hashBytes (bytes : list Z) : Z := fold_left hashStep bytes 0.

(** The language tags as normalised for the key. *)
Definition keySourceLang (sourceLang : string) : string :=
  if String.eqb sourceLang "auto" then "auto"%string else Str.toUpperCase sourceLang.

Definition keyTargetLang (targetLang : string) : string := Str.toUpperCase targetLang.

(** [generateCacheKey(text, sourceLang, targetLang)]. *)
Definition generateCacheKey (text sourceLang targetLang : string) : string :=
  let normalizedSourceLang := keySourceLang sourceLang in
  let normalizedTargetLang := keyTargetLang targetLang in
  let content :=
    (text ++ ":" ++ normalizedSourceLang ++ ":" ++ normalizedTargetLang)%string in
  let hash := hashBytes (encode content) in
  let hashStr := Int32.toString36 (Z.abs hash) in
  Str.take 50
    ("cache_" ++ hashStr ++ "_" ++ normalizedSourceLang ++ "_" ++ normalizedTargetLang)%string.

(** [clearMemoryCache()]. *)
Definition clearMemoryCache (memoryCache : gmap string CacheEntry)
  : gmap string CacheEntry := ∅.

End Cache.

(* ===================================================================== *)
(** ** src/lib/query.ts *)
(* ===================================================================== *)

Module Query.
Import Types.

Definition API_URL : string := "https://www2.deepl.com/jsonrpc".
Definition REQUEST_ALTERNATIVES : Z := 0.

(** The own properties of the object literal [languageMap]. *)
Definition languageMap : list (string * string) :=
  [ ("chinese", "ZH"); ("english", "EN"); ("spanish", "ES"); ("french", "FR");
    ("german", "DE"); ("italian", "IT"); ("japanese", "JA");
    ("portuguese", "PT"); ("russian", "RU"); ("dutch", "NL"); ("polish", "PL");
    ("swedish", "SV"); ("danish", "DA"); ("norwegian", "NB"); ("finnish", "FI");
    ("czech", "CS"); ("slovak", "SK"); ("slovenian", "SL"); ("estonian", "ET");
    ("latvian", "LV"); ("lithuanian", "LT"); ("hungarian", "HU");
    ("romanian", "RO"); ("bulgarian", "BG"); ("greek", "EL"); ("turkish", "TR");
    ("ukrainian", "UK"); ("korean", "KO"); ("indonesian", "ID") ].

(** The lower-case property names that every object literal inherits from
    [Object.prototype]; each holds a truthy object. *)
Definition inheritedKeys : list string := [ "constructor"; "__proto__" ].

Fixpoint assoc (k : string) (l : list (string * string)) : option string :=
  match l with
  | [] => None
  | (k', v) :: rest => if String.eqb k k' then Some v else assoc k rest
  end.

(** [languageMap[key]]: an own property, else an inherited one, else
    [undefined]. *)
Definition languageMap_get (key : string) : option LangValue :=
  match assoc key languageMap with
  | Some v => Some (LangStr v)
  | None =>
      if existsb (String.eqb key) inheritedKeys then Some LangObject else None
  end.

Definition lang_truthy (v : LangValue) : bool :=
  match v with
  | LangStr s => Str.truthy s
  | LangObject => true
  end.

(** [normalizeLanguageCode(langCode)]. *)
Definition normalizeLanguageCode (langCode : string) : LangValue :=
  if negb (Str.truthy langCode) || String.eqb (Str.toLowerCase langCode) "auto"
  then LangStr "auto"
  else
    let normalized := Str.toLowerCase langCode in
    match languageMap_get normalized with
    | Some v => if lang_truthy v then v else LangStr (Str.toUpperCase normalized)
    | None => LangStr (Str.toUpperCase normalized)
    end.

(** [s || fallback] on strings. *)
Definition orElse (s fallback : string) : string :=
  if Str.truthy s then s else fallback.

Record RequestData : Type := {
  jsonrpc : string;
  method : string;
  rd_id : Z;
  texts : list (string * Z);
  rd_timestamp : Z;
  splitting : string;
  source_lang_user_selected : LangValue;
  rd_target_lang : LangValue
}.

(** [Math.floor(Math.random() * 1000000)]. *)
Definition randomComponent (random : Q) : Z := Qfloor (random * 1000000).

(** The [requestId] of [buildRequestParams]; [%] is the remainder that
    takes the sign of the dividend, and the [Math.floor] around the sum acts
    on an integer. *)
Definition requestId (timestamp : Z) (random : Q) : Z :=
  Z.rem timestamp 100000000 + Z.rem (randomComponent random) 100000000.

(** [buildRequestParams(sourceLang, targetLang)]; [timestamp] is
    [Date.now()], [random] is [Math.random()]. *)
Definition buildRequestParams (timestamp : Z) (random : Q)
           (sourceLang targetLang : string) : RequestData :=
  {| jsonrpc := "2.0";
     method := "LMT_handle_texts";
     rd_id := requestId timestamp random;
     texts := [(""%string, REQUEST_ALTERNATIVES)];
     rd_timestamp := 0;
     splitting := "newlines";
     source_lang_user_selected := normalizeLanguageCode (orElse sourceLang "auto");
     rd_target_lang := normalizeLanguageCode (orElse targetLang "en") |}.

(** [countLetterI(translateText)]. *)
Definition countLetterI (translateText : string) : Z :=
  Z.of_nat (List.length (Str.split "i" translateText)) - 1.

Definition MAX_SAFE_INTEGER : Z := 9007199254740991.

(** [getTimestamp(letterCount)]; [timestamp] is [Date.now()]. *)
Definition getTimestamp (timestamp : Z) (letterCount : Z) : Z :=
  let safeLetterCount := Z.max 0 letterCount in
  if Z.eqb safeLetterCount 0 then timestamp
  else
    let modValue := safeLetterCount + 1 in
    if Z.leb modValue 0 || Z.ltb 1000 modValue then timestamp
    else
      let modifiedTimestamp := timestamp - Z.rem timestamp modValue + modValue in
      if Z.ltb 0 modifiedTimestamp
         && Z.leb modifiedTimestamp MAX_SAFE_INTEGER
         && Z.leb (timestamp - 1000) modifiedTimestamp
      then modifiedTimestamp
      else timestamp.

(** The rendered request: the data that is serialised and which of the two
    renderings of the [method] field is used. *)
Record RequestBody : Type := {
  payload : RequestData;
  methodSpaced : bool
}.

(** What one call of [buildRequestBody] reads from its surroundings: the
    clock in [buildRequestParams], its random draw, the clock in
    [getTimestamp], and the byte length of the rendered string. *)
Record BuildInputs : Type := {
  now_id : Z;
  random_id : Q;
  now_timestamp : Z;
  payloadSize : Z
}.

(** [buildRequestBody(data)]. *)
Definition buildRequestBody (i : BuildInputs) (data : RequestParams)
  : completion RequestBody thrown :=
  if negb (Str.truthy (text data)) then
    Throw (ThrownError (newError
      "Invalid request parameters: text is required and must be a string"))
  else
    let trimmedText := text data in
    if Z.ltb Config.MAX_TEXT_LENGTH (Z.of_nat (String.length trimmedText)) then
      Throw (ThrownError (newError "Text too long."))
    else
      let sourceLang := orElse (source_lang data) "auto" in
      let targetLang := orElse (target_lang data) "en" in
      let requestData := buildRequestParams (now_id i) (random_id i) sourceLang targetLang in
      let letterICount := countLetterI trimmedText in
      let timestamp := getTimestamp (now_timestamp i) letterICount in
      if Z.leb timestamp 0 then
        Throw (ThrownError (newError "Invalid timestamp generated"))
      else
        let requestData' :=
          {| jsonrpc := jsonrpc requestData;
             method := method requestData;
             rd_id := rd_id requestData;
             texts := [(trimmedText, REQUEST_ALTERNATIVES)];
             rd_timestamp := timestamp;
             splitting := splitting requestData;
             source_lang_user_selected := source_lang_user_selected requestData;
             rd_target_lang := rd_target_lang requestData |} in
        let spaced :=
          Z.eqb (Z.rem (rd_id requestData' + 5) 29) 0
          || Z.eqb (Z.rem (rd_id requestData' + 3) 13) 0 in
        if Z.ltb Config.MAX_REQUEST_SIZE (payloadSize i) then
          Throw (ThrownError (newError "Request payload too large."))
        else Return {| payload := requestData'; methodSpaced := spaced |}.

(** *** The transport *)

(** The parsed body of an upstream response, by the cases the code
    distinguishes. *)
Inductive Body : Type :=
| BodyNotJson
| BodyRaises (e : Error)
| BodyError (errorCode : value) (errorMessage : string)
| BodyNoTexts
| BodyTranslation (translatedText : string) (lang : option string)
                  (resultId : option number).

Record Response : Type := {
  ok : bool;
  resp_status : number;
  body : Body
}.

(** What [fetch] does with one request: the deadline aborts it, it rejects
    for another reason, or a response arrives. *)
Inductive FetchOutcome : Type :=
| FetchAborted
| FetchRejected (e : Error)
| FetchResponse (r : Response).

Record Config : Type := {
  proxyEndpoint : option string;
  clientIP : option string;
  env : option ProxyManager.Env
}.

(** What one attempt reads from its surroundings. *)
Record AttemptInputs : Type := {
  random_proxy : Q;
  rateLimitInputs : RateLimit.CombinedInputs;
  buildInputs : BuildInputs;
  fetchOutcome : FetchOutcome;
  random_response : Q
}.

(** A call made on the transport. *)
Record TransportCall : Type := {
  call_endpoint : string;
  call_body : RequestBody
}.

(** The process-wide state a request runs against, with the record of the
    calls made on the transport and on the durable store. *)
Record World : Type := {
  rateLimitCache : gmap string RateLimit.CachedEntry;
  circuitBreakers : gmap string CircuitBreakerM.CircuitBreakerState;
  attemptsStarted : nat;
  transportCalls : list TransportCall;
  kvPuts : list RateLimit.KvPut
}.

(** The world with another breaker registry. *)
Definition withBreakers (breakers : gmap string CircuitBreakerM.CircuitBreakerState)
           (w : World) : World :=
  {| rateLimitCache := rateLimitCache w;
     circuitBreakers := breakers;
     attemptsStarted := attemptsStarted w;
     transportCalls := transportCalls w;
     kvPuts := kvPuts w |}.

Definition rateLimitError (reason : option string) : Error :=
  mkError "Error"
          (match reason with
           | Some r => orElse r "Rate limit exceeded"
           | None => "Rate limit exceeded"
           end)
          Undefined (Num (of_Z 429)).

Definition timeoutError (endpoint : string) : Error :=
  mkError "Error" ("Request timeout after 10 seconds to " ++ endpoint)%string
          (Num (of_Z 408)) Undefined.

Definition httpError (st : number) : Error :=
  mkError "Error" "Request failed with status" (Num st) Undefined.

Definition parseError (endpoint : string) : Error :=
  mkError "Error" ("Failed to parse JSON response from " ++ endpoint)%string
          Undefined (Num (of_Z 500)).

Definition apiError (errorCode : value) (errorMessage : string) : Error :=
  mkError "Error" ("DeepL API error: " ++ errorMessage)%string Undefined errorCode.

Definition structureError : Error :=
  mkError "Error" "Invalid response structure from DeepL API"
          Undefined (Num (of_Z 500)).

Definition langTypeError : Error :=
  mkError "TypeError" "Cannot read properties of undefined (reading 'toUpperCase')"
          Undefined Undefined.

Section Attempt.
Variable params : RequestParams.
Variable config : option Config.
Variable inputs : nat -> AttemptInputs.

Definition config_env : option ProxyManager.Env :=
  match config with Some c => env c | None => None end.

(** The operation handed to [retryWithBackoff]. *)
Definition attempt (w : World) : completion ResponseParams thrown * World :=
  let i := inputs (attemptsStarted w) in
  let w0 := {| rateLimitCache := rateLimitCache w;
               circuitBreakers := circuitBreakers w;
               attemptsStarted := S (attemptsStarted w);
               transportCalls := transportCalls w;
               kvPuts := kvPuts w |} in
  let proxy :=
    match config_env with
    | Some e => ProxyManager.selectProxy (random_proxy i) e
    | None => None
    end in
  let endpoint :=
    match config with
    | Some {| proxyEndpoint := Some ep |} => ep
    | _ => match proxy with
           | Some p => ProxyManager.url p
           | None => API_URL
           end
    end in
  (* admission control *)
  let '(denied, w1) :=
    match config_env with
    | Some e =>
        let clientIP :=
          match config with
          | Some {| clientIP := Some ip |} => orElse ip "unknown"
          | _ => "unknown"%string
          end in
        let '(rateLimitResult, cache', puts) :=
          RateLimit.checkCombinedRateLimit clientIP endpoint e
            (rateLimitInputs i) (rateLimitCache w0) in
        let w' := {| rateLimitCache := cache';
                     circuitBreakers := circuitBreakers w0;
                     attemptsStarted := attemptsStarted w0;
                     transportCalls := transportCalls w0;
                     kvPuts := kvPuts w0 ++ puts |} in
        if negb (RateLimit.allowed rateLimitResult)
        then (Some (rateLimitError (RateLimit.reason rateLimitResult)), w')
        else (None, w')
    | None => (None, w0)
    end in
  match denied with
  | Some e => (Throw (ThrownError e), w1)
  | None =>
      (* makeRequest *)
      match buildRequestBody (buildInputs i) params with
      | Throw e =>
          (match e with
           | ThrownError err =>
               if String.eqb (name err) "AbortError"
               then Throw (ThrownError (timeoutError endpoint))
               else Throw e
           | ThrownUndefined => Throw e
           end, w1)
      | Return requestBody =>
          let w2 := {| rateLimitCache := rateLimitCache w1;
                       circuitBreakers := circuitBreakers w1;
                       attemptsStarted := attemptsStarted w1;
                       transportCalls :=
                         transportCalls w1 ++
                           [{| call_endpoint := endpoint; call_body := requestBody |}];
                       kvPuts := kvPuts w1 |} in
          match fetchOutcome i with
          | FetchAborted => (Throw (ThrownError (timeoutError endpoint)), w2)
          | FetchRejected err =>
              if String.eqb (name err) "AbortError"
              then (Throw (ThrownError (timeoutError endpoint)), w2)
              else (Throw (ThrownError err), w2)
          | FetchResponse response =>
              if negb (ok response)
              then (Throw (ThrownError (httpError (resp_status response))), w2)
              else
                match body response with
                | BodyNotJson => (Throw (ThrownError (parseError endpoint)), w2)
                | BodyRaises err => (Throw (ThrownError err), w2)
                | BodyError errorCode errorMessage =>
                    (Throw (ThrownError
                              (apiError errorCode
                                        (orElse errorMessage "Unknown DeepL API error"))),
                     w2)
                | BodyNoTexts => (Throw (ThrownError structureError), w2)
                | BodyTranslation translatedText lang resultId =>
                    match lang with
                    | None => (Throw (ThrownError langTypeError), w2)
                    | Some l =>
                        (createStandardResponse (random_response i)
                           (of_Z 200) (Some translatedText) resultId
                           (Some (LangStr (Str.toUpperCase l)))
                           (Some (normalizeLanguageCode (target_lang params))),
                         w2)
                    end
                end
          end
      end
  end.

End Attempt.

Definition retryOptions : RetryLogic.RetryOptions :=
  {| RetryLogic.maxRetries := Config.cfg_maxRetries Config.DEFAULT_RETRY_CONFIG;
     RetryLogic.initialDelay := Config.cfg_initialDelay Config.DEFAULT_RETRY_CONFIG;
     RetryLogic.backoffFactor := Config.cfg_backoffFactor Config.DEFAULT_RETRY_CONFIG;
     RetryLogic.isRetryable := RetryLogic.isRetryableError |}.

(** The random draws of the code that builds the final response. *)
Record FinalInputs : Type := {
  random_error : Q;
  random_final : Q
}.

(** [query(params, config)].  [params] is absent when the caller passed
    [undefined]; an absent field of [params] is the empty string, which the
    code cannot tell apart (it only tests these fields for truthiness). *)
Definition query (params : option RequestParams) (config : option Config)
           (inputs : nat -> AttemptInputs) (final : FinalInputs) (w : World)
  : completion ResponseParams thrown * World :=
  match params with
  | None =>
      (createStandardResponse (random_final final) (of_Z 400) None None
         (Some (normalizeLanguageCode "auto"))
         (Some (normalizeLanguageCode "en")), w)
  | Some p =>
      if negb (Str.truthy (text p)) then
        (createStandardResponse (random_final final) (of_Z 400) None None
           (Some (normalizeLanguageCode (orElse (source_lang p) "auto")))
           (Some (normalizeLanguageCode (orElse (target_lang p) "en"))), w)
      else
        let '(res, run) :=
          RetryLogic.retryWithBackoff (attempt p config inputs) retryOptions w in
        match res with
        | Return r => (Return r, RetryLogic.world run)
        | Throw error =>
            let errorDetails :=
              ErrorHandler.createErrorResponse (random_error final) error in
            (createStandardResponse (random_final final)
               (ErrorHandler.httpStatus errorDetails) None None
               (Some (normalizeLanguageCode (orElse (source_lang p) "auto")))
               (Some (normalizeLanguageCode (orElse (target_lang p) "en"))),
             RetryLogic.world run)
        end
  end.

End Query.

(* ===================================================================== *)
(** ** Concrete operations, inputs and states used in the examples *)
(* ===================================================================== *)

Module Scenarios.
Import RetryLogic.

(** An upstream failure that [isRetryableError] classifies as retryable. *)
Definition serviceUnavailable : thrown :=
  ThrownError (mkError "Error" "Request failed with status" (Num (of_Z 503)) Undefined).

(** An operation that fails retryably until it has been called [k] times
    and succeeds from then on; its state is the number of calls so far. *)
Definition failingThenOk (k : nat) (calls : nat) : completion string thrown * nat :=
  (if Nat.ltb calls k then Throw serviceUnavailable else Return "ok"%string,
   S calls).

Definition retryOptionsWith (maxRetries : Z) : RetryOptions :=
  {| maxRetries := maxRetries;
     initialDelay := of_Z 1000;
     backoffFactor := of_Z 2;
     isRetryable := isRetryableError |}.

(** The delay the specification describes: the exponential delay capped at
    [maxDelay]. *)
Definition cappedDelay (options : RetryOptions) (maxDelay : number) (attempt : Z)
  : number :=
  min (mul (initialDelay options) (pow (backoffFactor options) attempt)) maxDelay.

(** The timestamp the specification describes for a text with [k]
    occurrences of the letter i. *)
Definition describedTimestamp (raw : Z) (translateText : string) : Z :=
  let k := Z.of_nat (Str.occurrences "i" translateText) in
  if Z.eqb k 0 then raw
  else let m := k + 1 in raw - raw mod m + m.

(** [n] admission checks in a row, all at the instant [now] and all with
    the same answer of the durable store; the decisions come oldest
    first. *)
Fixpoint repeatedChecks
         (check : gmap string RateLimit.CachedEntry ->
                  bool * gmap string RateLimit.CachedEntry * list RateLimit.KvPut)
         (n : nat) (cache : gmap string RateLimit.CachedEntry)
  : list bool * gmap string RateLimit.CachedEntry :=
  match n with
  | O => ([], cache)
  | S n' =>
      let '(allowed, cache', _) := check cache in
      let '(rest, cache'') := repeatedChecks check n' cache' in
      (allowed :: rest, cache'')
  end.

Definition kvEmpty : RateLimit.KvAnswer :=
  {| RateLimit.kv_get := RateLimit.KvGetNull; RateLimit.kv_put_throws := false |}.

Definition noProxies : ProxyManager.Env := {| ProxyManager.PROXY_URLS := None |}.

Definition emptyWorld : Query.World :=
  {| Query.rateLimitCache := ∅;
     Query.circuitBreakers := ∅;
     Query.attemptsStarted := 0;
     Query.transportCalls := [];
     Query.kvPuts := [] |}.

(** A breaker that tripped at time [at]. *)
Definition trippedAt (at_ : Z) : CircuitBreakerM.CircuitBreakerState :=
  {| CircuitBreakerM.state := CircuitBreakerM.OPEN;
     CircuitBreakerM.failureCount := 5;
     CircuitBreakerM.lastFailureTime := at_;
     CircuitBreakerM.successCount := 0 |}.

(** A process in which the breaker of the direct upstream tripped at time
    [at_]. *)
Definition worldTrippedAt (at_ : Z) : Query.World :=
  Query.withBreakers {[ Query.API_URL := trippedAt at_ ]} emptyWorld.

Definition quietLimiter (now : Z) : RateLimit.CombinedInputs :=
  {| RateLimit.now_cleanup := now;
     RateLimit.now_client := now;
     RateLimit.kv_client := kvEmpty;
     RateLimit.now_proxy := now;
     RateLimit.kv_proxy := kvEmpty |}.

(** An attempt at wall-clock time [now] on which the upstream answers
    [outcome]. *)
Definition attemptAt (now : Z) (outcome : Query.FetchOutcome) : Query.AttemptInputs :=
  {| Query.random_proxy := 0;
     Query.rateLimitInputs := quietLimiter now;
     Query.buildInputs :=
       {| Query.now_id := now; Query.random_id := 1 # 2;
          Query.now_timestamp := now; Query.payloadSize := 200 |};
     Query.fetchOutcome := outcome;
     Query.random_response := 1 # 2 |}.

Definition translated : Query.FetchOutcome :=
  Query.FetchResponse
    {| Query.ok := true;
       Query.resp_status := of_Z 200;
       Query.body := Query.BodyTranslation "Hallo" (Some "EN"%string) (Some (of_Z 12345)) |}.

(** An upstream answer of HTTP status 200 whose body is the error shape
    with the protocol code [c]. *)
Definition upstreamError (c : Z) : Query.FetchOutcome :=
  Query.FetchResponse
    {| Query.ok := true;
       Query.resp_status := of_Z 200;
       Query.body := Query.BodyError (Num (of_Z c)) "rejected" |}.

Definition finalInputs : Query.FinalInputs :=
  {| Query.random_error := 1 # 4; Query.random_final := 3 # 4 |}.

Definition hello : Types.RequestParams :=
  {| Types.text := "Hello"; Types.source_lang := "en"; Types.target_lang := "de" |}.

End Scenarios.

(* ===================================================================== *)
(** ** src/lib/security.ts *)
(* ===================================================================== *)

Module Security.

(** The character class [[a-z0-9-]]. *)
Definition is_lang_char (c : ascii) : bool :=
  let n := nat_of_ascii c in
  ((Nat.leb 97 n && Nat.leb n 122) || (Nat.leb 48 n && Nat.leb n 57) || Nat.eqb n 45)%bool.

(** [validateLanguageCode(langCode)] on a string. *)
Definition validateLanguageCode (langCode : string) : option string :=
  let normalized := Str.trimWs (Str.toLowerCase langCode) in
  if Nat.ltb (String.length normalized) 2 || Nat.ltb 5 (String.length normalized)
  then None
  else if negb (Str.forall_chars is_lang_char normalized) then None
  else Some normalized.

Definition is_digit (c : ascii) : bool :=
  let n := nat_of_ascii c in (Nat.leb 48 n && Nat.leb n 57)%bool.

Definition is_hex (c : ascii) : bool :=
  let n := nat_of_ascii c in
  ((Nat.leb 48 n && Nat.leb n 57) || (Nat.leb 97 n && Nat.leb n 102)
   || (Nat.leb 65 n && Nat.leb n 70))%bool.

(** A group of one to [most] characters of the class [p]. *)
Definition is_group (p : ascii -> bool) (most : nat) (s : string) : bool :=
  Nat.leb 1 (String.length s) && Nat.leb (String.length s) most
  && Str.forall_chars p s.

(** [isValidIP(ip)]: four groups of one to three digits separated by dots,
    or eight groups of one to four hexadecimal digits separated by
    colons. *)
Definition isValidIP (ip : string) : bool :=
  let ipv4 := Str.split "." ip in
  let ipv6 := Str.split ":" ip in
  (Nat.eqb (List.length ipv4) 4 && forallb (is_group is_digit 3) ipv4)
  || (Nat.eqb (List.length ipv6) 8 && forallb (is_group is_hex 4) ipv6).

(** [getSecureClientIP(request)]; [headers] is [request.headers.get]. *)
Definition getSecureClientIP (headers : string -> option string) : option string :=
  let fromForwarded :=
    match headers "X-Forwarded-For" with
    | Some forwardedFor =>
        if Str.truthy forwardedFor then
          let firstIP := Str.trimWs (Str.firstPiece "," forwardedFor) in
          if Str.truthy firstIP && isValidIP firstIP then Some firstIP else None
        else None
    | None => None
    end in
  match headers "CF-Connecting-IP" with
  | Some cfIP =>
      if Str.truthy cfIP && isValidIP cfIP then Some cfIP else fromForwarded
  | None => fromForwarded
  end.

End Security.

(* ===================================================================== *)
(** ** src/lib/textUtils.ts *)
(* ===================================================================== *)

Module TextUtils.

Record TextValidation : Type := {
  isValid : bool;
  suggestedAction : string
}.

(** [validateTextLength(text)]. *)
Definition validateTextLength (text : string) : TextValidation :=
  if Nat.eqb (String.length text) 0 then
    {| isValid := false; suggestedAction := "Text cannot be empty" |}
  else if Z.leb (Z.of_nat (String.length text)) Config.MAX_TEXT_LENGTH then
    {| isValid := true; suggestedAction := "Text is within limits" |}
  else
    {| isValid := false;
       suggestedAction := "Text is too long. Please reduce text length." |}.

End TextUtils.

(* ===================================================================== *)
(** ** src/index.ts *)
(* ===================================================================== *)

Module Index.
Import Types.

(** A field of the parsed request body: missing, a string, or a value of
    another type, of which only the truthiness is observed. *)
Inductive Field : Type :=
| FieldAbsent
| FieldString (s : string)
| FieldOther (isTruthy : bool).

(** The request body: not JSON, JSON that is falsy or not an object, or an
    object with its three fields. *)
Inductive RequestJson : Type :=
| JsonUnparsable
| JsonNotObject
| JsonObject (text source_lang target_lang : Field).

Record HttpResponse : Type := {
  http_status : number;
  http_body : ResponseParams
}.

(** The state of the worker process: the in-memory translation cache, the
    state that [query] runs against, and the writes issued to the durable
    translation cache. *)
Record Server : Type := {
  memoryCache : gmap string Cache.CacheEntry;
  world : Query.World;
  cachePuts : list (string * Cache.CacheEntry * Z)
}.

(** What one request reads from its surroundings. *)
Record HandlerInputs : Type := {
  random_bad_request : Q;
  now_memory : Z;
  now_durable : Z;
  cacheAnswer : Cache.KvGet;
  random_cached_id : Q;
  random_cached : Q;
  attempts : nat -> Query.AttemptInputs;
  final : Query.FinalInputs;
  now_store : Z;
  random_failure : Q
}.

(** The status as [new Response(body, { status })] reads it: the number
    converted to an unsigned 16-bit integer, that is [NaN] to 0 and
    otherwise truncated towards zero and taken modulo 2^16. *)
Definition toUint16 (n : number) : Z :=
  match n with
  | NaN => 0
  | Fin q => (if Qle_bool 0 q then Qfloor q else Qceiling q) mod 65536
  end.

Definition statusRangeError : Error :=
  mkError "RangeError" "The status provided is outside the range [200, 599]"
          Undefined Undefined.

Definition nullBodyStatusError : Error :=
  mkError "TypeError" "Response with null body status cannot have body"
          Undefined Undefined.

(** [c.json(body, status)]: the body is rendered and handed with the
    status to the [Response] constructor, which throws a [RangeError] for
    a status outside 200..599 and a [TypeError] for a body together with
    one of the null-body statuses, of which 204, 205 and 304 lie in that
    range. *)
Definition json (body : ResponseParams) (status : number)
  : completion HttpResponse thrown :=
  let s := toUint16 status in
  if Z.ltb s 200 || Z.ltb 599 s then Throw (ThrownError statusRangeError)
  else if Z.eqb s 204 || Z.eqb s 205 || Z.eqb s 304
  then Throw (ThrownError nullBodyStatusError)
  else Return {| http_status := of_Z s; http_body := body |}.

(** The [catch] of the handler: [createErrorResponse(error, ...)] and
    [c.json(errorResponse.response, errorResponse.httpStatus)]; what is
    thrown here leaves the handler. *)
Definition failure (i : HandlerInputs) (error : thrown)
  : completion HttpResponse thrown :=
  let errorResponse := ErrorHandler.createErrorResponse (random_failure i) error in
  match ErrorHandler.response errorResponse with
  | Return body => json body (ErrorHandler.httpStatus errorResponse)
  | Throw e => Throw e
  end.

(** [return c.json(body, status)] inside the [try] of the handler: what
    [c.json] throws is caught by the handler. *)
Definition answer (i : HandlerInputs) (body : ResponseParams) (status : number)
  : completion HttpResponse thrown :=
  match json body status with
  | Return resp => Return resp
  | Throw e => failure i e
  end.

(** [return c.json(createStandardResponse(400, null), 400)], also inside
    the [try]. *)
Definition badRequest (i : HandlerInputs) : completion HttpResponse thrown :=
  match createStandardResponse (random_bad_request i) (of_Z 400) None None None None with
  | Return body => answer i body (of_Z 400)
  | Throw e => failure i e
  end.

(** [params.source_lang ? validateLanguageCode(params.source_lang) : fallback]. *)
Definition languageOf (f : Field) (fallback : string) : option string :=
  match f with
  | FieldAbsent => Some fallback
  | FieldString s => if Str.truthy s then Security.validateLanguageCode s else Some fallback
  | FieldOther isTruthy => if isTruthy then None else Some fallback
  end.

Definition notAFunctionError : Error :=
  mkError "TypeError" "toUpperCase is not a function" Undefined Undefined.

(** The handler of [POST /translate]. *)
Definition translate (headers : string -> option string) (body : RequestJson)
           (env : ProxyManager.Env) (i : HandlerInputs) (srv : Server)
  : completion HttpResponse thrown * Server :=
  let clientIP :=
    match Security.getSecureClientIP headers with
    | Some ip => if Str.truthy ip then ip else "unknown"%string
    | None => "unknown"%string
    end in
  match body with
  | JsonUnparsable => (badRequest i, srv)
  | JsonNotObject => (badRequest i, srv)
  | JsonObject (FieldString text) source target =>
      if negb (Str.truthy text) then (badRequest i, srv)
      else
        let sanitizedText :=
          if Z.ltb Config.MAX_TEXT_LENGTH (Z.of_nat (String.length text))
          then Str.take (Z.to_nat Config.MAX_TEXT_LENGTH) text
          else text in
        if negb (Str.truthy sanitizedText) then (badRequest i, srv)
        else
          match languageOf source "auto", languageOf target "en" with
          | Some sourceLang, Some targetLang =>
              match Query.normalizeLanguageCode sourceLang,
                    Query.normalizeLanguageCode targetLang with
              | LangStr normalizedSourceLang, LangStr normalizedTargetLang =>
                  let cacheKey :=
                    Cache.generateCacheKey sanitizedText normalizedSourceLang
                                           normalizedTargetLang in
                  let '(cached, memory1) :=
                    Cache.getCachedTranslation cacheKey (now_memory i) (now_durable i)
                      (cacheAnswer i) (memoryCache srv) in
                  match cached with
                  | Some entry =>
                      let fallbackId :=
                        floor (mul (Fin (random_cached_id i)) (of_Z 10000000000)) in
                      let id :=
                        match Cache.id entry with
                        | Some n => if truthy n then n else fallbackId
                        | None => fallbackId
                        end in
                      let srv1 := {| memoryCache := memory1; world := world srv;
                                     cachePuts := cachePuts srv |} in
                      match createStandardResponse (random_cached i) (of_Z 200)
                              (Some (Cache.data entry)) (Some id)
                              (Some (LangStr (Cache.source_lang entry)))
                              (Some (LangStr (Cache.target_lang entry))) with
                      | Return response =>
                          (Return {| http_status := of_Z 200; http_body := response |},
                           srv1)
                      | Throw e => (failure i e, srv1)
                      end
                  | None =>
                      let validatedParams :=
                        {| text := sanitizedText;
                           source_lang := normalizedSourceLang;
                           target_lang := normalizedTargetLang |} in
                      let '(res, world1) :=
                        Query.query (Some validatedParams)
                          (Some {| Query.proxyEndpoint := None;
                                   Query.clientIP := Some clientIP;
                                   Query.env := Some env |})
                          (attempts i) (final i) (world srv) in
                      match res with
                      | Throw e =>
                          (failure i e,
                           {| memoryCache := memory1; world := world1;
                              cachePuts := cachePuts srv |})
                      | Return result =>
                          match data result with
                          | Some translated =>
                              if eqb (code result) (of_Z 200) && Str.truthy translated then
                                let entry :=
                                  {| Cache.data := translated;
                                     Cache.timestamp := of_Z (now_store i);
                                     Cache.source_lang :=
                                       match r_source_lang result with
                                       | Some l => if Str.truthy l then l
                                                   else Str.toUpperCase normalizedSourceLang
                                       | None => Str.toUpperCase normalizedSourceLang
                                       end;
                                     Cache.target_lang :=
                                       match r_target_lang result with
                                       | Some l => if Str.truthy l then l
                                                   else Str.toUpperCase normalizedTargetLang
                                       | None => Str.toUpperCase normalizedTargetLang
                                       end;
                                     Cache.id := Some (id result) |} in
                                let '(memory2, put) :=
                                  Cache.setCachedTranslation cacheKey entry memory1 in
                                (answer i result (code result),
                                 {| memoryCache := memory2; world := world1;
                                    cachePuts := cachePuts srv ++ [put] |})
                              else
                                (answer i result (code result),
                                 {| memoryCache := memory1; world := world1;
                                    cachePuts := cachePuts srv |})
                          | None =>
                              (answer i result (code result),
                               {| memoryCache := memory1; world := world1;
                                  cachePuts := cachePuts srv |})
                          end
                      end
                  end
              | _, _ => (failure i (ThrownError notAFunctionError), srv)
              end
          | _, _ => (badRequest i, srv)
          end
  | JsonObject _ _ _ => (badRequest i, srv)
  end.

(** [handleScheduled(event, env)]: the periodic maintenance. *)
Definition handleScheduled (srv : Server) : Server :=
  {| memoryCache := Cache.clearMemoryCache (memoryCache srv);
     world := world srv;
     cachePuts := cachePuts srv |}.

End Index.

(* ===================================================================== *)
(** * Properties *)
(* ===================================================================== *)

(** ** Retry loop *)

Section RetryFacts.
Context {W T : Type}.
Variable operation : W -> completion T thrown * W.
Variable options : RetryLogic.RetryOptions.

Import RetryLogic.

(** Each iteration invokes the operation at most once. *)
Lemma retryLoop_invocations_le (n : nat) :
  forall attempt lastError (r : Run W),
    (invocations (snd (retryLoop operation options n attempt lastError r))
     <= invocations r + n)%nat.
Proof.
  induction n as [|n IH]; intros attempt lastError r; simpl.
  - lia.
  - destruct (operation (world r)) as [res w'].
    destruct res as [v|error]; simpl; [lia|].
    destruct (isRetryable options error); simpl; [|lia].
    specialize (IH (attempt + 1) error
      {| world := w'; invocations := S (invocations r);
         delays := delays r ++ [div (backoffDelay options attempt) (of_Z 1000)] |}).
    simpl in IH. lia.
Qed.

(** The operation is never invoked more than [maxRetries] times. *)
Lemma retryWithBackoff_invocations_le (w : W) :
  (invocations (snd (retryWithBackoff operation options w))
   <= Z.to_nat (maxRetries options))%nat.
Proof.
  unfold retryWithBackoff.
  pose proof (retryLoop_invocations_le (Z.to_nat (maxRetries options)) 0
                ThrownUndefined (start w)) as H.
  simpl in H. exact H.
Qed.

(** A value returned by the loop was returned by some invocation. *)
Lemma retryLoop_returns (n : nat) :
  forall attempt lastError (r : Run W) v,
    fst (retryLoop operation options n attempt lastError r) = Return v ->
    exists w, fst (operation w) = Return v.
Proof.
  induction n as [|n IH]; intros attempt lastError r v; simpl.
  - discriminate.
  - destruct (operation (world r)) as [res w'] eqn:Hop.
    destruct res as [v'|error]; simpl.
    + intros [= ->]. exists (world r). now rewrite Hop.
    + destruct (isRetryable options error); simpl.
      * apply IH.
      * discriminate.
Qed.

Lemma retryLoop_delays (n : nat) :
  forall attempt lastError (r : Run W),
    attempt = Z.of_nat (List.length (delays r)) ->
    (forall j d, nth_error (delays r) j = Some d -> d = nthDelay options j) ->
    forall j d,
      nth_error (delays (snd (retryLoop operation options n attempt lastError r))) j
      = Some d ->
      d = nthDelay options j.
Proof.
  induction n as [|n IH]; intros attempt lastError r Hlen Hold; simpl.
  - exact Hold.
  - destruct (operation (world r)) as [res w'].
    destruct res as [v|error]; simpl; [exact Hold|].
    destruct (isRetryable options error); simpl; [|exact Hold].
    apply IH; simpl.
    + rewrite List.length_app. simpl. lia.
    + intros j d Hj.
      destruct (Nat.lt_ge_cases j (List.length (delays r))) as [Hlt|Hge].
      * rewrite nth_error_app1 in Hj by exact Hlt. now apply Hold.
      * rewrite nth_error_app2 in Hj by exact Hge.
        destruct (j - List.length (delays r))%nat as [|k] eqn:Hk; simpl in Hj.
        -- injection Hj as <-. unfold nthDelay.
           replace (Z.of_nat j) with attempt by lia. reflexivity.
        -- destruct k; discriminate.
Qed.

End RetryFacts.

(** The exponential delay of finite, growing options. *)
Lemma backoffDelay_fin (options : RetryLogic.RetryOptions) (i b : Q) (attempt : Z) :
  RetryLogic.initialDelay options = Fin i ->
  RetryLogic.backoffFactor options = Fin b ->
  exists x, RetryLogic.backoffDelay options attempt = Fin x /\ (x == i * b ^ attempt)%Q.
Proof.
  intros Hi Hb. unfold RetryLogic.backoffDelay, pow. rewrite Hi, Hb.
  destruct (Z.eqb_spec attempt 0) as [->|Hne]; simpl.
  - exists (i * 1)%Q. split; [reflexivity|]. reflexivity.
  - exists (i * b ^ attempt)%Q. split; reflexivity.
Qed.

(** With [k] retryable failures ahead and more than [k] iterations left, the
    loop invokes [failingThenOk] exactly [k + 1] more times and returns. *)
Lemma retryLoop_failingThenOk (K : nat) (options : RetryLogic.RetryOptions) :
  RetryLogic.isRetryable options = RetryLogic.isRetryableError ->
  forall (k n : nat) attempt lastError (r : RetryLogic.Run nat),
    (RetryLogic.world r + k = K)%nat -> (k < n)%nat ->
    let out := RetryLogic.retryLoop (Scenarios.failingThenOk K) options n
                 attempt lastError r in
    fst out = Return "ok"%string /\
    RetryLogic.invocations (snd out) = (RetryLogic.invocations r + k + 1)%nat.
Proof.
  intros Hretry k. induction k as [|k IH]; intros n attempt lastError r HK Hn;
    destruct n as [|n]; try lia; simpl.
  - unfold Scenarios.failingThenOk.
    replace (RetryLogic.world r <? K)%nat with false
      by (symmetry; apply Nat.ltb_ge; lia).
    simpl. split; [reflexivity | lia].
  - unfold Scenarios.failingThenOk at 1 2.
    replace (RetryLogic.world r <? K)%nat with true
      by (symmetry; apply Nat.ltb_lt; lia).
    rewrite Hretry. simpl.
    match goal with
    | |- context [RetryLogic.retryLoop _ _ n ?a ?e ?r'] =>
        specialize (IH n a e r')
    end.
    simpl in IH. destruct IH as [IH1 IH2]; [lia | lia |].
    split; [exact IH1 |].
    etransitivity; [exact IH2 | lia].
Qed.

(** With [maxRetries <= 0] the loop body never runs: the operation is not
    invoked and [undefined] is thrown. *)
Lemma retryWithBackoff_no_attempt
      (W T : Type) (operation : W -> completion T thrown * W)
      (options : RetryLogic.RetryOptions) (w : W) :
  RetryLogic.maxRetries options <= 0 ->
  RetryLogic.retryWithBackoff operation options w
  = (Throw ThrownUndefined, RetryLogic.start w).
Proof.
  intros Hle. unfold RetryLogic.retryWithBackoff.
  replace (Z.to_nat (RetryLogic.maxRetries options)) with 0%nat by lia.
  reflexivity.
Qed.

(** An operation that fails retryably [k] times and then succeeds is invoked
    [k + 1] times, and the loop returns its result, as long as
    [k < maxRetries]. *)
Lemma retryWithBackoff_failingThenOk (k : nat) (maxRetries : Z) :
  Z.of_nat k < maxRetries ->
  let out := RetryLogic.retryWithBackoff (Scenarios.failingThenOk k)
               (Scenarios.retryOptionsWith maxRetries) 0%nat in
  fst out = Return "ok"%string /\
  RetryLogic.invocations (snd out) = (k + 1)%nat.
Proof.
  intros Hk. unfold RetryLogic.retryWithBackoff.
  apply (retryLoop_failingThenOk k (Scenarios.retryOptionsWith maxRetries)
           eq_refl k (Z.to_nat maxRetries) 0 ThrownUndefined
           (RetryLogic.start 0%nat)); simpl; lia.
Qed.

(** C1: the loop of [retryWithBackoff] runs [maxRetries] times, one attempt
    short of the [maxRetries + 1] of the claim.  With [maxRetries = 0] an
    operation that would succeed at once is never invoked and [undefined] is
    thrown; with [maxRetries = 3] an operation that fails retryably three
    times and would then succeed is invoked three times, and its last error
    is rethrown; and no run invokes the operation more than [maxRetries]
    times. *)
Theorem retryWithBackoff_one_attempt_short :
  RetryLogic.retryWithBackoff (Scenarios.failingThenOk 0)
    (Scenarios.retryOptionsWith 0) 0%nat
  = (Throw ThrownUndefined, RetryLogic.start 0%nat)
  /\
  (let out := RetryLogic.retryWithBackoff (Scenarios.failingThenOk 3)
                (Scenarios.retryOptionsWith 3) 0%nat in
   fst out = Throw Scenarios.serviceUnavailable /\
   RetryLogic.invocations (snd out) = 3%nat)
  /\
  (forall (W T : Type) (operation : W -> completion T thrown * W) options w,
      (RetryLogic.invocations (snd (RetryLogic.retryWithBackoff operation options w))
       <= Z.to_nat (RetryLogic.maxRetries options))%nat).
Proof.
  split; [reflexivity|].
  split; [split; reflexivity|].
  intros. apply retryWithBackoff_invocations_le.
Qed.

(** ** Backoff delays *)

(** A retryable failure of every attempt under the default retry
    configuration of [query]. *)
Lemma default_run_delays :
  let out := RetryLogic.retryWithBackoff (Scenarios.failingThenOk 10)
               Query.retryOptions 0%nat in
  map (fun d => eqb d (of_Z 1)) (firstn 1 (RetryLogic.delays (snd out))) = [true]
  /\ map (fun d => eqb d (of_Z 2)) (firstn 1 (skipn 1 (RetryLogic.delays (snd out)))) = [true]
  /\ map (fun d => eqb d (of_Z 4)) (skipn 2 (RetryLogic.delays (snd out))) = [true].
Proof. vm_compute. repeat split. Qed.

(** No bound holds for the delays of the default retry configuration: they
    exceed any given number of milliseconds at some attempt index. *)
Lemma backoffDelay_unbounded (bound : Z) :
  exists attempt,
    0 <= attempt /\
    leb (RetryLogic.backoffDelay Query.retryOptions attempt) (of_Z bound) = false.
Proof.
  exists (Z.max 1 bound). split; [lia|].
  set (a := Z.max 1 bound).
  assert (Ha : 1 <= a) by (unfold a; lia).
  unfold RetryLogic.backoffDelay, Query.retryOptions, pow. cbn [RetryLogic.initialDelay
    RetryLogic.backoffFactor Config.cfg_initialDelay Config.cfg_backoffFactor
    Config.DEFAULT_RETRY_CONFIG].
  replace (a =? 0) with false by (symmetry; apply Z.eqb_neq; lia).
  unfold of_Z, mul, leb. apply not_true_iff_false. rewrite Qle_bool_iff.
  rewrite <- Zpower_Qpower by lia. rewrite <- inject_Z_mult, <- Zle_Qle.
  pose proof (Z.pow_gt_lin_r 2 a ltac:(lia) ltac:(lia)). nia.
Qed.

(** C3: the delay is not capped.  Under the default retry configuration
    (initial delay 1000 ms, factor 2, three iterations) an operation that
    fails retryably every time is invoked three times and the loop hands
    1, 2 and 4 seconds to [delayRequest], each of them more than a
    [maxDelay] of 100 ms; the delay after the first failure is 1000 ms,
    not [min(1000, 100)], and the delay after the failure of attempt 2 is
    4000 ms, which with a [maxDelay] of 3000 ms is not
    [min(initialDelay * backoffFactor^attempt, maxDelay)] and exceeds
    [maxDelay]. *)
Theorem backoffDelay_not_capped :
  (let out := RetryLogic.retryWithBackoff (Scenarios.failingThenOk 10)
                Query.retryOptions 0%nat in
   fst out = Throw Scenarios.serviceUnavailable
   /\ RetryLogic.invocations (snd out) = 3%nat
   /\ map (fun d => (eqb d (of_Z 1), eqb d (of_Z 2), eqb d (of_Z 4)))
          (RetryLogic.delays (snd out))
      = [(true, false, false); (false, true, false); (false, false, true)]
   /\ map (fun d => leb (mul d (of_Z 1000)) (of_Z 100)) (RetryLogic.delays (snd out))
      = [false; false; false])
  /\
  (eqb (RetryLogic.backoffDelay Query.retryOptions 0) (of_Z 1000) = true
   /\ eqb (RetryLogic.backoffDelay Query.retryOptions 0)
          (Scenarios.cappedDelay Query.retryOptions (of_Z 100) 0) = false
   /\ leb (RetryLogic.backoffDelay Query.retryOptions 0) (of_Z 100) = false)
  /\
  (eqb (RetryLogic.backoffDelay Query.retryOptions 2) (of_Z 4000) = true
   /\ eqb (RetryLogic.backoffDelay Query.retryOptions 2)
          (Scenarios.cappedDelay Query.retryOptions (of_Z 3000) 2) = false
   /\ leb (RetryLogic.backoffDelay Query.retryOptions 2) (of_Z 3000) = false).
Proof.
  split; [|split].
  - cbv zeta. split; [vm_compute; reflexivity|].
    split; [vm_compute; reflexivity|].
    split; vm_compute; reflexivity.
  - vm_compute. repeat split.
  - vm_compute. repeat split.
Qed.

(** Under a non-negative initial delay and a backoff factor of at least 1
    the delay does not decrease with the attempt index. *)
Lemma backoffDelay_monotone
      (options : RetryLogic.RetryOptions) (i b : Q) (attempt attempt' : Z) :
  RetryLogic.initialDelay options = Fin i ->
  RetryLogic.backoffFactor options = Fin b ->
  (0 <= i)%Q -> (1 <= b)%Q ->
  0 <= attempt <= attempt' ->
  leb (RetryLogic.backoffDelay options attempt)
      (RetryLogic.backoffDelay options attempt') = true.
Proof.
  intros Hi Hb Hi0 Hb1 [H0 Hle].
  destruct (backoffDelay_fin options i b attempt Hi Hb) as [x [-> Hx]].
  destruct (backoffDelay_fin options i b attempt' Hi Hb) as [y [-> Hy]].
  simpl. apply Qle_bool_iff. rewrite Hx, Hy.
  rewrite !(Qmult_comm i).
  apply Qmult_le_compat_r; [|exact Hi0].
  apply Qpower_le_compat_l; assumption.
Qed.

(** ** Request id *)

(** [Math.random()] lies in [0, 1), so the random component lies in
    [0, 999999]. *)
Lemma randomComponent_range (random : Q) :
  (0 <= random)%Q -> (random < 1)%Q ->
  0 <= Query.randomComponent random <= 999999.
Proof.
  intros H0 H1. unfold Query.randomComponent.
  assert (Hlo : (0 <= random * 1000000)%Q).
  { apply Qmult_le_0_compat; [exact H0 | apply Qle_bool_imp_le; reflexivity]. }
  assert (Hhi : (random * 1000000 < 1 * 1000000)%Q).
  { apply Qmult_lt_compat_r; [reflexivity | exact H1]. }
  split.
  - apply Qfloor_resp_le in Hlo. exact Hlo.
  - assert (Hf : (Qfloor (random * 1000000) < 1000000)%Z).
    { apply Z.lt_nge. intros Hge.
      assert (H : (inject_Z 1000000 <= inject_Z (Qfloor (random * 1000000)))%Q)
        by (rewrite <- Zle_Qle; exact Hge).
      pose proof (Qfloor_le (random * 1000000)) as Hfl.
      apply (Qlt_irrefl (random * 1000000)).
      eapply Qlt_le_trans; [exact Hhi|].
      eapply Qle_trans; [exact H | exact Hfl]. }
    lia.
Qed.

(** For a clock at or after the epoch, the request id lies in
    [0, 100999998]: it has at most nine digits, and nothing keeps it from
    having fewer than eight. *)
Lemma requestId_range (timestamp : Z) (random : Q) :
  0 <= timestamp -> (0 <= random)%Q -> (random < 1)%Q ->
  0 <= Query.requestId timestamp random <= 100999998.
Proof.
  intros Ht H0 H1. unfold Query.requestId.
  pose proof (randomComponent_range random H0 H1) as Hr.
  rewrite !Z.rem_mod_nonneg by lia.
  pose proof (Z.mod_pos_bound timestamp 100000000 ltac:(lia)).
  rewrite (Z.mod_small (Query.randomComponent random)) by lia.
  lia.
Qed.

(** C4: at the wall-clock value 1700000000000 (a multiple of 10^8) and the
    random draw 0, the request id placed in the payload is 0, which is not
    in [10000000, 999999999]; the same happens at the draw 0.5 one
    millisecond later, where the id is 500001. *)
Theorem requestId_below_eight_digits :
  Query.rd_id (Query.buildRequestParams 1700000000000 0 "auto" "en") = 0
  /\ Query.rd_id (Query.buildRequestParams 1700000000001 (1 # 2) "auto" "en") = 500001
  /\ Query.rd_id (Query.buildRequestParams 1700000000000 0 "auto" "en") < 10000000
  /\ Query.rd_id (Query.buildRequestParams 1700000000001 (1 # 2) "auto" "en") < 10000000.
Proof. repeat split. Qed.

(** ** Request timestamp *)

Lemma split_go_length (sep : ascii) (s : string) :
  forall piece,
    List.length (Str.split_go sep s piece) = S (Str.occurrences sep s).
Proof.
  induction s as [|c rest IH]; intros piece; simpl.
  - reflexivity.
  - destruct (Ascii.eqb c sep); simpl; rewrite IH; reflexivity.
Qed.

(** [countLetterI] is the number of occurrences of the letter i. *)
Lemma countLetterI_occurrences (translateText : string) :
  Query.countLetterI translateText = Z.of_nat (Str.occurrences "i" translateText).
Proof.
  unfold Query.countLetterI, Str.split. rewrite split_go_length. lia.
Qed.

Lemma occurrences_repeat_char (c : ascii) (n : nat) :
  Str.occurrences c (Str.repeat_char c n) = n.
Proof.
  induction n as [|n IH]; simpl; [reflexivity|].
  rewrite Ascii.eqb_refl, IH. reflexivity.
Qed.

(** [getTimestamp] on a clock that does not exceed the largest value of
    [Date.now()]: of the three tests on the modified timestamp only the
    first can fail. *)
Lemma getTimestamp_spec (raw k : Z) :
  raw <= 8640000000000000 -> 0 <= k ->
  Query.getTimestamp raw k =
    if Z.eqb k 0 || Z.leb 1000 k then raw
    else if 0 <? raw - Z.rem raw (k + 1) + (k + 1)
         then raw - Z.rem raw (k + 1) + (k + 1)
         else raw.
Proof.
  intros Hraw Hk. unfold Query.getTimestamp, Query.MAX_SAFE_INTEGER.
  rewrite Z.max_r by lia.
  destruct (Z.eqb_spec k 0) as [->|Hk0]; simpl; [reflexivity|].
  destruct (Z.leb_spec 1000 k) as [Hbig|Hsmall].
  - replace (k + 1 <=? 0) with false by (symmetry; apply Z.leb_gt; lia).
    replace (1000 <? k + 1) with true by (symmetry; apply Z.ltb_lt; lia).
    reflexivity.
  - replace (k + 1 <=? 0) with false by (symmetry; apply Z.leb_gt; lia).
    replace (1000 <? k + 1) with false by (symmetry; apply Z.ltb_ge; lia).
    simpl.
    assert (Hrem : - (k + 1) < Z.rem raw (k + 1) < k + 1
                   /\ (raw <= 0 -> Z.rem raw (k + 1) <= 0)
                   /\ (0 <= raw -> 0 <= Z.rem raw (k + 1))).
    { destruct (Z.lt_trichotomy raw 0) as [Hneg|[->|Hpos]].
      - pose proof (Z.rem_bound_pos_neg raw (k + 1) ltac:(lia) ltac:(lia)). lia.
      - rewrite Z.rem_0_l by lia. lia.
      - pose proof (Z.rem_bound_pos raw (k + 1) ltac:(lia) ltac:(lia)). lia. }
    replace (raw - Z.rem raw (k + 1) + (k + 1) <=? 9007199254740991) with true
      by (symmetry; apply Z.leb_le; lia).
    replace (raw - 1000 <=? raw - Z.rem raw (k + 1) + (k + 1)) with true
      by (symmetry; apply Z.leb_le; lia).
    rewrite !andb_true_r. reflexivity.
Qed.

(** After the epoch the modified timestamp is positive. *)
Lemma modified_timestamp_positive (raw m : Z) :
  0 < raw -> 0 < m -> 0 < raw - Z.rem raw m + m.
Proof.
  intros Hraw Hm. pose proof (Z.rem_le raw m ltac:(lia) Hm). lia.
Qed.

(** C5, the claim as stated fails: for a text of 1000 letters i and the
    clock value 1700000000000 the payload is built and carries the clock
    value itself, whereas the claim has [raw - (raw mod 1001) + 1001]. *)
Lemma timestamp_unchanged_for_1000_i :
  let text := Str.repeat_char "i" 1000 in
  let raw := 1700000000000 in
  exists body,
    Query.buildRequestBody
      {| Query.now_id := raw; Query.random_id := 1 # 2;
         Query.now_timestamp := raw; Query.payloadSize := 1200 |}
      {| Types.text := text; Types.source_lang := "en"; Types.target_lang := "de" |}
    = Return body
    /\ Query.rd_timestamp (Query.payload body) = raw
    /\ Scenarios.describedTimestamp raw text = raw - raw mod 1001 + 1001
    /\ Query.rd_timestamp (Query.payload body) <> Scenarios.describedTimestamp raw text.
Proof.
  eexists. split; [vm_compute; reflexivity|].
  split; [reflexivity|].
  split; [vm_compute; reflexivity|].
  vm_compute. discriminate.
Qed.

(** C5 as amended: in every payload that [buildRequestBody] builds on a
    clock that does not exceed the largest value of [Date.now()], the
    timestamp is the clock value when the text has no letter i or 1000 and
    more of them, and [raw - (raw % m) + m] with [m] one more than the number
    of letters i otherwise. *)
Theorem payload_timestamp
        (i : Query.BuildInputs) (data : Types.RequestParams) (body : Query.RequestBody)
        (Hraw : Query.now_timestamp i <= 8640000000000000)
        (Hbuilt : Query.buildRequestBody i data = Return body) :
  let raw := Query.now_timestamp i in
  let k := Z.of_nat (Str.occurrences "i" (Types.text data)) in
  Query.rd_timestamp (Query.payload body) =
    if Z.eqb k 0 || Z.leb 1000 k then raw
    else raw - Z.rem raw (k + 1) + (k + 1).
Proof.
  intros raw k. unfold Query.buildRequestBody in Hbuilt.
  destruct (negb (Str.truthy (Types.text data))); [discriminate|].
  destruct (Config.MAX_TEXT_LENGTH <? Z.of_nat (String.length (Types.text data)));
    [discriminate|].
  destruct (Query.getTimestamp (Query.now_timestamp i)
              (Query.countLetterI (Types.text data)) <=? 0) eqn:Hpos; [discriminate|].
  destruct (Config.MAX_REQUEST_SIZE <? Query.payloadSize i); [discriminate|].
  injection Hbuilt as <-. simpl.
  apply Z.leb_gt in Hpos. rewrite countLetterI_occurrences in *.
  fold raw k in Hpos |- *.
  rewrite (getTimestamp_spec raw k Hraw ltac:(lia)) in *.
  destruct (Z.eqb k 0 || Z.leb 1000 k) eqn:Hk; [reflexivity|].
  destruct (Z.ltb_spec 0 (raw - Z.rem raw (k + 1) + (k + 1))) as [_|Hle];
    [reflexivity|].
  pose proof (modified_timestamp_positive raw (k + 1) Hpos ltac:(lia)). lia.
Qed.

Lemma payload_timestamp_witness :
  exists body,
    Query.buildRequestBody
      {| Query.now_id := 1700000000123; Query.random_id := 1 # 2;
         Query.now_timestamp := 1700000000123; Query.payloadSize := 200 |}
      {| Types.text := "mississippi"; Types.source_lang := "en"; Types.target_lang := "de" |}
    = Return body
    /\ Query.rd_timestamp (Query.payload body) = 1700000000125.
Proof.
  eexists. split; [vm_compute; reflexivity|].
  apply (payload_timestamp
           {| Query.now_id := 1700000000123; Query.random_id := 1 # 2;
              Query.now_timestamp := 1700000000123; Query.payloadSize := 200 |}
           {| Types.text := "mississippi"; Types.source_lang := "en";
              Types.target_lang := "de" |}).
  - simpl. lia.
  - vm_compute. reflexivity.
Defined.

(** ** Circuit breaker *)

Section BreakerFacts.
Import CircuitBreakerM.

Lemma tripped_initial : tripped initial.
Proof. intros H. now contradiction H. Qed.

Lemma tripped_enter now s s' : tripped s -> enter now s = Return s' -> tripped s'.
Proof.
  unfold enter, tripped. intros Hs.
  destruct (state s) eqn:Hst.
  - intros [= <-]. rewrite Hst. exact Hs.
  - destruct (RECOVERY_TIMEOUT <? now - lastFailureTime s); [|discriminate].
    intros [= <-]. simpl. intros _. apply Hs. discriminate.
  - intros [= <-]. rewrite Hst. exact Hs.
Qed.

Lemma tripped_onSuccess s : tripped s -> tripped (onSuccess s).
Proof.
  unfold onSuccess, tripped. intros Hs.
  destruct (state s) eqn:Hst.
  - simpl. intros H. now contradiction H.
  - rewrite Hst. exact Hs.
  - destruct (SUCCESS_THRESHOLD <=? successCount s + 1); simpl.
    + intros H. now contradiction H.
    + intros _. apply Hs. discriminate.
Qed.

Lemma tripped_onFailure now s : tripped s -> tripped (onFailure now s).
Proof.
  unfold onFailure, tripped. simpl. intros Hs.
  destruct (Z.leb_spec FAILURE_THRESHOLD (failureCount s + 1)) as [Hle|Hlt].
  - intros _. exact Hle.
  - intros Hne. specialize (Hs Hne). lia.
Qed.

Lemma reachable_tripped s : reachable s -> tripped s.
Proof.
  induction 1 as [|s s' _ IH Hstep].
  - exact tripped_initial.
  - destruct Hstep as [now s s' Henter | s | now s].
    + exact (tripped_enter now s s' IH Henter).
    + exact (tripped_onSuccess s IH).
    + exact (tripped_onFailure now s IH).
Qed.

(** A run of [execute] is made of steps. *)
Lemma execute_reachable {W T : Type} (operation : W -> completion T thrown * W)
      now now' s w :
  reachable s -> reachable (snd (fst (execute operation now now' s w))).
Proof.
  intros Hs. unfold execute.
  destruct (enter now s) as [s1|e] eqn:Henter; simpl; [|exact Hs].
  assert (Hs1 : reachable s1) by (eapply reachable_step; [exact Hs | econstructor; exact Henter]).
  destruct (operation w) as [res w']. destruct res as [v|e]; simpl.
  - eapply reachable_step; [exact Hs1 | constructor].
  - eapply reachable_step; [exact Hs1 | constructor].
Qed.

(** The threshold of five consecutive failures is reachable, and so is
    the half-open state after the recovery period. *)
Lemma half_open_reachable :
  reachable {| state := HALF_OPEN; failureCount := 5;
               lastFailureTime := 1000; successCount := 0 |}.
Proof.
  apply (reachable_step
           (onFailure 1000 (onFailure 900 (onFailure 800
              (onFailure 700 (onFailure 600 initial)))))).
  - do 5 (eapply reachable_step; [|apply step_failure]).
    apply reachable_initial.
  - apply (step_enter 40000). reflexivity.
Qed.

End BreakerFacts.

(** C6: in every reachable state of a breaker that is [HALF_OPEN], one
    failure leads to [OPEN]: [onFailure] does, and so does an [execute]
    whose operation throws. *)
Theorem half_open_failure_opens
        (s : CircuitBreakerM.CircuitBreakerState)
        (Hreach : CircuitBreakerM.reachable s)
        (Hhalf : CircuitBreakerM.state s = CircuitBreakerM.HALF_OPEN) :
  (forall now,
      CircuitBreakerM.state (CircuitBreakerM.onFailure now s) = CircuitBreakerM.OPEN)
  /\
  (forall (W T : Type) (operation : W -> completion T thrown * W) now now' w e,
      fst (operation w) = Throw e ->
      let out := CircuitBreakerM.execute operation now now' s w in
      fst (fst out) = Throw e /\
      CircuitBreakerM.state (snd (fst out)) = CircuitBreakerM.OPEN).
Proof.
  assert (Hfail : forall now,
             CircuitBreakerM.state (CircuitBreakerM.onFailure now s)
             = CircuitBreakerM.OPEN).
  { intros now. unfold CircuitBreakerM.onFailure. simpl.
    pose proof (reachable_tripped s Hreach) as Ht. unfold CircuitBreakerM.tripped in Ht.
    rewrite Hhalf in Ht. specialize (Ht ltac:(discriminate)).
    replace (CircuitBreakerM.FAILURE_THRESHOLD <=? CircuitBreakerM.failureCount s + 1)
      with true by (symmetry; apply Z.leb_le; lia).
    reflexivity. }
  split; [exact Hfail|].
  intros W T operation now now' w e Hop. unfold CircuitBreakerM.execute,
    CircuitBreakerM.enter. rewrite Hhalf.
  destruct (operation w) as [res w']. simpl in Hop. subst res. simpl.
  split; [reflexivity | exact (Hfail now')].
Qed.

Lemma half_open_failure_opens_witness :
  CircuitBreakerM.state
    (CircuitBreakerM.onFailure 41000
       {| CircuitBreakerM.state := CircuitBreakerM.HALF_OPEN;
          CircuitBreakerM.failureCount := 5;
          CircuitBreakerM.lastFailureTime := 1000;
          CircuitBreakerM.successCount := 0 |})
  = CircuitBreakerM.OPEN.
Proof.
  exact (proj1 (half_open_failure_opens _ half_open_reachable eq_refl) 41000).
Defined.

(** ** The breaker and the query path *)

Section RetrySimulation.
Context {W T : Type}.
Variable operation : W -> completion T thrown * W.
Variable options : RetryLogic.RetryOptions.
Variable f : W -> W.
Hypothesis operation_f :
  forall w, operation (f w) = (fst (operation w), f (snd (operation w))).

Import RetryLogic.

(** An operation that commutes with a change of state runs through the
    loop in the same way on the changed state. *)
Lemma retryLoop_mapWorld (n : nat) :
  forall attempt lastError (r : Run W),
    retryLoop operation options n attempt lastError (mapWorld f r)
    = (fst (retryLoop operation options n attempt lastError r),
       mapWorld f (snd (retryLoop operation options n attempt lastError r))).
Proof.
  induction n as [|n IH]; intros attempt lastError r; simpl.
  - reflexivity.
  - rewrite operation_f. destruct (operation (world r)) as [res w']. simpl.
    destruct res as [v|error]; simpl; [reflexivity|].
    destruct (isRetryable options error); simpl; [|reflexivity].
    exact (IH (attempt + 1) error
             {| world := w'; invocations := S (invocations r);
                delays := delays r ++ [div (backoffDelay options attempt) (of_Z 1000)] |}).
Qed.

Lemma retryWithBackoff_mapWorld (w : W) :
  retryWithBackoff operation options (f w)
  = (fst (retryWithBackoff operation options w),
     mapWorld f (snd (retryWithBackoff operation options w))).
Proof. exact (retryLoop_mapWorld _ 0 ThrownUndefined (start w)). Qed.

End RetrySimulation.

(** An attempt neither reads nor writes the breaker registry. *)
Lemma attempt_withBreakers params config inputs breakers (w : Query.World) :
  Query.attempt params config inputs (Query.withBreakers breakers w)
  = (fst (Query.attempt params config inputs w),
     Query.withBreakers breakers (snd (Query.attempt params config inputs w))).
Proof.
  unfold Query.attempt, Query.withBreakers. cbn [Query.attemptsStarted
    Query.rateLimitCache Query.circuitBreakers Query.transportCalls Query.kvPuts].
  destruct (Query.config_env config) as [e|].
  - destruct (RateLimit.checkCombinedRateLimit _ _ _ _ _) as [[res cache'] puts].
    destruct (negb (RateLimit.allowed res)); cbn; [reflexivity|].
    destruct (Query.buildRequestBody _ _) as [b|err]; cbn.
    + destruct (Query.fetchOutcome _) as [|err|resp]; cbn; [reflexivity| |].
      * destruct (String.eqb _ _); reflexivity.
      * destruct (negb (Query.ok resp)); cbn; [reflexivity|].
        destruct (Query.body resp) as [| |? ?| |? [l|] ?]; reflexivity.
    + destruct err as [|err]; [reflexivity|]. destruct (String.eqb _ _); reflexivity.
  - cbn.
    destruct (Query.buildRequestBody _ _) as [b|err]; cbn.
    + destruct (Query.fetchOutcome _) as [|err|resp]; cbn; [reflexivity| |].
      * destruct (String.eqb _ _); reflexivity.
      * destruct (negb (Query.ok resp)); cbn; [reflexivity|].
        destruct (Query.body resp) as [| |? ?| |? [l|] ?]; reflexivity.
    + destruct err as [|err]; [reflexivity|]. destruct (String.eqb _ _); reflexivity.
Qed.

(** [query] neither reads nor writes the breaker registry. *)
Lemma query_withBreakers params config inputs final breakers (w : Query.World) :
  Query.query params config inputs final (Query.withBreakers breakers w)
  = (fst (Query.query params config inputs final w),
     Query.withBreakers breakers (snd (Query.query params config inputs final w))).
Proof.
  unfold Query.query.
  destruct params as [p|]; [|reflexivity].
  destruct (negb (Str.truthy (Types.text p))); [reflexivity|].
  rewrite (retryWithBackoff_mapWorld (Query.attempt p config inputs) Query.retryOptions
             (Query.withBreakers breakers)
             (attempt_withBreakers p config inputs breakers) w).
  destruct (RetryLogic.retryWithBackoff _ _ w) as [res run]. cbn.
  destruct res as [r|error]; reflexivity.
Qed.

(** C2: [query] does not go through the circuit breaker.  123 ms after
    the breaker registered for the direct upstream tripped, when the gate
    of [CircuitBreaker.execute] rejects with the circuit-open error,
    [query] makes one transport call to that upstream and returns the
    translation with the code 200. *)
Lemma query_calls_transport_behind_open_breaker :
  let w := Scenarios.worldTrippedAt 1700000000000 in
  let out := Query.query (Some Scenarios.hello) None
               (fun _ => Scenarios.attemptAt 1700000000123 Scenarios.translated)
               Scenarios.finalInputs w in
  Query.circuitBreakers w !! Query.API_URL = Some (Scenarios.trippedAt 1700000000000)
  /\ CircuitBreakerM.enter 1700000000123 (Scenarios.trippedAt 1700000000000)
     = Throw (ThrownError CircuitBreakerM.circuitOpenError)
  /\ map Query.call_endpoint (Query.transportCalls (snd out)) = [Query.API_URL]
  /\ fst out = Return {| Types.code := of_Z 200;
                         Types.data := Some "Hallo"%string;
                         Types.id := of_Z 12345;
                         Types.r_source_lang := Some "EN"%string;
                         Types.r_target_lang := Some "DE"%string |}.
Proof.
  cbv zeta. split; [vm_compute; reflexivity|].
  split; [reflexivity|].
  split; vm_compute; reflexivity.
Qed.

(** The breaker itself does what its module describes: [execute] on a
    breaker that is [OPEN] with no more than [RECOVERY_TIMEOUT] elapsed
    since the last failure rejects with the circuit-open error, which is
    not retryable, leaving the operation uninvoked and the breaker
    unchanged. *)
Lemma execute_rejects_while_open
      (s : CircuitBreakerM.CircuitBreakerState) (now : Z)
      (W T : Type) (operation : W -> completion T thrown * W) (now' : Z) (w : W) :
  CircuitBreakerM.state s = CircuitBreakerM.OPEN ->
  now - CircuitBreakerM.lastFailureTime s <= CircuitBreakerM.RECOVERY_TIMEOUT ->
  CircuitBreakerM.execute operation now now' s w
  = (Throw (ThrownError CircuitBreakerM.circuitOpenError), s, w)
  /\ RetryLogic.isRetryableError (ThrownError CircuitBreakerM.circuitOpenError) = false.
Proof.
  intros Hopen Hrecent. split; [|reflexivity].
  unfold CircuitBreakerM.execute, CircuitBreakerM.enter. rewrite Hopen.
  replace (CircuitBreakerM.RECOVERY_TIMEOUT <? now - CircuitBreakerM.lastFailureTime s)
    with false by (symmetry; apply Z.ltb_ge; lia).
  reflexivity.
Qed.

(** ** The standard response *)

(** What [createStandardResponse] returns when it returns: the code is the
    one passed in, the id is a number, and apart from the code 200 the
    remaining fields are null. *)
Lemma createStandardResponse_returns random c data id sl tl r :
  Types.createStandardResponse random c data id sl tl = Return r ->
  Types.code r = c
  /\ (exists q, Types.id r = Fin q)
  /\ (eqb c (of_Z 200) = false ->
      Types.data r = None /\ Types.r_source_lang r = None /\ Types.r_target_lang r = None).
Proof.
  unfold Types.createStandardResponse.
  set (fallback := floor (mul (Fin random) (of_Z 10000000000))).
  assert (Hid : exists q,
             match id with
             | Some n => if truthy n then n else fallback
             | None => fallback
             end = Fin q).
  { destruct id as [[q|]|]; simpl.
    - destruct (negb (Qeq_bool q 0)); eexists; reflexivity.
    - eexists; reflexivity.
    - eexists; reflexivity. }
  destruct (eqb c (of_Z 200)) eqn:Hc; simpl.
  - destruct (Types.upperOr sl "AUTO") as [src|e]; [|discriminate].
    destruct (Types.upperOr tl "EN") as [tgt|e]; [|discriminate].
    intros [= <-]. simpl. split; [reflexivity|]. split; [exact Hid|]. discriminate.
  - intros [= <-]. simpl. split; [reflexivity|]. split; [exact Hid|].
    intros _. repeat split.
Qed.

(** For a code other than 200 [createStandardResponse] always returns. *)
Lemma createStandardResponse_non200 random c data id sl tl :
  eqb c (of_Z 200) = false ->
  exists r, Types.createStandardResponse random c data id sl tl = Return r.
Proof.
  intros Hc. unfold Types.createStandardResponse. rewrite Hc. simpl.
  eexists. reflexivity.
Qed.

(** A result returned by an attempt carries the code 200. *)
Lemma attempt_returns params config inputs w r :
  fst (Query.attempt params config inputs w) = Return r ->
  Types.code r = of_Z 200 /\ exists q, Types.id r = Fin q.
Proof.
  unfold Query.attempt.
  destruct (Query.config_env config) as [e|].
  - destruct (RateLimit.checkCombinedRateLimit _ _ _ _ _) as [[res cache'] puts].
    destruct (negb (RateLimit.allowed res)); cbn; [discriminate|].
    destruct (Query.buildRequestBody _ _) as [b|err]; cbn.
    + destruct (Query.fetchOutcome _) as [|err|resp]; cbn; [discriminate| |].
      * destruct (String.eqb _ _); discriminate.
      * destruct (negb (Query.ok resp)); cbn; [discriminate|].
        destruct (Query.body resp) as [| |? ?| |? [l|] ?]; cbn; try discriminate.
        intros H. apply createStandardResponse_returns in H. tauto.
    + destruct err as [|err]; [discriminate|]. destruct (String.eqb _ _); discriminate.
  - cbn.
    destruct (Query.buildRequestBody _ _) as [b|err]; cbn.
    + destruct (Query.fetchOutcome _) as [|err|resp]; cbn; [discriminate| |].
      * destruct (String.eqb _ _); discriminate.
      * destruct (negb (Query.ok resp)); cbn; [discriminate|].
        destruct (Query.body resp) as [| |? ?| |? [l|] ?]; cbn; try discriminate.
        intros H. apply createStandardResponse_returns in H. tauto.
    + destruct err as [|err]; [discriminate|]. destruct (String.eqb _ _); discriminate.
Qed.

(** Every result of [query] was produced by [createStandardResponse], or by
    an attempt with the code 200. *)
Lemma query_returns params config inputs final w r :
  fst (Query.query params config inputs final w) = Return r ->
  (exists q, Types.id r = Fin q)
  /\ (eqb (Types.code r) (of_Z 200) = false ->
      Types.data r = None /\ Types.r_source_lang r = None /\ Types.r_target_lang r = None).
Proof.
  unfold Query.query.
  destruct params as [p|].
  - destruct (negb (Str.truthy (Types.text p))).
    + cbn [fst]. intros H. apply createStandardResponse_returns in H.
      destruct H as [Hc [Hid Hnull]]. rewrite Hc. tauto.
    + destruct (RetryLogic.retryWithBackoff _ _ w) as [res run] eqn:Hrun.
      destruct res as [r'|error]; cbn [fst].
      * intros [= ->].
        assert (Hret : fst (RetryLogic.retryWithBackoff (Query.attempt p config inputs)
                              Query.retryOptions w) = Return r)
          by (rewrite Hrun; reflexivity).
        unfold RetryLogic.retryWithBackoff in Hret.
        apply retryLoop_returns in Hret. destruct Hret as [w0 Hw0].
        apply attempt_returns in Hw0. destruct Hw0 as [Hcode Hid].
        rewrite Hcode. split; [exact Hid | discriminate].
      * intros H. apply createStandardResponse_returns in H.
        destruct H as [Hc [Hid Hnull]]. rewrite Hc. tauto.
  - cbn [fst]. intros H. apply createStandardResponse_returns in H.
    destruct H as [Hc [Hid Hnull]]. rewrite Hc. tauto.
Qed.

(** C7: for a code other than 200, [createStandardResponse] returns the code
    with a numeric id and with [data], [source_lang] and [target_lang] all
    null; and every result of [query] with that code has a numeric id and
    those three fields null. *)
Theorem non200_response_is_null
        (c : number) (Hc : eqb c (of_Z 200) = false) :
  (forall random data id source_lang target_lang,
      exists q,
        Types.createStandardResponse random c data id source_lang target_lang
        = Return {| Types.code := c;
                    Types.data := None;
                    Types.id := Fin q;
                    Types.r_source_lang := None;
                    Types.r_target_lang := None |})
  /\
  (forall params config inputs final w r,
      fst (Query.query params config inputs final w) = Return r ->
      Types.code r = c ->
      Types.data r = None /\ Types.r_source_lang r = None /\ Types.r_target_lang r = None
      /\ exists q, Types.id r = Fin q).
Proof.
  split.
  - intros random data id sl tl.
    destruct (createStandardResponse_non200 random c data id sl tl Hc) as [r Hr].
    pose proof (createStandardResponse_returns _ _ _ _ _ _ _ Hr) as [Hcode [[q Hid] Hnull]].
    destruct (Hnull Hc) as [Hd [Hs Ht]].
    exists q. rewrite Hr. destruct r; simpl in *. subst. reflexivity.
  - intros params config inputs final w r Hr Hcode.
    destruct (query_returns _ _ _ _ _ _ Hr) as [Hid Hnull].
    rewrite Hcode in Hnull. destruct (Hnull Hc) as [Hd [Hs Ht]]. tauto.
Qed.

Lemma non200_response_is_null_witness :
  exists q,
    Types.createStandardResponse (1 # 2) (of_Z 429) (Some "x"%string) None
      (Some (Types.LangStr "en")) (Some (Types.LangStr "de"))
    = Return {| Types.code := of_Z 429;
                Types.data := None;
                Types.id := Fin q;
                Types.r_source_lang := None;
                Types.r_target_lang := None |}.
Proof.
  apply (proj1 (non200_response_is_null (of_Z 429) eq_refl)).
Defined.

(** ** The translation cache *)

(** Freshness of an entry with a numeric timestamp, in plain arithmetic. *)
Lemma fresh_iff (now t : Z) (e : Cache.CacheEntry) :
  Cache.timestamp e = of_Z t ->
  Cache.fresh now e = true <-> now - t < Cache.CACHE_TTL * 1000.
Proof.
  intros Ht. unfold Cache.fresh. rewrite Ht. unfold ltb, sub, of_Z.
  rewrite andb_true_iff, negb_true_iff, Qle_bool_iff.
  rewrite <- not_true_iff_false, Qeq_bool_iff.
  unfold Qminus. rewrite <- inject_Z_opp, <- inject_Z_plus.
  rewrite <- Zle_Qle, inject_Z_injective. lia.
Qed.

(** C9: a read returns an entry only if the entry is stored for the key, in
    the in-memory tier or in the durable one, and is younger than the TTL at
    the clock read for its tier; and when no stored entry is younger than
    the TTL the read returns nothing and leaves the in-memory tier as it was,
    which is also the result of the read when nothing is stored. *)
Theorem cache_read_fresh_or_absent
        (key : string) (now1 now2 : Z) (kv : Cache.KvGet)
        (memoryCache : gmap string Cache.CacheEntry) :
  (forall entry,
      fst (Cache.getCachedTranslation key now1 now2 kv memoryCache) = Some entry ->
      (memoryCache !! key = Some entry /\ Cache.fresh now1 entry = true)
      \/ (kv = Cache.KvGetEntry entry /\ Cache.fresh now2 entry = true))
  /\
  ((forall entry, memoryCache !! key = Some entry -> Cache.fresh now1 entry = false) ->
   (forall entry, kv = Cache.KvGetEntry entry -> Cache.fresh now2 entry = false) ->
   Cache.getCachedTranslation key now1 now2 kv memoryCache = (None, memoryCache)
   /\ fst (Cache.getCachedTranslation key now1 now2 Cache.KvGetNull (delete key memoryCache))
      = None).
Proof.
  unfold Cache.getCachedTranslation. split.
  - intros entry.
    destruct (memoryCache !! key) as [m|] eqn:Hm.
    + destruct (Cache.fresh now1 m) eqn:Hf; simpl.
      * intros [= <-]. left. split; [reflexivity | exact Hf].
      * destruct kv as [| |k]; simpl; try discriminate.
        destruct (Cache.fresh now2 k) eqn:Hk; simpl; [|discriminate].
        intros [= <-]. right. split; [reflexivity | exact Hk].
    + destruct kv as [| |k]; simpl; try discriminate.
      destruct (Cache.fresh now2 k) eqn:Hk; simpl; [|discriminate].
      intros [= <-]. right. split; [reflexivity | exact Hk].
  - intros Hmem Hkv. rewrite lookup_delete_eq. split; [|reflexivity].
    assert (Hfrom : match kv with
                    | Cache.KvGetEntry kvResult =>
                        if Cache.fresh now2 kvResult
                        then (Some kvResult, <[key:=kvResult]> memoryCache)
                        else (None, memoryCache)
                    | _ => (None, memoryCache)
                    end = (None, memoryCache)).
    { destruct kv as [| |k]; try reflexivity. now rewrite (Hkv k eq_refl). }
    rewrite Hfrom.
    destruct (memoryCache !! key) as [m|]; [|reflexivity].
    now rewrite (Hmem m eq_refl).
Qed.

(** An entry that is exactly one hour old is not returned; one millisecond
    earlier it still is. *)
Lemma cache_read_fresh_or_absent_witness :
  let entry := {| Cache.data := "Hallo"; Cache.timestamp := of_Z 1000;
                  Cache.source_lang := "EN"; Cache.target_lang := "DE";
                  Cache.id := Some (of_Z 7) |} in
  Cache.getCachedTranslation "k" 3601000 3601000 (Cache.KvGetEntry entry)
    {[ "k"%string := entry ]}
  = (None, {[ "k"%string := entry ]}).
Proof.
  cbv zeta.
  apply (proj2 (cache_read_fresh_or_absent "k" 3601000 3601000 _ _)).
  - intros e He. rewrite lookup_singleton_eq in He. injection He as <-. reflexivity.
  - intros e [= <-]. reflexivity.
Defined.

Lemma cache_read_one_millisecond_earlier :
  let entry := {| Cache.data := "Hallo"; Cache.timestamp := of_Z 1000;
                  Cache.source_lang := "EN"; Cache.target_lang := "DE";
                  Cache.id := Some (of_Z 7) |} in
  fst (Cache.getCachedTranslation "k" 3600999 3600999 Cache.KvGetNull
         {[ "k"%string := entry ]})
  = Some entry.
Proof. vm_compute. reflexivity. Qed.

(** ** Status codes and the totality of [query] *)

(** [sanitizeStatusCode] yields an integer from 200 to 599. *)
Lemma sanitizeStatusCode_valid (v : value) :
  ErrorHandler.isValidHttpStatusCode (Num (ErrorHandler.sanitizeStatusCode v)) = true.
Proof.
  unfold ErrorHandler.sanitizeStatusCode.
  destruct (ErrorHandler.isValidHttpStatusCode (Num (toNumber v))) eqn:Hv.
  - exact Hv.
  - reflexivity.
Qed.

(** Anything that is not an integer from 200 to 599 becomes 500. *)
Lemma sanitizeStatusCode_invalid (v : value) :
  ErrorHandler.isValidHttpStatusCode v = false ->
  ErrorHandler.sanitizeStatusCode v = of_Z 500.
Proof.
  unfold ErrorHandler.sanitizeStatusCode, ErrorHandler.isValidHttpStatusCode.
  simpl. intros ->. reflexivity.
Qed.

Lemma httpStatus_valid (random : Q) (error : thrown) :
  ErrorHandler.isValidHttpStatusCode
    (Num (ErrorHandler.httpStatus (ErrorHandler.createErrorResponse random error))) = true.
Proof.
  unfold ErrorHandler.createErrorResponse. simpl.
  destruct (value_truthy (ErrorHandler.status_of error));
    [apply sanitizeStatusCode_valid|].
  destruct (value_truthy (ErrorHandler.code_of error));
    [apply sanitizeStatusCode_valid | reflexivity].
Qed.

(** Whenever [query] returns, the code of the result is an integer from 200
    to 599. *)
Lemma query_code_range params config inputs final w r :
  fst (Query.query params config inputs final w) = Return r ->
  ErrorHandler.isValidHttpStatusCode (Num (Types.code r)) = true.
Proof.
  unfold Query.query.
  destruct params as [p|].
  - destruct (negb (Str.truthy (Types.text p))).
    + cbn [fst]. intros H. apply createStandardResponse_returns in H.
      destruct H as [-> _]. reflexivity.
    + destruct (RetryLogic.retryWithBackoff _ _ w) as [res run] eqn:Hrun.
      destruct res as [r'|error]; cbn [fst].
      * intros [= ->].
        assert (Hret : fst (RetryLogic.retryWithBackoff (Query.attempt p config inputs)
                              Query.retryOptions w) = Return r)
          by (rewrite Hrun; reflexivity).
        unfold RetryLogic.retryWithBackoff in Hret.
        apply retryLoop_returns in Hret. destruct Hret as [w0 Hw0].
        apply attempt_returns in Hw0. destruct Hw0 as [-> _]. reflexivity.
      * intros H. apply createStandardResponse_returns in H.
        destruct H as [-> _]. apply httpStatus_valid.
  - cbn [fst]. intros H. apply createStandardResponse_returns in H.
    destruct H as [-> _]. reflexivity.
Qed.

(** [query] returns whenever both language tags normalise to strings. *)
Lemma query_returns_on_string_tags params config inputs final w :
  (forall p, params = Some p ->
             exists s t,
               Query.normalizeLanguageCode (Query.orElse (Types.source_lang p) "auto")
               = Types.LangStr s
               /\ Query.normalizeLanguageCode (Query.orElse (Types.target_lang p) "en")
                  = Types.LangStr t) ->
  exists r, fst (Query.query params config inputs final w) = Return r.
Proof.
  intros Htags. unfold Query.query.
  destruct params as [p|].
  - destruct (Htags p eq_refl) as [s [t [Hs Ht]]]. rewrite Hs, Ht.
    assert (Hany : forall c, exists r,
               Types.createStandardResponse (Query.random_final final) c None None
                 (Some (Types.LangStr s)) (Some (Types.LangStr t)) = Return r).
    { intros c. unfold Types.createStandardResponse. simpl.
      destruct (negb (eqb c (of_Z 200))); eexists; reflexivity. }
    destruct (negb (Str.truthy (Types.text p))); [apply Hany|].
    destruct (RetryLogic.retryWithBackoff _ _ w) as [res run].
    destruct res as [r|error]; cbn [fst]; [eexists; reflexivity | apply Hany].
  - cbn [fst]. apply createStandardResponse_non200. reflexivity.
Qed.

(** The upstream protocol code 1156049 is reported as 500. *)
Lemma query_maps_protocol_code_to_500 :
  fst (Query.query (Some Scenarios.hello) None
         (fun _ => Scenarios.attemptAt 1700000000123 (Scenarios.upstreamError 1156049))
         Scenarios.finalInputs Scenarios.emptyWorld)
  = Return {| Types.code := of_Z 500;
              Types.data := None;
              Types.id := of_Z 7500000000;
              Types.r_source_lang := None;
              Types.r_target_lang := None |}.
Proof. vm_compute. reflexivity. Qed.

(** C10: [query] does not return for every input.  For the source language
    tag "constructor" the lookup in [languageMap] finds the member inherited
    from [Object.prototype], so [normalizeLanguageCode] yields an object that
    is not a string; when the upstream then answers with the error shape
    carrying the code 200, the catch block of [query] maps the error to the
    status 200 and [createStandardResponse] calls [toUpperCase] on that
    object: the [TypeError] leaves [query].  The upstream was called once. *)
Theorem query_propagates_type_error :
  let out := Query.query
               (Some {| Types.text := "hi"; Types.source_lang := "constructor";
                        Types.target_lang := "en" |})
               None
               (fun _ => Scenarios.attemptAt 1700000000123 (Scenarios.upstreamError 200))
               Scenarios.finalInputs Scenarios.emptyWorld in
  fst out = Throw (ThrownError Types.toUpperCaseError)
  /\ List.length (Query.transportCalls (snd out)) = 1%nat.
Proof. vm_compute. split; reflexivity. Qed.

(** ** Token buckets *)

(** The limits computed for the client dimension: the length read off the
    promise is [undefined], neither equal to 0 nor a number. *)
Lemma getDynamicRateLimits_NaN (env : ProxyManager.Env) :
  RateLimit.getDynamicRateLimits env
  = {| Config.TOKENS_PER_MINUTE := NaN; Config.REFILL_RATE := NaN |}.
Proof. reflexivity. Qed.

(** A bucket whose capacity is [NaN] admits every check. *)
Lemma tokenBucket_NaN key refillRate now kv cache :
  fst (fst (RateLimit.tokenBucket key NaN refillRate now kv cache)) = true.
Proof.
  unfold RateLimit.tokenBucket.
  assert (Hrefill : forall t l, RateLimit.refill NaN refillRate now t l = NaN)
    by reflexivity.
  assert (Hkv : match RateLimit.kv_get kv with
                | RateLimit.KvGetEntry existing =>
                    RateLimit.refill NaN refillRate now
                      (RateLimit.tokens existing) (RateLimit.lastRefill existing)
                | _ => NaN
                end = NaN)
    by (destruct (RateLimit.kv_get kv); reflexivity).
  rewrite Hkv.
  destruct (cache !! key) as [cached|].
  - destruct (now - RateLimit.c_lastUpdate cached <? RateLimit.CACHE_TTL); simpl;
      destruct (RateLimit.kv_put_throws kv); reflexivity.
  - simpl. destruct (RateLimit.kv_put_throws kv); reflexivity.
Qed.

Lemma repeatedChecks_all_allowed check :
  (forall cache, fst (fst (check cache)) = true) ->
  forall n cache, fst (Scenarios.repeatedChecks check n cache) = repeat true n.
Proof.
  intros Hcheck n. induction n as [|n IH]; intros cache; simpl; [reflexivity|].
  specialize (Hcheck cache). destruct (check cache) as [[allowed cache'] puts].
  simpl in Hcheck. subst allowed.
  specialize (IH cache'). destruct (Scenarios.repeatedChecks check n cache') as [rest c].
  simpl in *. now rewrite IH.
Qed.

(** The bucket of a proxy, whose capacity is the constant 16 refilled at 8
    tokens per second: from the full bucket 16 checks at one instant are
    admitted and the 17th is denied, leaving 0 tokens; 125 ms later, one
    token has been refilled and a check is admitted. *)
Lemma proxy_bucket_sixteen_then_denied :
  let check := RateLimit.checkProxyRateLimit "https://proxy.example" in
  let key := "proxy_rate_limit:https://proxy.example"%string in
  let after16 := Scenarios.repeatedChecks (check 1000 Scenarios.kvEmpty) 16 ∅ in
  let after17 := Scenarios.repeatedChecks (check 1000 Scenarios.kvEmpty) 17 ∅ in
  fst after17 = repeat true 16 ++ [false]
  /\ option_map (fun c => eqb (RateLimit.c_tokens c) (of_Z 0)) (snd after16 !! key)
     = Some true
  /\ option_map (fun c => eqb (RateLimit.c_tokens c) (of_Z 0)) (snd after17 !! key)
     = Some true
  /\ fst (fst (check 1124 Scenarios.kvEmpty (snd after17))) = false
  /\ fst (fst (check 1125 Scenarios.kvEmpty (snd after17))) = true.
Proof. vm_compute. repeat split. Qed.


(** *** The bucket with a finite capacity *)

Section FiniteBucket.
Import RateLimit.

Variable key : string.
Variable N : Z.
Variable rate : Q.
Variable now : Z.
Hypothesis N_pos : 1 <= N.

(** The tokens refilled after [ms] milliseconds at [rate] per second. *)
Lemma refill_value (ms : Z) (q : Q) (now' : Z) :
  now' - now = ms ->
  exists q',
    refill (of_Z N) (Fin rate) now' (Fin q) (of_Z now) = Fin q'
    /\ ((q + inject_Z ms / 1000 * rate <= inject_Z N)%Q ->
        (q' == q + inject_Z ms / 1000 * rate)%Q)
    /\ ((inject_Z N <= q + inject_Z ms / 1000 * rate)%Q -> (q' == inject_Z N)%Q).
Proof.
  intros Hms. unfold refill, of_Z, sub, div, mul, add, min.
  change (Qeq_bool (inject_Z 1000) 0) with false. cbv iota.
  assert (Hd : (inject_Z now' - inject_Z now == inject_Z ms)%Q).
  { unfold Qminus. rewrite <- inject_Z_opp, <- inject_Z_plus.
    rewrite inject_Z_injective. lia. }
  set (x := (q + (inject_Z now' - inject_Z now) / inject_Z 1000 * rate)%Q).
  assert (Hx : (x == q + inject_Z ms / 1000 * rate)%Q).
  { unfold x. rewrite Hd. reflexivity. }
  destruct (Qle_bool (inject_Z N) x) eqn:Hle.
  - exists (inject_Z N). split; [reflexivity|]. split.
    + intros Hsmall. apply Qle_bool_iff in Hle. rewrite Hx in Hle.
      apply Qle_antisym; assumption.
    + intros _. reflexivity.
  - exists x. split; [reflexivity|]. split.
    + intros _. exact Hx.
    + intros Hbig. rewrite <- Hx in Hbig. apply Qle_bool_iff in Hbig. congruence.
Qed.

Variable kv : KvAnswer.
Hypothesis put_ok : kv_put_throws kv = false.

Lemma cached_tokens (j : Z) (cache : gmap string CachedEntry) :
  spent key N now j cache -> 0 <= j <= N ->
  exists t cache' puts,
    (t == inject_Z (N - j))%Q
    /\ tokenBucket key (of_Z N) (Fin rate) now kv cache
       = (negb (ltb (Fin t) (of_Z 1)), cache', puts)
    /\ cache' !! key
       = Some {| c_tokens := if ltb (Fin t) (of_Z 1) then Fin t
                             else sub (Fin t) (of_Z 1);
                 c_lastRefill := now; c_lastUpdate := now |}.
Proof.
  intros [q [Hc Hq]] Hj. unfold tokenBucket. rewrite Hc.
  cbn [c_lastUpdate c_tokens c_lastRefill].
  replace (now - now <? CACHE_TTL) with true
    by (rewrite Z.sub_diag; reflexivity).
  destruct (refill_value 0 q now ltac:(lia)) as [t [Ht [Hsmall _]]].
  rewrite Ht.
  assert (Hqt : (t == inject_Z (N - j))%Q).
  { rewrite Hsmall.
    - rewrite Hq. unfold Qdiv. rewrite Qmult_0_l, Qmult_0_l, Qplus_0_r. reflexivity.
    - unfold Qdiv. rewrite Qmult_0_l, Qmult_0_l, Qplus_0_r, Hq.
      rewrite <- Zle_Qle. lia. }
  rewrite put_ok. exists t.
  destruct (ltb (Fin t) (of_Z 1)) eqn:Hlt.
  - do 2 eexists. split; [exact Hqt|]. split; [reflexivity|].
    apply lookup_insert_eq.
  - do 2 eexists. split; [exact Hqt|]. split; [reflexivity|].
    apply lookup_insert_eq.
Qed.

Lemma ltb_one (t : Q) (j : Z) :
  (t == inject_Z (N - j))%Q ->
  ltb (Fin t) (of_Z 1) = (N - j <? 1).
Proof.
  intros Ht. unfold ltb, of_Z.
  destruct (Z.ltb_spec (N - j) 1) as [Hlt|Hge].
  - apply andb_true_iff. split.
    + apply Qle_bool_iff. rewrite Ht, <- Zle_Qle. lia.
    + apply negb_true_iff, not_true_iff_false. rewrite Qeq_bool_iff, Ht.
      rewrite inject_Z_injective. lia.
  - apply andb_false_iff.
    destruct (Z.eq_dec (N - j) 1) as [Heq|Hne].
    + right. apply negb_false_iff, Qeq_bool_iff. rewrite Ht, Heq. reflexivity.
    + left. apply not_true_iff_false. rewrite Qle_bool_iff, Ht, <- Zle_Qle. lia.
Qed.

(** With tokens left, a check is admitted and spends one. *)
Lemma tokenBucket_admits (j : Z) (cache : gmap string CachedEntry) :
  spent key N now j cache -> 0 <= j < N ->
  exists cache' puts,
    tokenBucket key (of_Z N) (Fin rate) now kv cache = (true, cache', puts)
    /\ spent key N now (j + 1) cache'.
Proof.
  intros Hs Hj.
  destruct (cached_tokens j cache Hs ltac:(lia)) as [t [cache' [puts [Ht [Hrun Hc]]]]].
  rewrite (ltb_one t j Ht) in Hrun, Hc.
  replace (N - j <? 1) with false in Hrun, Hc by (symmetry; apply Z.ltb_ge; lia).
  exists cache', puts. split; [exact Hrun|].
  exists (t - inject_Z 1)%Q. split; [exact Hc|].
  rewrite Ht. unfold Qminus. rewrite <- inject_Z_opp, <- inject_Z_plus.
  rewrite inject_Z_injective. lia.
Qed.

(** With no token left, a check is denied and spends nothing. *)
Lemma tokenBucket_denies (cache : gmap string CachedEntry) :
  spent key N now N cache ->
  exists cache' puts,
    tokenBucket key (of_Z N) (Fin rate) now kv cache = (false, cache', puts)
    /\ spent key N now N cache'.
Proof.
  intros Hs.
  destruct (cached_tokens N cache Hs ltac:(lia)) as [t [cache' [puts [Ht [Hrun Hc]]]]].
  rewrite (ltb_one t N Ht) in Hrun, Hc.
  replace (N - N <? 1) with true in Hrun, Hc by (rewrite Z.sub_diag; reflexivity).
  exists cache', puts. split; [exact Hrun|].
  exists t. split; [exact Hc | exact Ht].
Qed.

(** The first check of a subject for which nothing is stored finds the
    bucket full. *)
Lemma tokenBucket_first (cache : gmap string CachedEntry) :
  cache !! key = None ->
  (forall e, kv_get kv <> KvGetEntry e) ->
  exists cache' puts,
    tokenBucket key (of_Z N) (Fin rate) now kv cache = (true, cache', puts)
    /\ spent key N now 1 cache'.
Proof.
  intros Hnone Hkv. unfold tokenBucket. rewrite Hnone.
  assert (Hfull : match kv_get kv with
                  | KvGetEntry existing =>
                      refill (of_Z N) (Fin rate) now (tokens existing) (lastRefill existing)
                  | _ => of_Z N
                  end = of_Z N).
  { destruct (kv_get kv) as [| |e]; try reflexivity. now contradiction (Hkv e). }
  rewrite Hfull, put_ok.
  replace (ltb (of_Z N) (of_Z 1)) with false.
  - do 2 eexists. split; [reflexivity|].
    eexists. split; [apply lookup_insert_eq|].
    unfold Qminus. rewrite <- inject_Z_opp, <- inject_Z_plus. reflexivity.
  - symmetry. change (of_Z N) with (Fin (inject_Z N)).
    rewrite (ltb_one (inject_Z N) 0).
    + apply Z.ltb_ge. lia.
    + rewrite Z.sub_0_r. reflexivity.
Qed.

(** From [j] tokens spent, the remaining [N - j] checks of the instant are
    admitted and the one after them is denied. *)
Lemma repeatedChecks_from (d : nat) :
  forall (j : Z) (cache : gmap string CachedEntry),
    spent key N now j cache -> 0 <= j -> j + Z.of_nat d = N ->
    let out := Scenarios.repeatedChecks
                 (tokenBucket key (of_Z N) (Fin rate) now kv) (S d) cache in
    fst out = repeat true d ++ [false] /\ spent key N now N (snd out).
Proof.
  induction d as [|d IH]; intros j cache Hs Hj0 Hj.
  - assert (j = N) by lia. subst j.
    destruct (tokenBucket_denies cache Hs) as [cache' [puts [Hrun Hs']]].
    cbn. rewrite Hrun. cbn. split; [reflexivity | exact Hs'].
  - destruct (tokenBucket_admits j cache Hs ltac:(lia)) as [cache' [puts [Hrun Hs']]].
    specialize (IH (j + 1) cache' Hs' ltac:(lia) ltac:(lia)).
    cbn zeta in IH. destruct IH as [IH1 IH2].
    change (Scenarios.repeatedChecks (tokenBucket key (of_Z N) (Fin rate) now kv)
              (S (S d)) cache)
      with (let '(allowed, cache', _) := tokenBucket key (of_Z N) (Fin rate) now kv cache in
            let '(rest, cache'') :=
              Scenarios.repeatedChecks (tokenBucket key (of_Z N) (Fin rate) now kv)
                (S d) cache' in
            (allowed :: rest, cache'')).
    rewrite Hrun.
    destruct (Scenarios.repeatedChecks _ (S d) cache') as [rest cache''].
    cbn in *. rewrite IH1. split; [reflexivity | exact IH2].
Qed.

(** Once the bucket is empty, a check made after at least [1 / rate]
    seconds, while the in-memory entry is still valid, is admitted. *)
Lemma tokenBucket_after_refill (cache : gmap string CachedEntry) (now' : Z) :
  spent key N now N cache ->
  0 <= now' - now < CACHE_TTL ->
  (1 <= inject_Z (now' - now) / 1000 * rate)%Q ->
  fst (fst (tokenBucket key (of_Z N) (Fin rate) now' kv cache)) = true.
Proof.
  intros [q [Hc Hq]] Hwin Hwait. unfold tokenBucket. rewrite Hc.
  cbn [c_lastUpdate c_tokens c_lastRefill].
  replace (now' - now <? CACHE_TTL) with true by (symmetry; apply Z.ltb_lt; lia).
  destruct (refill_value (now' - now) q now' eq_refl) as [t [Ht [Hsmall Hbig]]].
  rewrite Ht.
  assert (Hq0 : (q == 0)%Q) by (rewrite Hq, Z.sub_diag; reflexivity).
  assert (Hone : (1 <= t)%Q).
  { destruct (Qlt_le_dec (inject_Z N) (q + inject_Z (now' - now) / 1000 * rate))
      as [Hgt|Hle].
    - rewrite (Hbig (Qlt_le_weak _ _ Hgt)).
      change 1%Q with (inject_Z 1). rewrite <- Zle_Qle. exact N_pos.
    - rewrite (Hsmall Hle), Hq0, Qplus_0_l. exact Hwait. }
  replace (ltb (Fin t) (of_Z 1)) with false.
  - rewrite put_ok. reflexivity.
  - symmetry. unfold ltb, of_Z. apply andb_false_iff.
    destruct (Qeq_bool t (inject_Z 1)) eqn:He; [right; reflexivity|].
    left. apply not_true_iff_false. rewrite Qle_bool_iff. intros Hle.
    apply Qeq_bool_neq in He. apply He. apply Qle_antisym; assumption.
Qed.

End FiniteBucket.

(** The bucket with a finite capacity [N] does what is claimed of it: from
    the full bucket, [N] checks at one instant are admitted and the next is
    denied without spending a token; a check made at least [1 / rate]
    seconds later is admitted. *)
Lemma tokenBucket_capacity (key : string) (N : Z) (rate : Q) (now now' : Z)
      (kv : RateLimit.KvAnswer) (cache : gmap string RateLimit.CachedEntry) :
  1 <= N ->
  RateLimit.kv_put_throws kv = false ->
  (forall e, RateLimit.kv_get kv <> RateLimit.KvGetEntry e) ->
  cache !! key = None ->
  0 <= now' - now < RateLimit.CACHE_TTL ->
  (1 <= inject_Z (now' - now) / 1000 * rate)%Q ->
  let check := RateLimit.tokenBucket key (of_Z N) (Fin rate) in
  let out := Scenarios.repeatedChecks (check now kv) (Z.to_nat N + 1) cache in
  fst out = repeat true (Z.to_nat N) ++ [false]
  /\ RateLimit.spent key N now N (snd out)
  /\ fst (fst (check now' kv (snd out))) = true.
Proof.
  intros HN Hput Hkv Hnone Hwin Hwait check out. subst check out.
  destruct (tokenBucket_first key N rate now HN kv Hput cache Hnone Hkv)
    as [cache1 [puts [Hrun Hs1]]].
  destruct (Z.to_nat N) as [|n] eqn:Hn; [lia|].
  pose proof (repeatedChecks_from key N rate now HN kv Hput n 1 cache1 Hs1
                ltac:(lia) ltac:(lia)) as Hrest.
  cbn zeta in Hrest. destruct Hrest as [Hdec Hspent].
  change (Scenarios.repeatedChecks (RateLimit.tokenBucket key (of_Z N) (Fin rate) now kv)
            (S n + 1) cache)
    with (let '(allowed, cache', _) :=
            RateLimit.tokenBucket key (of_Z N) (Fin rate) now kv cache in
          let '(rest, cache'') :=
            Scenarios.repeatedChecks (RateLimit.tokenBucket key (of_Z N) (Fin rate) now kv)
              (n + 1) cache' in
          (allowed :: rest, cache'')).
  rewrite Hrun. replace (n + 1)%nat with (S n) by lia.
  destruct (Scenarios.repeatedChecks _ (S n) cache1) as [rest cache''].
  cbn in *. rewrite Hdec. split; [reflexivity|]. split; [exact Hspent|].
  apply (tokenBucket_after_refill key N rate now HN kv Hput cache'' now' Hspent Hwin Hwait).
Qed.

(** The bucket of a proxy has the capacity 16 and refills 8 tokens per
    second: from the full bucket, 16 checks at one instant are admitted and
    the 17th is denied without spending a token; a check made 125 ms (one
    eighth of a second) or more later is admitted. *)
Lemma checkProxyRateLimit_capacity (proxyUrl : string) (now now' : Z)
      (kv : RateLimit.KvAnswer) (cache : gmap string RateLimit.CachedEntry) :
  RateLimit.kv_put_throws kv = false ->
  (forall e, RateLimit.kv_get kv <> RateLimit.KvGetEntry e) ->
  cache !! ("proxy_rate_limit:" ++ proxyUrl)%string = None ->
  125 <= now' - now < RateLimit.CACHE_TTL ->
  let check := RateLimit.checkProxyRateLimit proxyUrl in
  let out := Scenarios.repeatedChecks (check now kv) 17 cache in
  fst out = repeat true 16 ++ [false]
  /\ RateLimit.spent ("proxy_rate_limit:" ++ proxyUrl)%string 16 now 16 (snd out)
  /\ fst (fst (check now' kv (snd out))) = true.
Proof.
  intros Hput Hkv Hnone Hwin.
  apply (tokenBucket_capacity ("proxy_rate_limit:" ++ proxyUrl)%string 16 (inject_Z 8)
           now now' kv cache); try assumption; try lia.
  unfold Qle, Qdiv, Qmult, Qinv, inject_Z. simpl. lia.
Qed.

(** C8: the bucket of a client never denies.  [getDynamicRateLimits] reads
    [length] off the promise returned by the [async] function
    [getProxyEndpoints], so the capacity [maxTokens] is [NaN], the test
    [tokens < 1] is false in every state, and every check is admitted: the
    481st check of one instant (the capacity without proxies is meant to be
    480) is admitted like the first. *)
Theorem checkRateLimit_never_denies :
  (forall env, Config.TOKENS_PER_MINUTE (RateLimit.getDynamicRateLimits env) = NaN)
  /\ (forall clientIP env now kv cache,
         fst (fst (RateLimit.checkRateLimit clientIP env now kv cache)) = true)
  /\ fst (Scenarios.repeatedChecks
            (RateLimit.checkRateLimit "203.0.113.7" Scenarios.noProxies 1000
               Scenarios.kvEmpty) 481 ∅)
     = repeat true 481.
Proof.
  assert (Hall : forall clientIP env now kv cache,
             fst (fst (RateLimit.checkRateLimit clientIP env now kv cache)) = true).
  { intros. unfold RateLimit.checkRateLimit. rewrite getDynamicRateLimits_NaN.
    apply tokenBucket_NaN. }
  split; [reflexivity|]. split; [exact Hall|].
  apply repeatedChecks_all_allowed. intros cache. apply Hall.
Qed.

(* ===================================================================== *)
(** * Further properties *)
(* ===================================================================== *)

(** ** Circuit breaker: counters and transitions *)

Section BreakerRuns.
Import CircuitBreakerM.

Lemma counted_initial : counted initial.
Proof.
  unfold counted, initial, FAILURE_THRESHOLD. simpl.
  repeat split; try lia; try reflexivity; discriminate.
Qed.

Lemma counted_step s s' : counted s -> step s s' -> counted s'.
Proof.
  unfold counted, FAILURE_THRESHOLD, SUCCESS_THRESHOLD.
  intros [Hf [Hc Hh]] Hstep.
  destruct Hstep as [now s s' Henter | s | now s].
  - unfold enter in Henter. destruct (state s) eqn:Hst.
    + injection Henter as <-. rewrite Hst. auto.
    + destruct (RECOVERY_TIMEOUT <? now - lastFailureTime s); [|discriminate].
      injection Henter as <-. simpl.
      split; [exact Hf|]. split.
      * split; [discriminate|]. intros Hlt. apply Hc in Hlt. discriminate.
      * intros _. lia.
    + injection Henter as <-. rewrite Hst. auto.
  - unfold onSuccess, SUCCESS_THRESHOLD. destruct (state s) eqn:Hst.
    + simpl. split; [lia|]. split; [split; [lia | reflexivity] | discriminate].
    + rewrite Hst. auto.
    + specialize (Hh eq_refl).
      destruct (Z.leb_spec 3 (successCount s + 1)); simpl.
      * split; [lia|]. split; [split; [lia | reflexivity] | discriminate].
      * split; [exact Hf|]. split.
        -- split; [discriminate|]. intros Hlt. apply Hc in Hlt. discriminate.
        -- intros _. lia.
  - unfold onFailure, FAILURE_THRESHOLD. simpl.
    destruct (Z.leb_spec 5 (failureCount s + 1)) as [Hge|Hlt].
    + split; [lia|]. split; [split; [discriminate | lia] | discriminate].
    + split; [lia|].
      assert (Hclosed : state s = CLOSED) by (apply Hc; lia).
      rewrite Hclosed. split; [split; [lia | reflexivity] | discriminate].
Qed.

Lemma reachable_counted s : reachable s -> counted s.
Proof.
  induction 1 as [|s s' _ IH Hstep]; [exact counted_initial|].
  exact (counted_step s s' IH Hstep).
Qed.

(** Failing calls on a closed breaker: each is let through, and the breaker
    stays closed until the count reaches the threshold. *)
Lemma executeAll_failures (calls : list Call) :
  Forall (fun c => call_succeeds c = false) calls ->
  forall s invoked,
    state s = CLOSED -> 0 <= failureCount s ->
    failureCount s + Z.of_nat (List.length calls) <= FAILURE_THRESHOLD ->
    let out := executeAll calls s invoked in
    snd out = (invoked + List.length calls)%nat
    /\ failureCount (fst out) = failureCount s + Z.of_nat (List.length calls)
    /\ successCount (fst out) = successCount s
    /\ state (fst out) =
         if failureCount s + Z.of_nat (List.length calls) <? FAILURE_THRESHOLD
         then CLOSED
         else match calls with [] => CLOSED | _ => OPEN end.
Proof.
  unfold FAILURE_THRESHOLD.
  induction 1 as [|c calls Hc Hall IH]; intros s invoked Hst Hf Hle; simpl in *.
  - rewrite Nat.add_0_r, Z.add_0_r.
    destruct (failureCount s <? 5); auto.
  - unfold execute, enter. rewrite Hst, Hc. simpl.
    set (s1 := onFailure (call_now' c) s).
    assert (Hf1 : failureCount s1 = failureCount s + 1) by reflexivity.
    assert (Hs1 : successCount s1 = successCount s) by reflexivity.
    assert (Hst1 : state s1 = if 5 <=? failureCount s + 1 then OPEN else CLOSED).
    { unfold s1, onFailure, FAILURE_THRESHOLD. simpl. now rewrite Hst. }
    clearbody s1.
    revert Hst1. destruct (Z.leb_spec 5 (failureCount s + 1)) as [Hge|Hlt]; intros Hst1.
    + (* the threshold is reached by this call, which is the last one *)
      assert (calls = []) by (destruct calls; [reflexivity | simpl in Hle; lia]).
      subst calls. clear IH Hall. cbn [executeAll fst snd List.length].
      change (Z.of_nat 1) with 1.
      replace (failureCount s + 1 <? 5) with false by (symmetry; apply Z.ltb_ge; lia).
      repeat split; try assumption; lia.
    + assert (Hlen : Z.of_nat (S (List.length calls)) = 1 + Z.of_nat (List.length calls))
        by lia.
      specialize (IH s1 (S invoked) Hst1 ltac:(lia) ltac:(lia)).
      destruct IH as [IH1 [IH2 [IH3 IH4]]].
      rewrite Hf1 in IH2, IH4. rewrite Hs1 in IH3.
      cbn [List.length]. rewrite Hlen.
      replace (failureCount s + (1 + Z.of_nat (List.length calls)))
        with (failureCount s + 1 + Z.of_nat (List.length calls)) by lia.
      split; [rewrite IH1; lia|]. split; [exact IH2|]. split; [exact IH3|].
      rewrite IH4.
      destruct (failureCount s + 1 + Z.of_nat (List.length calls) <? 5) eqn:Hlast;
        [reflexivity|].
      destruct calls; [|reflexivity].
      simpl in Hlast. apply Z.ltb_ge in Hlast. lia.
Qed.

End BreakerRuns.

Lemma executeAll_app (calls1 calls2 : list CircuitBreakerM.Call) :
  forall s invoked,
    CircuitBreakerM.executeAll (calls1 ++ calls2) s invoked
    = CircuitBreakerM.executeAll calls2
        (fst (CircuitBreakerM.executeAll calls1 s invoked))
        (snd (CircuitBreakerM.executeAll calls1 s invoked)).
Proof.
  induction calls1 as [|c calls1 IH]; intros s invoked; simpl; [reflexivity|].
  destruct (CircuitBreakerM.execute _ _ _ s invoked) as [[r s'] invoked'].
  apply IH.
Qed.

(** X1: on a fresh breaker every one of up to five failing operations is
    invoked and counted, and the breaker is [OPEN] after the fifth failure
    and [CLOSED] before it. *)
Theorem breaker_opens_at_fifth_failure
        (calls : list CircuitBreakerM.Call)
        (Hfail : Forall (fun c => CircuitBreakerM.call_succeeds c = false) calls)
        (Hlen : (List.length calls <= 5)%nat) :
  let out := CircuitBreakerM.executeAll calls CircuitBreakerM.initial 0%nat in
  snd out = List.length calls
  /\ CircuitBreakerM.failureCount (fst out) = Z.of_nat (List.length calls)
  /\ CircuitBreakerM.state (fst out)
     = if Nat.ltb (List.length calls) 5 then CircuitBreakerM.CLOSED
       else CircuitBreakerM.OPEN.
Proof.
  pose proof (executeAll_failures calls Hfail CircuitBreakerM.initial 0%nat
                eq_refl ltac:(simpl; lia)) as H.
  unfold CircuitBreakerM.FAILURE_THRESHOLD in H. simpl in H.
  specialize (H ltac:(lia)). rewrite Z.add_0_l in H. destruct H as [H1 [H2 [_ H4]]].
  split; [exact H1|]. split; [exact H2|].
  simpl. rewrite H4.
  destruct (Nat.ltb_spec (List.length calls) 5) as [Hlt|Hge].
  - replace (Z.of_nat (List.length calls) <? 5) with true
      by (symmetry; apply Z.ltb_lt; lia).
    reflexivity.
  - replace (Z.of_nat (List.length calls) <? 5) with false
      by (symmetry; apply Z.ltb_ge; lia).
    destruct calls; [simpl in Hge; lia | reflexivity].
Qed.

Lemma breaker_opens_at_fifth_failure_witness :
  let failing now := {| CircuitBreakerM.call_now := now;
                        CircuitBreakerM.call_now' := now + 7;
                        CircuitBreakerM.call_succeeds := false |} in
  CircuitBreakerM.state
    (fst (CircuitBreakerM.executeAll
            [failing 100; failing 200; failing 300; failing 400; failing 500]
            CircuitBreakerM.initial 0%nat))
  = CircuitBreakerM.OPEN.
Proof.
  cbv zeta.
  refine (proj2 (proj2 (breaker_opens_at_fifth_failure _ _ _))).
  - repeat constructor.
  - simpl. lia.
Defined.

(** X2: once more than the recovery period has passed since the last
    failure, an open breaker lets operations through again; it stays
    half-open for two successes and closes, with the failure count back at
    0, on the third. *)
Theorem breaker_recovers_after_three_successes
        (s : CircuitBreakerM.CircuitBreakerState)
        (c1 c2 c3 : CircuitBreakerM.Call) (invoked : nat)
        (Hopen : CircuitBreakerM.state s = CircuitBreakerM.OPEN)
        (Hwait : CircuitBreakerM.RECOVERY_TIMEOUT
                 < CircuitBreakerM.call_now c1 - CircuitBreakerM.lastFailureTime s)
        (H1 : CircuitBreakerM.call_succeeds c1 = true)
        (H2 : CircuitBreakerM.call_succeeds c2 = true)
        (H3 : CircuitBreakerM.call_succeeds c3 = true) :
  let after1 := CircuitBreakerM.executeAll [c1] s invoked in
  let after2 := CircuitBreakerM.executeAll [c1; c2] s invoked in
  let after3 := CircuitBreakerM.executeAll [c1; c2; c3] s invoked in
  (CircuitBreakerM.state (fst after1) = CircuitBreakerM.HALF_OPEN
   /\ CircuitBreakerM.successCount (fst after1) = 1 /\ snd after1 = S invoked)
  /\ (CircuitBreakerM.state (fst after2) = CircuitBreakerM.HALF_OPEN
      /\ CircuitBreakerM.successCount (fst after2) = 2 /\ snd after2 = S (S invoked))
  /\ (CircuitBreakerM.state (fst after3) = CircuitBreakerM.CLOSED
      /\ CircuitBreakerM.failureCount (fst after3) = 0
      /\ snd after3 = S (S (S invoked))).
Proof.
  assert (Hfirst : CircuitBreakerM.executeAll [c1] s invoked
                   = ({| CircuitBreakerM.state := CircuitBreakerM.HALF_OPEN;
                         CircuitBreakerM.failureCount := CircuitBreakerM.failureCount s;
                         CircuitBreakerM.lastFailureTime :=
                           CircuitBreakerM.lastFailureTime s;
                         CircuitBreakerM.successCount := 1 |}, S invoked)).
  { unfold CircuitBreakerM.executeAll, CircuitBreakerM.execute,
      CircuitBreakerM.countingOperation, CircuitBreakerM.enter.
    rewrite H1, Hopen.
    replace (CircuitBreakerM.RECOVERY_TIMEOUT
             <? CircuitBreakerM.call_now c1 - CircuitBreakerM.lastFailureTime s)
      with true by (symmetry; apply Z.ltb_lt; exact Hwait).
    reflexivity. }
  cbv zeta.
  change [c1; c2] with ([c1] ++ [c2]).
  change [c1; c2; c3] with ([c1] ++ [c2; c3]).
  rewrite !executeAll_app, Hfirst.
  unfold CircuitBreakerM.executeAll, CircuitBreakerM.execute,
    CircuitBreakerM.countingOperation, CircuitBreakerM.enter.
  rewrite H2, H3. cbn. repeat split.
Qed.

Lemma breaker_recovers_after_three_successes_witness :
  let ok now := {| CircuitBreakerM.call_now := now;
                   CircuitBreakerM.call_now' := now + 7;
                   CircuitBreakerM.call_succeeds := true |} in
  let after3 := CircuitBreakerM.executeAll [ok 40000; ok 40100; ok 40200]
                  (Scenarios.trippedAt 1000) 0%nat in
  CircuitBreakerM.state (fst after3) = CircuitBreakerM.CLOSED
  /\ CircuitBreakerM.failureCount (fst after3) = 0
  /\ snd after3 = 3%nat.
Proof.
  cbv zeta.
  refine (proj2 (proj2 (breaker_recovers_after_three_successes
                          (Scenarios.trippedAt 1000) _ _ _ 0%nat _ _ _ _ _))).
  - reflexivity.
  - vm_compute. reflexivity.
  - reflexivity.
  - reflexivity.
  - reflexivity.
Defined.

(** X3: a success on a closed breaker wipes the failures counted so far, so
    only consecutive failures open it: after fewer than five failures, one
    success and again fewer than five failures, all on a fresh breaker, the
    breaker is [CLOSED], has let every operation through and counts the
    failures after the success only. *)
Theorem breaker_counts_consecutive_failures
        (before after : list CircuitBreakerM.Call) (c : CircuitBreakerM.Call)
        (Hbefore : Forall (fun c => CircuitBreakerM.call_succeeds c = false) before)
        (Hafter : Forall (fun c => CircuitBreakerM.call_succeeds c = false) after)
        (Hc : CircuitBreakerM.call_succeeds c = true)
        (Hlen1 : (List.length before < 5)%nat)
        (Hlen2 : (List.length after < 5)%nat) :
  let out := CircuitBreakerM.executeAll (before ++ c :: after)
               CircuitBreakerM.initial 0%nat in
  CircuitBreakerM.state (fst out) = CircuitBreakerM.CLOSED
  /\ CircuitBreakerM.failureCount (fst out) = Z.of_nat (List.length after)
  /\ snd out = (List.length before + 1 + List.length after)%nat.
Proof.
  cbv zeta. rewrite executeAll_app.
  pose proof (executeAll_failures before Hbefore CircuitBreakerM.initial 0%nat
                eq_refl ltac:(simpl; lia)) as H.
  unfold CircuitBreakerM.FAILURE_THRESHOLD in H. simpl in H.
  specialize (H ltac:(lia)). rewrite Z.add_0_l in H.
  destruct H as [B1 [B2 [B3 B4]]].
  replace (Z.of_nat (List.length before) <? 5) with true in B4
    by (symmetry; apply Z.ltb_lt; lia).
  destruct (CircuitBreakerM.executeAll before CircuitBreakerM.initial 0%nat)
    as [s1 n1]. cbn [fst snd] in *.
  change (c :: after) with ([c] ++ after). rewrite executeAll_app.
  assert (Hmid : CircuitBreakerM.executeAll [c] s1 n1
                 = (CircuitBreakerM.onSuccess s1, S n1)).
  { unfold CircuitBreakerM.executeAll, CircuitBreakerM.execute,
      CircuitBreakerM.countingOperation, CircuitBreakerM.enter.
    rewrite Hc, B4. reflexivity. }
  rewrite Hmid. cbn [fst snd].
  assert (Hs2 : CircuitBreakerM.state (CircuitBreakerM.onSuccess s1)
                = CircuitBreakerM.CLOSED
                /\ CircuitBreakerM.failureCount (CircuitBreakerM.onSuccess s1) = 0).
  { unfold CircuitBreakerM.onSuccess. rewrite B4. split; reflexivity. }
  destruct Hs2 as [Hst2 Hf2].
  pose proof (executeAll_failures after Hafter (CircuitBreakerM.onSuccess s1) (S n1)
                Hst2 ltac:(lia)) as H.
  unfold CircuitBreakerM.FAILURE_THRESHOLD in H. rewrite Hf2 in H.
  specialize (H ltac:(lia)). rewrite Z.add_0_l in H.
  destruct H as [A1 [A2 [A3 A4]]].
  replace (Z.of_nat (List.length after) <? 5) with true in A4
    by (symmetry; apply Z.ltb_lt; lia).
  split; [exact A4|]. split; [exact A2|]. rewrite A1, B1. lia.
Qed.

Lemma breaker_counts_consecutive_failures_witness :
  let call ok now := {| CircuitBreakerM.call_now := now;
                        CircuitBreakerM.call_now' := now + 7;
                        CircuitBreakerM.call_succeeds := ok |} in
  CircuitBreakerM.state
    (fst (CircuitBreakerM.executeAll
            ([call false 1; call false 2; call false 3; call false 4]
               ++ call true 5
               :: [call false 6; call false 7; call false 8; call false 9])
            CircuitBreakerM.initial 0%nat))
  = CircuitBreakerM.CLOSED.
Proof.
  cbv zeta.
  refine (proj1 (breaker_counts_consecutive_failures _ _ _ _ _ _ _ _)).
  - repeat constructor.
  - repeat constructor.
  - reflexivity.
  - simpl. lia.
  - simpl. lia.
Defined.

(** X4: in every state a breaker can reach, under any interleaving of the
    calls that share it, the failure count is not negative, the state is
    [CLOSED] exactly when fewer than five failures are counted, and a
    half-open breaker has counted fewer than three successes. *)
Theorem breaker_state_matches_counters
        (s : CircuitBreakerM.CircuitBreakerState)
        (Hreach : CircuitBreakerM.reachable s) :
  0 <= CircuitBreakerM.failureCount s
  /\ (CircuitBreakerM.state s = CircuitBreakerM.CLOSED
      <-> CircuitBreakerM.failureCount s < CircuitBreakerM.FAILURE_THRESHOLD)
  /\ (CircuitBreakerM.state s = CircuitBreakerM.HALF_OPEN ->
      0 <= CircuitBreakerM.successCount s < CircuitBreakerM.SUCCESS_THRESHOLD).
Proof. exact (reachable_counted s Hreach). Qed.

Lemma breaker_state_matches_counters_witness :
  0 <= CircuitBreakerM.successCount
         {| CircuitBreakerM.state := CircuitBreakerM.HALF_OPEN;
            CircuitBreakerM.failureCount := 5;
            CircuitBreakerM.lastFailureTime := 1000;
            CircuitBreakerM.successCount := 0 |}
  < CircuitBreakerM.SUCCESS_THRESHOLD.
Proof.
  exact (proj2 (proj2 (breaker_state_matches_counters _ half_open_reachable)) eq_refl).
Defined.

(** ** Translation cache: round trips *)

(** X5: what [setCachedTranslation] stores is what [getCachedTranslation]
    returns for the same key while the entry is younger than the TTL,
    whatever the durable store answers (it is not asked), and the read
    leaves the in-memory tier as the write left it; the result of a read
    of another key is not affected by the write. *)
Theorem cache_store_then_read
        (key : string) (entry : Cache.CacheEntry) (now1 now2 : Z) (kv : Cache.KvGet)
        (memoryCache : gmap string Cache.CacheEntry)
        (Hfresh : Cache.fresh now1 entry = true) :
  let stored := fst (Cache.setCachedTranslation key entry memoryCache) in
  Cache.getCachedTranslation key now1 now2 kv stored = (Some entry, stored)
  /\ (forall key' now1' now2' kv',
         key' <> key ->
         fst (Cache.getCachedTranslation key' now1' now2' kv' stored)
         = fst (Cache.getCachedTranslation key' now1' now2' kv' memoryCache)).
Proof.
  cbv zeta. unfold Cache.setCachedTranslation. cbn [fst]. split.
  - unfold Cache.getCachedTranslation. rewrite lookup_insert_eq, Hfresh. reflexivity.
  - intros key' now1' now2' kv' Hne. unfold Cache.getCachedTranslation.
    rewrite lookup_insert_ne by congruence.
    destruct (memoryCache !! key') as [m|].
    + destruct (Cache.fresh now1' m); [reflexivity|].
      destruct kv' as [| |e]; try reflexivity.
      destruct (Cache.fresh now2' e); reflexivity.
    + destruct kv' as [| |e]; try reflexivity.
      destruct (Cache.fresh now2' e); reflexivity.
Qed.

Lemma cache_store_then_read_witness :
  let entry := {| Cache.data := "Hallo"; Cache.timestamp := of_Z 1000;
                  Cache.source_lang := "EN"; Cache.target_lang := "DE";
                  Cache.id := Some (of_Z 7) |} in
  Cache.getCachedTranslation "k" 2000 2000 Cache.KvGetThrows
    (fst (Cache.setCachedTranslation "k" entry ∅))
  = (Some entry, fst (Cache.setCachedTranslation "k" entry ∅)).
Proof.
  cbv zeta.
  refine (proj1 (cache_store_then_read "k" _ 2000 2000 Cache.KvGetThrows ∅ _)).
  vm_compute. reflexivity.
Defined.

(** X6: when the in-memory tier has no fresh entry for the key and the
    durable store answers with a fresh one, the read returns that entry and
    copies it into the in-memory tier, so that later reads of the key are
    served from memory for as long as the entry is fresh, even when the
    durable store fails. *)
Theorem cache_backfills_memory
        (key : string) (entry : Cache.CacheEntry) (now1 now2 : Z)
        (memoryCache : gmap string Cache.CacheEntry)
        (Hmiss : forall e, memoryCache !! key = Some e -> Cache.fresh now1 e = false)
        (Hfresh : Cache.fresh now2 entry = true) :
  let out := Cache.getCachedTranslation key now1 now2 (Cache.KvGetEntry entry)
               memoryCache in
  fst out = Some entry
  /\ snd out = <[key := entry]> memoryCache
  /\ (forall now1' now2' kv',
         Cache.fresh now1' entry = true ->
         Cache.getCachedTranslation key now1' now2' kv' (snd out)
         = (Some entry, snd out)).
Proof.
  cbv zeta.
  assert (Hout : Cache.getCachedTranslation key now1 now2 (Cache.KvGetEntry entry)
                   memoryCache = (Some entry, <[key := entry]> memoryCache)).
  { unfold Cache.getCachedTranslation. rewrite Hfresh.
    destruct (memoryCache !! key) as [m|] eqn:Hm; [|reflexivity].
    rewrite (Hmiss m eq_refl). reflexivity. }
  rewrite Hout. cbn [fst snd]. repeat split.
  intros now1' now2' kv' Hf. unfold Cache.getCachedTranslation.
  rewrite lookup_insert_eq, Hf. reflexivity.
Qed.

Lemma cache_backfills_memory_witness :
  let entry := {| Cache.data := "Hallo"; Cache.timestamp := of_Z 1000;
                  Cache.source_lang := "EN"; Cache.target_lang := "DE";
                  Cache.id := Some (of_Z 7) |} in
  fst (Cache.getCachedTranslation "k" 2000 2001 (Cache.KvGetEntry entry) ∅)
  = Some entry.
Proof.
  cbv zeta.
  refine (proj1 (cache_backfills_memory "k" _ 2000 2001 ∅ _ _)).
  - intros e He. rewrite lookup_empty in He. discriminate He.
  - vm_compute. reflexivity.
Defined.

(** ** Cache keys *)

Lemma toInt32_range (z : Z) : -2147483648 <= Int32.toInt32 z < 2147483648.
Proof.
  unfold Int32.toInt32.
  pose proof (Z.mod_pos_bound (z + 2147483648) 4294967296 ltac:(lia)). lia.
Qed.

Lemma toInt32_shift (z k : Z) : Int32.toInt32 (z + k * 4294967296) = Int32.toInt32 z.
Proof.
  unfold Int32.toInt32.
  replace (z + k * 4294967296 + 2147483648) with (z + 2147483648 + k * 4294967296) by lia.
  rewrite Z.mod_add by lia. reflexivity.
Qed.

Lemma toInt32_wraps (z : Z) : exists k, Int32.toInt32 z = z + k * 4294967296.
Proof.
  unfold Int32.toInt32.
  exists (- ((z + 2147483648) / 4294967296)).
  pose proof (Z.div_mod (z + 2147483648) 4294967296 ltac:(lia)). lia.
Qed.

Lemma toInt32_small (z : Z) :
  -2147483648 <= z < 2147483648 -> Int32.toInt32 z = z.
Proof.
  intros H. unfold Int32.toInt32. rewrite Z.mod_small by lia. lia.
Qed.

Lemma hashStep_wrapped (hash char : Z) :
  Cache.hashStep hash char = Int32.toInt32 (31 * hash + char).
Proof.
  unfold Cache.hashStep, Int32.bitand, Int32.shl. cbv zeta.
  rewrite Z.land_diag, Z.shiftl_mul_pow2 by lia.
  destruct (toInt32_wraps hash) as [k1 Hk1].
  destruct (toInt32_wraps (Int32.toInt32 hash * 2 ^ 5)) as [k2 Hk2].
  rewrite Hk2, Hk1.
  replace ((hash + k1 * 4294967296) * 2 ^ 5 + k2 * 4294967296 - hash + char)
    with (31 * hash + char + (32 * k1 + k2) * 4294967296) by lia.
  apply toInt32_shift.
Qed.

Lemma hashBytes_fold (bytes : list Z) :
  forall h p,
    h = Int32.toInt32 p ->
    fold_left Cache.hashStep bytes h
    = Int32.toInt32 (fold_left (fun h c => 31 * h + c) bytes p).
Proof.
  induction bytes as [|c bytes IH]; intros h p Hh; simpl; [exact Hh|].
  apply IH. rewrite hashStep_wrapped, Hh.
  destruct (toInt32_wraps p) as [k Hk]. rewrite Hk.
  replace (31 * (p + k * 4294967296) + c) with (31 * p + c + (31 * k) * 4294967296) by lia.
  apply toInt32_shift.
Qed.

(** X7: the hash of [generateCacheKey] is the polynomial hash with
    multiplier 31 of the encoded content, wrapped to a signed 32-bit
    integer: the shift-and-subtract of the loop body is a multiplication by
    31, and the [hash & hash] of every round wraps the exact sum. *)
Theorem hashBytes_polynomial (bytes : list Z) :
  Cache.hashBytes bytes
  = Int32.toInt32 (fold_left (fun hash char => 31 * hash + char) bytes 0)
  /\ -2147483648 <= Cache.hashBytes bytes < 2147483648.
Proof.
  assert (H : Cache.hashBytes bytes
              = Int32.toInt32 (fold_left (fun hash char => 31 * hash + char) bytes 0)).
  { unfold Cache.hashBytes. apply hashBytes_fold. reflexivity. }
  split; [exact H|]. rewrite H. apply toInt32_range.
Qed.

Lemma substring_length_le (s : string) :
  forall n, (String.length (String.substring 0 n s) <= n)%nat.
Proof.
  induction s as [|c s IH]; intros [|n]; simpl; try lia.
  specialize (IH n). lia.
Qed.

(** X8: every cache key has at most 50 characters and starts with
    [cache_]. *)
Theorem generateCacheKey_shape (text sourceLang targetLang : string) :
  (String.length (Cache.generateCacheKey text sourceLang targetLang) <= 50)%nat
  /\ Str.startsWith "cache_" (Cache.generateCacheKey text sourceLang targetLang) = true.
Proof.
  unfold Cache.generateCacheKey. cbv zeta. unfold Str.take. split.
  - apply substring_length_le.
  - unfold Str.startsWith.
    match goal with
    | |- String.prefix _ (String.substring 0 50 (String.append _ ?rest)) = true =>
        generalize rest
    end.
    intros rest.
    change (String.prefix "cache_"
              (String "c" (String "a" (String "c" (String "h" (String "e"
                 (String "_" (String.substring 0 44 rest))))))) = true).
    destruct (String.substring 0 44 rest); reflexivity.
Qed.

Lemma encode_app (a b : string) :
  Cache.encode (a ++ b)%string = Cache.encode a ++ Cache.encode b.
Proof.
  induction a as [|c a IH]; [reflexivity|].
  change (String c a ++ b)%string with (String c (a ++ b)%string).
  cbn [Cache.encode]. rewrite IH.
  destruct (Z.of_nat (nat_of_ascii c) <? 128); reflexivity.
Qed.

Lemma string_app_assoc (a b c : string) :
  ((a ++ b) ++ c)%string = (a ++ (b ++ c))%string.
Proof.
  induction a as [|x a IH]; [reflexivity|].
  change (String x a ++ b)%string with (String x (a ++ b)%string).
  change (String x (a ++ b) ++ c)%string with (String x ((a ++ b) ++ c)%string).
  change (String x a ++ (b ++ c))%string with (String x (a ++ (b ++ c))%string).
  rewrite IH. reflexivity.
Qed.

(** Two texts whose encodings drive the hash loop to the same value from
    every starting value are interchangeable inside any text. *)
Lemma generateCacheKey_same_hash (a b : string) :
  (forall hash, fold_left Cache.hashStep (Cache.encode a) hash
                = fold_left Cache.hashStep (Cache.encode b) hash) ->
  forall before after sourceLang targetLang,
    Cache.generateCacheKey (before ++ a ++ after) sourceLang targetLang
    = Cache.generateCacheKey (before ++ b ++ after) sourceLang targetLang.
Proof.
  intros H before after sourceLang targetLang.
  unfold Cache.generateCacheKey. cbv zeta.
  assert (Hhash : forall tail,
             Cache.hashBytes (Cache.encode ((before ++ a ++ after) ++ tail)%string)
             = Cache.hashBytes (Cache.encode ((before ++ b ++ after) ++ tail)%string)).
  { intros tail. unfold Cache.hashBytes.
    rewrite !encode_app, !fold_left_app, H. reflexivity. }
  rewrite Hhash. reflexivity.
Qed.

Lemma collision_Aa_BB (hash : Z) :
  fold_left Cache.hashStep (Cache.encode "Aa") hash
  = fold_left Cache.hashStep (Cache.encode "BB") hash.
Proof.
  change (Cache.encode "Aa") with [65; 97].
  change (Cache.encode "BB") with [66; 66].
  cbn [fold_left]. rewrite !hashStep_wrapped.
  destruct (toInt32_wraps (31 * hash + 65)) as [k1 ->].
  destruct (toInt32_wraps (31 * hash + 66)) as [k2 ->].
  replace (31 * (31 * hash + 65 + k1 * 4294967296) + 97)
    with (961 * hash + 2112 + (31 * k1) * 4294967296) by lia.
  replace (31 * (31 * hash + 66 + k2 * 4294967296) + 66)
    with (961 * hash + 2112 + (31 * k2) * 4294967296) by lia.
  rewrite !toInt32_shift. reflexivity.
Qed.

(** X9: the cache key identifies a text by a 32-bit hash only, so distinct
    texts share a key: whenever two strings drive the hash loop to the same
    value, replacing one by the other anywhere in a text leaves the key
    unchanged, for every pair of language tags. *)
Theorem generateCacheKey_collides
        (a b : string)
        (Hsame : forall hash, fold_left Cache.hashStep (Cache.encode a) hash
                              = fold_left Cache.hashStep (Cache.encode b) hash) :
  forall before after sourceLang targetLang,
    Cache.generateCacheKey (before ++ a ++ after) sourceLang targetLang
    = Cache.generateCacheKey (before ++ b ++ after) sourceLang targetLang.
Proof. exact (generateCacheKey_same_hash a b Hsame). Qed.

Lemma generateCacheKey_collides_witness :
  "Aa"%string <> "BB"%string
  /\ forall before after sourceLang targetLang,
      Cache.generateCacheKey (before ++ "Aa" ++ after) sourceLang targetLang
      = Cache.generateCacheKey (before ++ "BB" ++ after) sourceLang targetLang.
Proof.
  split; [discriminate|].
  exact (generateCacheKey_collides "Aa" "BB" collision_Aa_BB).
Defined.

(** ** Smart delay *)

Lemma pow_fin (x : Q) (n : Z) :
  exists p, pow (Fin x) n = Fin p /\ (p == x ^ n)%Q.
Proof.
  unfold pow. destruct (Z.eqb_spec n 0) as [->|Hn].
  - exists 1%Q. split; reflexivity.
  - exists (x ^ n)%Q. split; reflexivity.
Qed.

(** X10: unlike the delay of [retryWithBackoff], the delay of
    [calculateSmartDelay] is capped: for every attempt number from 0 on it
    lies between the base delay and the cap (60 s and 300 s for a rate
    limit, 1 s and 30 s otherwise), and it is the cap from the attempt
    numbered 4 (rate limit) or 5 (otherwise) on. *)
Theorem calculateSmartDelay_capped
        (attempt : Z) (isRateLimit : bool) (Hattempt : 0 <= attempt) :
  let base := if isRateLimit then 60000 else 1000 in
  let cap := if isRateLimit then 300000 else 30000 in
  let last := if isRateLimit then 4 else 5 in
  exists q,
    RetryLogic.calculateSmartDelay attempt isRateLimit = Fin q
    /\ (inject_Z base <= q)%Q /\ (q <= inject_Z cap)%Q
    /\ (last <= attempt -> (q == inject_Z cap)%Q).
Proof.
  cbv zeta. unfold RetryLogic.calculateSmartDelay.
  destruct isRateLimit.
  - destruct (pow_fin (3 # 2) attempt) as [p [-> Hp]].
    assert (H1 : (1 <= p)%Q).
    { rewrite Hp. change 1%Q with ((3 # 2) ^ 0)%Q.
      apply Qpower_le_compat_l; [exact Hattempt|]. apply Qle_bool_imp_le. reflexivity. }
    assert (H4 : 4 <= attempt -> ((81 # 16) <= p)%Q).
    { intros H. rewrite Hp. change (81 # 16)%Q with ((3 # 2) ^ 4)%Q.
      apply Qpower_le_compat_l; [exact H|]. apply Qle_bool_imp_le. reflexivity. }
    unfold mul, min, of_Z.
    destruct (Qle_bool (inject_Z 60000 * p) (inject_Z 300000)) eqn:Hle.
    + apply Qle_bool_iff in Hle. exists (inject_Z 60000 * p)%Q.
      change (inject_Z 60000) with (60000 # 1)%Q in *.
      change (inject_Z 300000) with (300000 # 1)%Q in *.
      split; [reflexivity|]. split; [lra|]. split; [lra|].
      intros H. specialize (H4 H). lra.
    + exists (inject_Z 300000). split; [reflexivity|].
      change (inject_Z 60000) with (60000 # 1)%Q in *.
      change (inject_Z 300000) with (300000 # 1)%Q in *.
      split; [lra|]. split; [lra|]. intros _. reflexivity.
  - destruct (pow_fin (inject_Z 2) attempt) as [p [Hpow Hp]].
    unfold of_Z at 2. rewrite Hpow.
    assert (H1 : (1 <= p)%Q).
    { rewrite Hp. change 1%Q with ((inject_Z 2) ^ 0)%Q.
      apply Qpower_le_compat_l; [exact Hattempt|]. apply Qle_bool_imp_le. reflexivity. }
    assert (H5 : 5 <= attempt -> (32 <= p)%Q).
    { intros H. rewrite Hp. change 32%Q with ((inject_Z 2) ^ 5)%Q.
      apply Qpower_le_compat_l; [exact H|]. apply Qle_bool_imp_le. reflexivity. }
    unfold mul, min, of_Z.
    destruct (Qle_bool (inject_Z 1000 * p) (inject_Z 30000)) eqn:Hle.
    + apply Qle_bool_iff in Hle. exists (inject_Z 1000 * p)%Q.
      change (inject_Z 1000) with (1000 # 1)%Q in *.
      change (inject_Z 30000) with (30000 # 1)%Q in *.
      split; [reflexivity|]. split; [lra|]. split; [lra|].
      intros H. specialize (H5 H). lra.
    + exists (inject_Z 30000). split; [reflexivity|].
      change (inject_Z 1000) with (1000 # 1)%Q in *.
      change (inject_Z 30000) with (30000 # 1)%Q in *.
      split; [lra|]. split; [lra|]. intros _. reflexivity.
Qed.

Lemma calculateSmartDelay_capped_witness :
  exists q,
    RetryLogic.calculateSmartDelay 7 false = Fin q
    /\ (inject_Z 1000 <= q)%Q /\ (q <= inject_Z 30000)%Q
    /\ (5 <= 7 -> (q == inject_Z 30000)%Q).
Proof.
  apply (calculateSmartDelay_capped 7 false). lia.
Defined.

(** ** Rate limiter: what a check touches *)

(** A check writes the entry of its own key, stamped with the clock it
    read, and nothing else. *)
Lemma tokenBucket_writes_own_key key maxTokens refillRate now kv cache :
  exists t,
    snd (fst (RateLimit.tokenBucket key maxTokens refillRate now kv cache))
    = <[key := {| RateLimit.c_tokens := t;
                  RateLimit.c_lastRefill := now;
                  RateLimit.c_lastUpdate := now |}]> cache.
Proof.
  unfold RateLimit.tokenBucket. cbv zeta.
  match goal with
  | |- context [if ltb ?t (of_Z 1) then _ else _] => generalize t
  end.
  intros t. destruct (ltb t (of_Z 1)), (RateLimit.kv_put_throws kv);
    cbn [fst snd]; eexists; reflexivity.
Qed.

Lemma tokenBucket_put_throws key maxTokens refillRate now kv cache :
  RateLimit.kv_put_throws kv = true ->
  fst (fst (RateLimit.tokenBucket key maxTokens refillRate now kv cache)) = true
  /\ snd (RateLimit.tokenBucket key maxTokens refillRate now kv cache) = [].
Proof.
  intros H. unfold RateLimit.tokenBucket. cbv zeta. rewrite H.
  match goal with
  | |- context [if ltb ?t (of_Z 1) then _ else _] => generalize t
  end.
  intros t. destruct (ltb t (of_Z 1)); split; reflexivity.
Qed.

(** X11: the limiter fails open.  When the call that writes the bucket to
    the durable store throws, [checkCombinedRateLimit] admits the request
    whatever the buckets hold, and no write reaches the store. *)
Theorem rate_limit_fails_open
        (clientIP endpoint : string) (env : ProxyManager.Env)
        (i : RateLimit.CombinedInputs)
        (rateLimitCache : gmap string RateLimit.CachedEntry)
        (Hclient : RateLimit.kv_put_throws (RateLimit.kv_client i) = true)
        (Hproxy : RateLimit.kv_put_throws (RateLimit.kv_proxy i) = true) :
  let out := RateLimit.checkCombinedRateLimit clientIP endpoint env i rateLimitCache in
  fst (fst out) = {| RateLimit.allowed := true; RateLimit.reason := None |}
  /\ snd out = [].
Proof.
  cbv zeta. unfold RateLimit.checkCombinedRateLimit.
  unfold RateLimit.checkRateLimit, RateLimit.checkProxyRateLimit. cbv zeta.
  match goal with
  | |- context [RateLimit.tokenBucket ?k ?m ?r ?n ?kv ?c] =>
      pose proof (tokenBucket_put_throws k m r n kv c Hclient) as [H1 H2];
      destruct (RateLimit.tokenBucket k m r n kv c) as [[a1 c1] p1]
  end.
  cbn [fst snd] in H1, H2. subst a1 p1. cbn [negb].
  destruct (Str.truthy endpoint && negb (String.eqb endpoint RateLimit.DIRECT_URL)).
  - match goal with
    | |- context [RateLimit.tokenBucket ?k ?m ?r ?n ?kv ?c] =>
        pose proof (tokenBucket_put_throws k m r n kv c Hproxy) as [H3 H4];
        destruct (RateLimit.tokenBucket k m r n kv c) as [[a2 c2] p2]
    end.
    cbn [fst snd] in H3, H4. subst a2 p2. split; reflexivity.
  - split; reflexivity.
Qed.

Lemma rate_limit_fails_open_witness :
  let storeDown := {| RateLimit.kv_get := RateLimit.KvGetThrows;
                      RateLimit.kv_put_throws := true |} in
  let drained :=
    {[ "proxy_rate_limit:https://proxy.example"%string :=
         {| RateLimit.c_tokens := of_Z 0; RateLimit.c_lastRefill := 1000;
            RateLimit.c_lastUpdate := 1000 |} ]} in
  fst (fst (RateLimit.checkCombinedRateLimit "203.0.113.7" "https://proxy.example"
              Scenarios.noProxies
              {| RateLimit.now_cleanup := 1000; RateLimit.now_client := 1000;
                 RateLimit.kv_client := storeDown;
                 RateLimit.now_proxy := 1000; RateLimit.kv_proxy := storeDown |}
              drained))
  = {| RateLimit.allowed := true; RateLimit.reason := None |}.
Proof.
  cbv zeta.
  refine (proj1 (rate_limit_fails_open _ _ _ _ _ _ _)); reflexivity.
Defined.

Lemma append_inj_r (p a b : string) : (p ++ a)%string = (p ++ b)%string -> a = b.
Proof.
  induction p as [|c p IH]; intros H; [exact H|].
  change (String c (p ++ a)%string = String c (p ++ b)%string) in H.
  injection H as H. exact (IH H).
Qed.

Lemma bucket_keys_disjoint (a b : string) :
  ("rate_limit:" ++ a)%string <> ("proxy_rate_limit:" ++ b)%string.
Proof.
  intros H.
  change (String "r" ("ate_limit:" ++ a)%string
          = String "p" ("roxy_rate_limit:" ++ b)%string) in H.
  discriminate H.
Qed.

(** X12: client buckets and proxy buckets live in the same in-memory map
    under disjoint keys.  A client check leaves every proxy bucket and
    every other client's bucket as it was, and a proxy check leaves every
    client bucket and every other proxy's bucket as it was. *)
Theorem rate_limit_buckets_isolated
        (clientIP proxyUrl : string) (env : ProxyManager.Env) (now : Z)
        (kv : RateLimit.KvAnswer)
        (rateLimitCache : gmap string RateLimit.CachedEntry) :
  let afterClient :=
    snd (fst (RateLimit.checkRateLimit clientIP env now kv rateLimitCache)) in
  let afterProxy :=
    snd (fst (RateLimit.checkProxyRateLimit proxyUrl now kv rateLimitCache)) in
  (forall other,
      afterClient !! ("proxy_rate_limit:" ++ other)%string
      = rateLimitCache !! ("proxy_rate_limit:" ++ other)%string)
  /\ (forall other,
         other <> clientIP ->
         afterClient !! ("rate_limit:" ++ other)%string
         = rateLimitCache !! ("rate_limit:" ++ other)%string)
  /\ (forall other,
         afterProxy !! ("rate_limit:" ++ other)%string
         = rateLimitCache !! ("rate_limit:" ++ other)%string)
  /\ (forall other,
         other <> proxyUrl ->
         afterProxy !! ("proxy_rate_limit:" ++ other)%string
         = rateLimitCache !! ("proxy_rate_limit:" ++ other)%string).
Proof.
  cbv zeta. unfold RateLimit.checkRateLimit, RateLimit.checkProxyRateLimit. cbv zeta.
  destruct (tokenBucket_writes_own_key ("rate_limit:" ++ clientIP)
              (Config.TOKENS_PER_MINUTE (RateLimit.getDynamicRateLimits env))
              (Config.REFILL_RATE (RateLimit.getDynamicRateLimits env))
              now kv rateLimitCache) as [t1 ->].
  destruct (tokenBucket_writes_own_key ("proxy_rate_limit:" ++ proxyUrl)
              RateLimit.PROXY_MAX_TOKENS RateLimit.PROXY_REFILL_RATE
              now kv rateLimitCache) as [t2 ->].
  repeat split; intros other; intros; apply lookup_insert_ne; intros Heq.
  - exact (bucket_keys_disjoint _ _ Heq).
  - apply append_inj_r in Heq. congruence.
  - exact (bucket_keys_disjoint _ _ (eq_sym Heq)).
  - apply append_inj_r in Heq. congruence.
Qed.

Lemma rate_limit_buckets_isolated_witness :
  let proxyBucket := {| RateLimit.c_tokens := of_Z 3; RateLimit.c_lastRefill := 1000;
                        RateLimit.c_lastUpdate := 1000 |} in
  let cache := {[ "proxy_rate_limit:203.0.113.7"%string := proxyBucket ]} in
  snd (fst (RateLimit.checkRateLimit "203.0.113.7" Scenarios.noProxies 1000
              Scenarios.kvEmpty cache))
    !! ("proxy_rate_limit:" ++ "203.0.113.7")%string
  = cache !! ("proxy_rate_limit:" ++ "203.0.113.7")%string.
Proof.
  cbv zeta.
  exact (proj1 (rate_limit_buckets_isolated "203.0.113.7" "https://proxy.example"
                  Scenarios.noProxies 1000 Scenarios.kvEmpty _) "203.0.113.7"%string).
Defined.

(** ** Rate limiter: cleanup *)

Lemma cleanup_lookup (now : Z) (cache : gmap string RateLimit.CachedEntry)
      (key : string) (e : RateLimit.CachedEntry) :
  RateLimit.cleanupCacheIfNeeded now cache !! key = Some e
  <-> cache !! key = Some e
      /\ ((size cache <= 100)%nat
          \/ now - RateLimit.c_lastUpdate e <= RateLimit.CACHE_TTL * 2).
Proof.
  unfold RateLimit.cleanupCacheIfNeeded.
  destruct (Nat.ltb_spec 100 (size cache)) as [Hbig|Hsmall].
  - rewrite map_lookup_filter_Some. cbn [snd]. split.
    + intros [H1 H2]. split; [exact H1|right; exact H2].
    + intros [H1 [H2|H2]]; [lia|]. split; [exact H1|exact H2].
  - split.
    + intros H. split; [exact H|left; exact Hsmall].
    + intros [H _]. exact H.
Qed.

(** X13: [cleanupCacheIfNeeded] removes an entry only when the map holds
    more than 100 entries and the entry was last updated more than 10
    seconds before; it changes no entry.  Such an entry is older than the 5
    seconds for which a check trusts the in-memory map, so, the clock not
    running backwards by more than 5 seconds between the cleanup and the
    check, the cleanup does not change the decision of the check. *)
Theorem cleanup_keeps_live_entries
        (key : string) (maxTokens refillRate : number) (nowCleanup now : Z)
        (kv : RateLimit.KvAnswer)
        (rateLimitCache : gmap string RateLimit.CachedEntry)
        (Hclock : nowCleanup <= now + 5000) :
  (forall k e,
      RateLimit.cleanupCacheIfNeeded nowCleanup rateLimitCache !! k = Some e
      <-> rateLimitCache !! k = Some e
          /\ ((size rateLimitCache <= 100)%nat
              \/ nowCleanup - RateLimit.c_lastUpdate e <= 10000))
  /\ fst (fst (RateLimit.tokenBucket key maxTokens refillRate now kv
                 (RateLimit.cleanupCacheIfNeeded nowCleanup rateLimitCache)))
     = fst (fst (RateLimit.tokenBucket key maxTokens refillRate now kv rateLimitCache)).
Proof.
  split; [intros k e; apply cleanup_lookup|].
  assert (Hsame :
            match RateLimit.cleanupCacheIfNeeded nowCleanup rateLimitCache !! key with
            | Some cached =>
                if Z.ltb (now - RateLimit.c_lastUpdate cached) RateLimit.CACHE_TTL
                then Some cached else None
            | None => None
            end
            = match rateLimitCache !! key with
              | Some cached =>
                  if Z.ltb (now - RateLimit.c_lastUpdate cached) RateLimit.CACHE_TTL
                  then Some cached else None
              | None => None
              end).
  { destruct (rateLimitCache !! key) as [e|] eqn:He.
    - destruct (Z.ltb_spec (now - RateLimit.c_lastUpdate e) RateLimit.CACHE_TTL)
        as [Hlive|Hdead].
      + assert (Hk : RateLimit.cleanupCacheIfNeeded nowCleanup rateLimitCache !! key
                     = Some e).
        { apply cleanup_lookup. split; [exact He|].
          right. unfold RateLimit.CACHE_TTL in *. lia. }
        rewrite Hk.
        destruct (Z.ltb_spec (now - RateLimit.c_lastUpdate e) RateLimit.CACHE_TTL);
          [reflexivity|lia].
      + destruct (RateLimit.cleanupCacheIfNeeded nowCleanup rateLimitCache !! key)
          as [e'|] eqn:Hk; [|reflexivity].
        apply cleanup_lookup in Hk. destruct Hk as [Hk _].
        rewrite He in Hk. injection Hk as <-.
        destruct (Z.ltb_spec (now - RateLimit.c_lastUpdate e) RateLimit.CACHE_TTL);
          [lia|reflexivity].
    - destruct (RateLimit.cleanupCacheIfNeeded nowCleanup rateLimitCache !! key)
        as [e'|] eqn:Hk; [|reflexivity].
      apply cleanup_lookup in Hk. destruct Hk as [Hk _]. congruence. }
  unfold RateLimit.tokenBucket. cbv zeta.
  destruct (RateLimit.cleanupCacheIfNeeded nowCleanup rateLimitCache !! key) as [e1|];
    destruct (rateLimitCache !! key) as [e2|].
  - destruct (Z.ltb (now - RateLimit.c_lastUpdate e1) RateLimit.CACHE_TTL) eqn:H1;
      destruct (Z.ltb (now - RateLimit.c_lastUpdate e2) RateLimit.CACHE_TTL) eqn:H2;
      try discriminate Hsame.
    + injection Hsame as <-.
      match goal with
      | |- context [if ltb ?t (of_Z 1) then _ else _] => generalize t
      end.
      intros t. destruct (ltb t (of_Z 1)), (RateLimit.kv_put_throws kv); reflexivity.
    + match goal with
      | |- context [if ltb ?t (of_Z 1) then _ else _] => generalize t
      end.
      intros t. destruct (ltb t (of_Z 1)), (RateLimit.kv_put_throws kv); reflexivity.
  - destruct (Z.ltb (now - RateLimit.c_lastUpdate e1) RateLimit.CACHE_TTL) eqn:H1;
      try discriminate Hsame.
    match goal with
    | |- context [if ltb ?t (of_Z 1) then _ else _] => generalize t
    end.
    intros t. destruct (ltb t (of_Z 1)), (RateLimit.kv_put_throws kv); reflexivity.
  - destruct (Z.ltb (now - RateLimit.c_lastUpdate e2) RateLimit.CACHE_TTL) eqn:H2;
      try discriminate Hsame.
    match goal with
    | |- context [if ltb ?t (of_Z 1) then _ else _] => generalize t
    end.
    intros t. destruct (ltb t (of_Z 1)), (RateLimit.kv_put_throws kv); reflexivity.
  - match goal with
    | |- context [if ltb ?t (of_Z 1) then _ else _] => generalize t
    end.
    intros t. destruct (ltb t (of_Z 1)), (RateLimit.kv_put_throws kv); reflexivity.
Qed.

Lemma cleanup_keeps_live_entries_witness :
  fst (fst (RateLimit.tokenBucket "k" (of_Z 16) (of_Z 8) 2000 Scenarios.kvEmpty
              (RateLimit.cleanupCacheIfNeeded 1999 ∅)))
  = fst (fst (RateLimit.tokenBucket "k" (of_Z 16) (of_Z 8) 2000 Scenarios.kvEmpty ∅)).
Proof.
  refine (proj2 (cleanup_keeps_live_entries "k" (of_Z 16) (of_Z 8) 1999 2000
                   Scenarios.kvEmpty ∅ _)).
  lia.
Defined.

(** ** Proxy selection *)

Lemma split_length_pos (sep : ascii) (s : string) :
  (1 <= List.length (Str.split sep s))%nat.
Proof. unfold Str.split. rewrite split_go_length. lia. Qed.

Lemma Qfloor_index (random : Q) (n : nat) :
  (0 <= random)%Q -> (random < 1)%Q -> (1 <= n)%nat ->
  0 <= Qfloor (random * inject_Z (Z.of_nat n)) < Z.of_nat n.
Proof.
  intros H0 H1 Hn.
  assert (Hpos : (0 < inject_Z (Z.of_nat n))%Q).
  { change 0%Q with (inject_Z 0). rewrite <- Zlt_Qlt. lia. }
  split.
  - change 0 with (Qfloor 0). apply Qfloor_resp_le.
    apply Qmult_le_0_compat; [exact H0|apply Qlt_le_weak; exact Hpos].
  - rewrite Zlt_Qlt.
    apply Qle_lt_trans with (random * inject_Z (Z.of_nat n))%Q; [apply Qfloor_le|].
    rewrite <- (Qmult_1_l (inject_Z (Z.of_nat n))) at 2.
    apply Qmult_lt_compat_r; assumption.
Qed.

(** X14: with a non-empty [PROXY_URLS] and a draw of [Math.random()] in
    [0, 1), [selectProxy] returns one of the endpoints that
    [getProxyEndpoints] lists; with [PROXY_URLS] unset or empty it returns
    [null]. *)
Theorem selectProxy_picks_listed_endpoint
        (random : Q) (env : ProxyManager.Env)
        (Hlow : (0 <= random)%Q) (Hhigh : (random < 1)%Q) :
  match ProxyManager.PROXY_URLS env with
  | Some urls =>
      if Str.truthy urls then
        exists proxy,
          ProxyManager.selectProxy random env = Some proxy
          /\ In proxy (ProxyManager.await (ProxyManager.getProxyEndpoints env))
      else ProxyManager.selectProxy random env = None
  | None => ProxyManager.selectProxy random env = None
  end.
Proof.
  unfold ProxyManager.selectProxy, ProxyManager.getProxyEndpoints. cbv zeta.
  destruct (ProxyManager.PROXY_URLS env) as [urls|]; [|reflexivity].
  destruct (Str.truthy urls); [|reflexivity].
  cbn [ProxyManager.await].
  set (proxies := map (fun u => {| ProxyManager.url := u |})
                      (map Str.trimWs (Str.split "," urls))).
  assert (Hlen : (1 <= List.length proxies)%nat).
  { unfold proxies. rewrite !length_map. apply split_length_pos. }
  destruct (Nat.eqb_spec (List.length proxies) 0) as [H0|_]; [lia|].
  pose proof (Qfloor_index random (List.length proxies) Hlow Hhigh Hlen) as [Hi0 Hi1].
  destruct (Z.ltb_spec (Qfloor (random * inject_Z (Z.of_nat (List.length proxies)))) 0)
    as [Hneg|_]; [lia|].
  destruct (nth_error proxies
              (Z.to_nat (Qfloor (random * inject_Z (Z.of_nat (List.length proxies))))))
    as [p|] eqn:Hnth.
  - exists p. split; [reflexivity|]. exact (nth_error_In _ _ Hnth).
  - apply nth_error_None in Hnth. lia.
Qed.

Lemma selectProxy_picks_listed_endpoint_witness :
  exists proxy,
    ProxyManager.selectProxy (3 # 4)
      {| ProxyManager.PROXY_URLS := Some "https://a.example, https://b.example"%string |}
    = Some proxy
    /\ In proxy (ProxyManager.await
                   (ProxyManager.getProxyEndpoints
                      {| ProxyManager.PROXY_URLS :=
                           Some "https://a.example, https://b.example"%string |})).
Proof.
  apply (selectProxy_picks_listed_endpoint (3 # 4)
           {| ProxyManager.PROXY_URLS :=
                Some "https://a.example, https://b.example"%string |}).
  - apply Qle_bool_imp_le. reflexivity.
  - reflexivity.
Defined.

(** ** Error responses *)

Lemma createErrorResponse_returns (random : Q) (error : thrown) :
  exists r,
    ErrorHandler.response (ErrorHandler.createErrorResponse random error) = Return r
    /\ Types.code r
       = ErrorHandler.httpStatus (ErrorHandler.createErrorResponse random error)
    /\ Types.data r = None.
Proof.
  unfold ErrorHandler.createErrorResponse. cbv zeta.
  cbn [ErrorHandler.response ErrorHandler.httpStatus].
  match goal with
  | |- context [Types.createStandardResponse random ?st] => generalize st
  end.
  intros st. unfold Types.createStandardResponse. cbv zeta.
  destruct (negb (eqb st (of_Z 200))).
  - eexists. split; [reflexivity|]. split; reflexivity.
  - cbn [Types.upperOr]. eexists. split; [reflexivity|]. split; reflexivity.
Qed.

(** X15: on the thrown values that [Js.thrown] represents, that is
    [undefined] and objects with a string [message] whose [status] and
    [code] are values that [Number] converts, [createErrorResponse] does not
    throw: it yields a response whose code is the HTTP status it reports
    and whose data is [null], and that status is an integer from 200 to
    599.  This includes the status 200, for which [createStandardResponse]
    takes the branch that upper-cases the language tags. *)
Theorem createErrorResponse_answers (random : Q) (error : thrown) :
  let out := ErrorHandler.createErrorResponse random error in
  (exists r,
      ErrorHandler.response out = Return r
      /\ Types.code r = ErrorHandler.httpStatus out
      /\ Types.data r = None)
  /\ ErrorHandler.isValidHttpStatusCode (Num (ErrorHandler.httpStatus out)) = true.
Proof.
  cbv zeta. split; [apply createErrorResponse_returns|apply httpStatus_valid].
Qed.

(** ** Language tags and client addresses *)

Lemma map_string_length (f : ascii -> ascii) (s : string) :
  String.length (Str.map_string f s) = String.length s.
Proof. induction s as [|c s IH]; simpl; [reflexivity|rewrite IH; reflexivity]. Qed.

Lemma lang_char_lower (c : ascii) :
  Security.is_lang_char c = true -> Str.lower_ascii c = c.
Proof.
  unfold Security.is_lang_char, Str.lower_ascii. cbv zeta.
  generalize (nat_of_ascii c). intros n H.
  destruct (Nat.leb_spec 65 n), (Nat.leb_spec n 90); cbn [andb]; try reflexivity.
  exfalso.
  destruct (Nat.leb_spec 97 n), (Nat.leb_spec n 122), (Nat.leb_spec 48 n),
    (Nat.leb_spec n 57), (Nat.eqb_spec n 45); cbn in H; try discriminate H; lia.
Qed.

Lemma lang_char_not_white (c : ascii) :
  Security.is_lang_char c = true -> Str.is_white c = false.
Proof.
  unfold Security.is_lang_char, Str.is_white. cbv zeta.
  generalize (nat_of_ascii c). intros n H.
  destruct (Nat.eqb_spec n 32), (Nat.leb_spec 9 n), (Nat.leb_spec n 13),
    (Nat.eqb_spec n 160); cbn; try reflexivity; exfalso;
    destruct (Nat.leb_spec 97 n), (Nat.leb_spec n 122), (Nat.leb_spec 48 n),
      (Nat.leb_spec n 57), (Nat.eqb_spec n 45); cbn in H; try discriminate H; lia.
Qed.

Lemma lang_chars_lower (s : string) :
  Str.forall_chars Security.is_lang_char s = true -> Str.toLowerCase s = s.
Proof.
  induction s as [|c s IH]; [reflexivity|].
  cbn [Str.forall_chars]. intros H. apply andb_prop in H. destruct H as [Hc Hs].
  unfold Str.toLowerCase in *. cbn [Str.map_string].
  rewrite (lang_char_lower c Hc), (IH Hs). reflexivity.
Qed.

Lemma forall_chars_rev (p : ascii -> bool) (s : string) :
  forall acc,
    Str.forall_chars p (Str.rev_string s acc)
    = Str.forall_chars p s && Str.forall_chars p acc.
Proof.
  induction s as [|c s IH]; intros acc; [reflexivity|].
  cbn [Str.rev_string Str.forall_chars]. rewrite IH. cbn [Str.forall_chars].
  destruct (p c), (Str.forall_chars p s), (Str.forall_chars p acc); reflexivity.
Qed.

Lemma string_app_nil_r (s : string) : (s ++ "")%string = s.
Proof.
  induction s as [|c s IH]; [reflexivity|].
  change (String c s ++ "")%string with (String c (s ++ "")%string).
  rewrite IH. reflexivity.
Qed.

Lemma rev_string_rev (s : string) :
  forall acc acc',
    Str.rev_string (Str.rev_string s acc) acc' = Str.rev_string acc (s ++ acc')%string.
Proof.
  induction s as [|c s IH]; intros acc acc'; [reflexivity|].
  cbn [Str.rev_string]. rewrite IH. reflexivity.
Qed.

Lemma trimStart_lang (s : string) :
  Str.forall_chars Security.is_lang_char s = true -> Str.trimStart s = s.
Proof.
  destruct s as [|c s]; [reflexivity|].
  cbn [Str.forall_chars Str.trimStart]. intros H.
  apply andb_prop in H. destruct H as [Hc _].
  rewrite (lang_char_not_white c Hc). reflexivity.
Qed.

Lemma trimWs_lang (s : string) :
  Str.forall_chars Security.is_lang_char s = true -> Str.trimWs s = s.
Proof.
  intros H. unfold Str.trimWs. rewrite (trimStart_lang s H).
  rewrite trimStart_lang.
  - rewrite rev_string_rev. cbn [Str.rev_string]. apply string_app_nil_r.
  - rewrite forall_chars_rev, H. reflexivity.
Qed.

Lemma eqb_length (a b : string) :
  String.eqb a b = true -> String.length a = String.length b.
Proof. intros H. apply String.eqb_eq in H. rewrite H. reflexivity. Qed.

(** A tag of at most five characters names no member that object literals
    inherit, so [normalizeLanguageCode] gives a string for it. *)
Lemma normalizeLanguageCode_short (s : string) :
  (String.length s <= 5)%nat ->
  exists u, Query.normalizeLanguageCode s = Types.LangStr u.
Proof.
  intros Hlen. unfold Query.normalizeLanguageCode.
  destruct (negb (Str.truthy s) || String.eqb (Str.toLowerCase s) "auto");
    [eexists; reflexivity|].
  cbv zeta. unfold Query.languageMap_get.
  destruct (Query.assoc (Str.toLowerCase s) Query.languageMap) as [v|].
  - cbn [Query.lang_truthy]. destruct (Str.truthy v); eexists; reflexivity.
  - assert (Hno : existsb (String.eqb (Str.toLowerCase s)) Query.inheritedKeys = false).
    { unfold Query.inheritedKeys. cbn [existsb].
      destruct (String.eqb (Str.toLowerCase s) "constructor") eqn:H1.
      - apply eqb_length in H1. unfold Str.toLowerCase in H1.
        rewrite map_string_length in H1. cbn in H1. lia.
      - destruct (String.eqb (Str.toLowerCase s) "__proto__") eqn:H2; [|reflexivity].
        apply eqb_length in H2. unfold Str.toLowerCase in H2.
        rewrite map_string_length in H2. cbn in H2. lia. }
    rewrite Hno. eexists. reflexivity.
Qed.

Lemma validateLanguageCode_inv (langCode t : string) :
  Security.validateLanguageCode langCode = Some t ->
  (2 <= String.length t <= 5)%nat
  /\ Str.forall_chars Security.is_lang_char t = true.
Proof.
  unfold Security.validateLanguageCode. cbv zeta.
  set (normalized := Str.trimWs (Str.toLowerCase langCode)).
  destruct (Nat.ltb_spec (String.length normalized) 2) as [|H2]; [discriminate|].
  destruct (Nat.ltb_spec 5 (String.length normalized)) as [|H5]; [discriminate|].
  cbn [orb].
  destruct (Str.forall_chars Security.is_lang_char normalized) eqn:Hc; [|discriminate].
  cbn [negb]. intros H. injection H as <-. split; [lia|exact Hc].
Qed.

(** X16: a tag that [validateLanguageCode] accepts has two to five
    characters, all of them lower-case letters, digits or hyphens;
    validating it again returns it unchanged; and
    [normalizeLanguageCode] maps it to a string, never to a member
    inherited from [Object.prototype]. *)
Theorem validateLanguageCode_sound
        (langCode t : string)
        (Hvalid : Security.validateLanguageCode langCode = Some t) :
  (2 <= String.length t <= 5)%nat
  /\ Str.forall_chars Security.is_lang_char t = true
  /\ Security.validateLanguageCode t = Some t
  /\ exists u, Query.normalizeLanguageCode t = Types.LangStr u.
Proof.
  destruct (validateLanguageCode_inv langCode t Hvalid) as [Hlen Hchars].
  split; [exact Hlen|]. split; [exact Hchars|]. split.
  - unfold Security.validateLanguageCode. cbv zeta.
    rewrite (lang_chars_lower t Hchars), (trimWs_lang t Hchars), Hchars.
    destruct (Nat.ltb_spec (String.length t) 2); [lia|].
    destruct (Nat.ltb_spec 5 (String.length t)); [lia|]. reflexivity.
  - apply normalizeLanguageCode_short. lia.
Qed.

Lemma validateLanguageCode_sound_witness :
  Security.validateLanguageCode "pt-br" = Some "pt-br"%string
  /\ exists u, Query.normalizeLanguageCode "pt-br" = Types.LangStr u.
Proof.
  exact (proj2 (proj2 (validateLanguageCode_sound " PT-BR " "pt-br" eq_refl))).
Defined.

(** X17: [getSecureClientIP] returns only addresses that pass [isValidIP]:
    the value of [CF-Connecting-IP], or else the trimmed first element of
    [X-Forwarded-For]; the fallback [getClientIP] of the rate limiter
    applies no such check but never returns the empty string. *)
Theorem getSecureClientIP_valid (headers : string -> option string) :
  (forall ip,
      Security.getSecureClientIP headers = Some ip ->
      Security.isValidIP ip = true
      /\ Str.truthy ip = true
      /\ (headers "CF-Connecting-IP"%string = Some ip
          \/ exists forwardedFor,
               headers "X-Forwarded-For"%string = Some forwardedFor
               /\ ip = Str.trimWs (Str.firstPiece "," forwardedFor)))
  /\ Str.truthy (RateLimit.getClientIP headers) = true.
Proof.
  split.
  - intros ip. unfold Security.getSecureClientIP. cbv zeta.
    assert (Hfwd :
              match headers "X-Forwarded-For"%string with
              | Some forwardedFor =>
                  if Str.truthy forwardedFor then
                    if Str.truthy (Str.trimWs (Str.firstPiece "," forwardedFor))
                       && Security.isValidIP (Str.trimWs (Str.firstPiece "," forwardedFor))
                    then Some (Str.trimWs (Str.firstPiece "," forwardedFor)) else None
                  else None
              | None => None
              end = Some ip ->
              Security.isValidIP ip = true /\ Str.truthy ip = true
              /\ (headers "CF-Connecting-IP"%string = Some ip
                  \/ exists forwardedFor,
                       headers "X-Forwarded-For"%string = Some forwardedFor
                       /\ ip = Str.trimWs (Str.firstPiece "," forwardedFor))).
    { destruct (headers "X-Forwarded-For"%string) as [f|]; [|discriminate].
      destruct (Str.truthy f); [|discriminate].
      destruct (Str.truthy (Str.trimWs (Str.firstPiece "," f))) eqn:Ht; [|discriminate].
      destruct (Security.isValidIP (Str.trimWs (Str.firstPiece "," f))) eqn:Hv;
        [|discriminate].
      cbn [andb]. intros H. injection H as <-.
      split; [exact Hv|]. split; [exact Ht|]. right. exists f. split; reflexivity. }
    destruct (headers "CF-Connecting-IP"%string) as [cf|]; [|exact Hfwd].
    destruct (Str.truthy cf) eqn:Ht; [|exact Hfwd].
    destruct (Security.isValidIP cf) eqn:Hv; [|exact Hfwd].
    cbn [andb]. intros H. injection H as <-.
    split; [exact Hv|]. split; [exact Ht|]. left. reflexivity.
  - unfold RateLimit.getClientIP. cbv zeta.
    destruct (headers "CF-Connecting-IP"%string) as [cf|].
    + destruct (Str.truthy cf) eqn:Ht; [exact Ht|].
      match goal with |- context [if Str.truthy ?f then _ else _] =>
        destruct (Str.truthy f) eqn:Hf; [exact Hf|reflexivity] end.
    + match goal with |- context [if Str.truthy ?f then _ else _] =>
        destruct (Str.truthy f) eqn:Hf; [exact Hf|reflexivity] end.
Qed.

Lemma getSecureClientIP_valid_witness :
  Security.isValidIP "203.0.113.7" = true.
Proof.
  exact (proj1 (proj1 (getSecureClientIP_valid
                         (fun h => if String.eqb h "X-Forwarded-For"
                                   then Some " 203.0.113.7 , 10.0.0.1"%string
                                   else None))
                      "203.0.113.7"%string eq_refl)).
Defined.

(** ** The retry loop, one iteration at a time *)

Section RetrySteps.
Context {W T : Type}.
Variable operation : W -> completion T thrown * W.
Variable options : RetryLogic.RetryOptions.

Import RetryLogic.

Lemma retryLoop_step_return (n : nat) attempt lastError (r : Run W) v w' :
  operation (world r) = (Return v, w') ->
  retryLoop operation options (S n) attempt lastError r
  = (Return v, {| world := w'; invocations := S (invocations r); delays := delays r |}).
Proof. intros H. cbn [retryLoop]. rewrite H. reflexivity. Qed.

Lemma retryLoop_step_fatal (n : nat) attempt lastError (r : Run W) e w' :
  operation (world r) = (Throw e, w') ->
  isRetryable options e = false ->
  retryLoop operation options (S n) attempt lastError r
  = (Throw e, {| world := w'; invocations := S (invocations r); delays := delays r |}).
Proof. intros H He. cbn [retryLoop]. rewrite H, He. reflexivity. Qed.

Lemma retryLoop_step_retry (n : nat) attempt lastError (r : Run W) e w' :
  operation (world r) = (Throw e, w') ->
  isRetryable options e = true ->
  retryLoop operation options (S n) attempt lastError r
  = retryLoop operation options n (attempt + 1) e
      {| world := w'; invocations := S (invocations r);
         delays := delays r ++ [div (backoffDelay options attempt) (of_Z 1000)] |}.
Proof. intros H He. cbn [retryLoop]. rewrite H, He. reflexivity. Qed.

(** A relation between states that every call of the operation respects
    holds between the state a run starts from and the state it leaves. *)
Variable R : W -> W -> Prop.
Hypothesis R_refl : forall w, R w w.
Hypothesis R_trans : forall a b c, R a b -> R b c -> R a c.
Hypothesis R_step : forall w, R w (snd (operation w)).

Lemma retryLoop_related (n : nat) :
  forall attempt lastError (r : Run W),
    R (world r) (world (snd (retryLoop operation options n attempt lastError r))).
Proof.
  induction n as [|n IH]; intros attempt lastError r; cbn [retryLoop].
  - apply R_refl.
  - pose proof (R_step (world r)) as Hstep.
    destruct (operation (world r)) as [res w']. cbn [snd] in Hstep.
    destruct res as [v|e]; [exact Hstep|].
    destruct (isRetryable options e); [|exact Hstep].
    eapply R_trans; [exact Hstep|].
    match goal with
    | |- R _ (world (snd (retryLoop _ _ _ _ _ ?r2))) =>
        exact (IH (attempt + 1) e r2)
    end.
Qed.

Lemma retryWithBackoff_related (w : W) :
  R w (world (snd (retryWithBackoff operation options w))).
Proof. exact (retryLoop_related _ 0 ThrownUndefined (start w)). Qed.

End RetrySteps.

(** ** Building the request *)

Lemma getTimestamp_positive (timestamp letterCount : Z) :
  0 < timestamp -> 0 < Query.getTimestamp timestamp letterCount.
Proof.
  intros H. unfold Query.getTimestamp. cbv zeta.
  destruct (Z.max 0 letterCount =? 0); [exact H|].
  destruct ((Z.max 0 letterCount + 1 <=? 0) || (1000 <? Z.max 0 letterCount + 1));
    [exact H|].
  match goal with
  | |- context [if (0 <? ?m) && _ && _ then _ else _] =>
      destruct (Z.ltb_spec 0 m) as [Hm|_]; cbn [andb]; [|exact H];
      destruct ((m <=? Query.MAX_SAFE_INTEGER) && (timestamp - 1000 <=? m));
      [exact Hm|exact H]
  end.
Qed.

Lemma buildRequestBody_returns (i : Query.BuildInputs) (data : Types.RequestParams) :
  Str.truthy (Types.text data) = true ->
  Z.of_nat (String.length (Types.text data)) <= Config.MAX_TEXT_LENGTH ->
  0 < Query.now_timestamp i ->
  Query.payloadSize i <= Config.MAX_REQUEST_SIZE ->
  exists body,
    Query.buildRequestBody i data = Return body
    /\ Query.texts (Query.payload body)
       = [(Types.text data, Query.REQUEST_ALTERNATIVES)].
Proof.
  intros Htext Hlen Hclock Hsize. unfold Query.buildRequestBody.
  rewrite Htext. cbn [negb]. cbv zeta.
  destruct (Z.ltb_spec Config.MAX_TEXT_LENGTH
              (Z.of_nat (String.length (Types.text data)))) as [|_]; [lia|].
  pose proof (getTimestamp_positive (Query.now_timestamp i)
                (Query.countLetterI (Types.text data)) Hclock) as Hts.
  destruct (Z.leb_spec (Query.getTimestamp (Query.now_timestamp i)
                          (Query.countLetterI (Types.text data))) 0) as [|_]; [lia|].
  destruct (Z.ltb_spec Config.MAX_REQUEST_SIZE (Query.payloadSize i)) as [|_]; [lia|].
  eexists. split; reflexivity.
Qed.

Lemma buildRequestBody_inv (i : Query.BuildInputs) (data : Types.RequestParams) body :
  Query.buildRequestBody i data = Return body ->
  Str.truthy (Types.text data) = true
  /\ Z.of_nat (String.length (Types.text data)) <= Config.MAX_TEXT_LENGTH
  /\ Query.texts (Query.payload body)
     = [(Types.text data, Query.REQUEST_ALTERNATIVES)]
  /\ 0 < Query.rd_timestamp (Query.payload body).
Proof.
  unfold Query.buildRequestBody.
  destruct (Str.truthy (Types.text data)); [|discriminate]. cbn [negb]. cbv zeta.
  destruct (Z.ltb_spec Config.MAX_TEXT_LENGTH
              (Z.of_nat (String.length (Types.text data)))) as [|Hlen]; [discriminate|].
  destruct (Z.leb_spec (Query.getTimestamp (Query.now_timestamp i)
                          (Query.countLetterI (Types.text data))) 0) as [|Hts];
    [discriminate|].
  destruct (Z.ltb Config.MAX_REQUEST_SIZE (Query.payloadSize i)); [discriminate|].
  intros H. injection H as <-. cbn [Query.payload Query.texts Query.rd_timestamp].
  repeat split; assumption.
Qed.

(** X18: [validateTextLength] and [buildRequestBody] agree on the text: a
    text that [validateTextLength] accepts is turned into a request that
    carries it unchanged, provided the clock is positive and the rendered
    payload is within the size limit; a text that it rejects makes
    [buildRequestBody] throw, whatever the other inputs. *)
Theorem validateTextLength_agrees_with_buildRequestBody
        (i : Query.BuildInputs) (data : Types.RequestParams)
        (Hclock : 0 < Query.now_timestamp i)
        (Hsize : Query.payloadSize i <= Config.MAX_REQUEST_SIZE) :
  if TextUtils.isValid (TextUtils.validateTextLength (Types.text data))
  then exists body,
         Query.buildRequestBody i data = Return body
         /\ Query.texts (Query.payload body)
            = [(Types.text data, Query.REQUEST_ALTERNATIVES)]
  else exists e, forall i', Query.buildRequestBody i' data = Throw (ThrownError e).
Proof.
  unfold TextUtils.validateTextLength.
  destruct (Types.text data) as [|c rest] eqn:Htext.
  - cbn. eexists. intros i'. unfold Query.buildRequestBody. rewrite Htext. reflexivity.
  - cbn [String.length Nat.eqb].
    destruct (Z.leb_spec (Z.of_nat (S (String.length rest))) Config.MAX_TEXT_LENGTH)
      as [Hle|Hgt]; cbn [TextUtils.isValid].
    + rewrite <- Htext. apply buildRequestBody_returns; try assumption.
      * rewrite Htext. reflexivity.
      * rewrite Htext. exact Hle.
    + eexists. intros i'. unfold Query.buildRequestBody. rewrite Htext.
      cbn [Str.truthy negb]. cbv zeta. cbn [String.length].
      destruct (Z.ltb_spec Config.MAX_TEXT_LENGTH (Z.of_nat (S (String.length rest))))
        as [_|]; [reflexivity|lia].
Qed.

Lemma validateTextLength_agrees_with_buildRequestBody_witness :
  exists body,
    Query.buildRequestBody
      {| Query.now_id := 1700000000123; Query.random_id := 1 # 2;
         Query.now_timestamp := 1700000000123; Query.payloadSize := 200 |}
      Scenarios.hello
    = Return body
    /\ Query.texts (Query.payload body) = [("Hello"%string, Query.REQUEST_ALTERNATIVES)].
Proof.
  apply (validateTextLength_agrees_with_buildRequestBody
           {| Query.now_id := 1700000000123; Query.random_id := 1 # 2;
              Query.now_timestamp := 1700000000123; Query.payloadSize := 200 |}
           Scenarios.hello).
  - reflexivity.
  - vm_compute. discriminate.
Defined.

(** ** What one attempt and one query do to the process state *)

(** One attempt: the attempt counter grows by one; at most one transport
    call is appended, and a call carries the request text, which then is not
    empty and not longer than the limit; without an environment the rate
    limiter is not consulted. *)
Lemma attempt_effects params config inputs (w : Query.World) :
  let w' := snd (Query.attempt params config inputs w) in
  Query.attemptsStarted w' = S (Query.attemptsStarted w)
  /\ (exists calls,
         Query.transportCalls w' = Query.transportCalls w ++ calls
         /\ (List.length calls <= 1)%nat
         /\ Forall (fun c =>
                      Query.texts (Query.payload (Query.call_body c))
                      = [(Types.text params, Query.REQUEST_ALTERNATIVES)]
                      /\ Str.truthy (Types.text params) = true
                      /\ Z.of_nat (String.length (Types.text params))
                         <= Config.MAX_TEXT_LENGTH) calls)
  /\ (Query.config_env config = None ->
      Query.rateLimitCache w' = Query.rateLimitCache w
      /\ Query.kvPuts w' = Query.kvPuts w).
Proof.
  cbv zeta. unfold Query.attempt.
  assert (Hnone : forall l : list Query.TransportCall,
             exists calls, l = l ++ calls /\ (List.length calls <= 1)%nat
                           /\ Forall (fun c =>
                                Query.texts (Query.payload (Query.call_body c))
                                = [(Types.text params, Query.REQUEST_ALTERNATIVES)]
                                /\ Str.truthy (Types.text params) = true
                                /\ Z.of_nat (String.length (Types.text params))
                                   <= Config.MAX_TEXT_LENGTH) calls).
  { intros l. exists []. rewrite app_nil_r. repeat split; [simpl; lia|constructor]. }
  assert (Hone : forall (l : list Query.TransportCall) ep i b,
             Query.buildRequestBody i params = Return b ->
             exists calls,
               l ++ [{| Query.call_endpoint := ep; Query.call_body := b |}] = l ++ calls
               /\ (List.length calls <= 1)%nat
               /\ Forall (fun c =>
                            Query.texts (Query.payload (Query.call_body c))
                            = [(Types.text params, Query.REQUEST_ALTERNATIVES)]
                            /\ Str.truthy (Types.text params) = true
                            /\ Z.of_nat (String.length (Types.text params))
                               <= Config.MAX_TEXT_LENGTH) calls).
  { intros l ep i b Hb. eexists. split; [reflexivity|]. split; [simpl; lia|].
    constructor; [|constructor]. cbn [Query.call_body].
    destruct (buildRequestBody_inv i params b Hb) as [H1 [H2 [H3 _]]]. tauto. }
  destruct (Query.config_env config) as [e|].
  - destruct (RateLimit.checkCombinedRateLimit _ _ _ _ _) as [[res cache'] puts].
    destruct (negb (RateLimit.allowed res)); cbn.
    { split; [reflexivity|]. split; [apply Hnone|discriminate]. }
    destruct (Query.buildRequestBody _ _) as [b|err] eqn:Hb; cbn.
    + destruct (Query.fetchOutcome _) as [|err|resp]; [cbn| |cbn].
      * split; [reflexivity|]. split; [eapply Hone; exact Hb|discriminate].
      * destruct (String.eqb (name err) "AbortError"); cbn;
          (split; [reflexivity|]; split; [eapply Hone; exact Hb|discriminate]).
      * destruct (negb (Query.ok resp)); cbn.
        { split; [reflexivity|]. split; [eapply Hone; exact Hb|discriminate]. }
        destruct (Query.body resp) as [| |? ?| |? [l|] ?]; cbn;
          (split; [reflexivity|]; split; [eapply Hone; exact Hb|discriminate]).
    + destruct err as [|err].
      * cbn. split; [reflexivity|]. split; [apply Hnone|discriminate].
      * destruct (String.eqb (name err) "AbortError"); cbn;
          (split; [reflexivity|]; split; [apply Hnone|discriminate]).
  - cbn.
    destruct (Query.buildRequestBody _ _) as [b|err] eqn:Hb; cbn.
    + destruct (Query.fetchOutcome _) as [|err|resp]; [cbn| |cbn].
      * split; [reflexivity|]. split; [eapply Hone; exact Hb|]. intros _. split; reflexivity.
      * destruct (String.eqb (name err) "AbortError"); cbn;
          (split; [reflexivity|]; split; [eapply Hone; exact Hb|];
           intros _; split; reflexivity).
      * destruct (negb (Query.ok resp)); cbn.
        { split; [reflexivity|]. split; [eapply Hone; exact Hb|].
          intros _. split; reflexivity. }
        destruct (Query.body resp) as [| |? ?| |? [l|] ?]; cbn;
          (split; [reflexivity|]; split; [eapply Hone; exact Hb|];
           intros _; split; reflexivity).
    + destruct err as [|err].
      * cbn. split; [reflexivity|]. split; [apply Hnone|]. intros _. split; reflexivity.
      * destruct (String.eqb (name err) "AbortError"); cbn;
          (split; [reflexivity|]; split; [apply Hnone|]; intros _; split; reflexivity).
Qed.

(** Every invocation of the operation by the retry loop is one attempt. *)
Lemma retryLoop_attempts params config inputs (n : nat) :
  forall attempt lastError (r : RetryLogic.Run Query.World),
    (Query.attemptsStarted
       (RetryLogic.world
          (snd (RetryLogic.retryLoop (Query.attempt params config inputs)
                  Query.retryOptions n attempt lastError r)))
     + RetryLogic.invocations r
     = Query.attemptsStarted (RetryLogic.world r)
       + RetryLogic.invocations
           (snd (RetryLogic.retryLoop (Query.attempt params config inputs)
                   Query.retryOptions n attempt lastError r)))%nat.
Proof.
  induction n as [|n IH]; intros attempt lastError r;
    cbn [RetryLogic.retryLoop snd]; [lia|].
  pose proof (attempt_effects params config inputs (RetryLogic.world r)) as [H1 _].
  destruct (Query.attempt params config inputs (RetryLogic.world r)) as [res w1].
  cbn [snd] in H1.
  destruct res as [v|e]; cbn [snd RetryLogic.world RetryLogic.invocations]; [lia|].
  destruct (RetryLogic.isRetryable Query.retryOptions e);
    cbn [snd RetryLogic.world RetryLogic.invocations]; [|lia].
  match goal with
  | |- context [RetryLogic.retryLoop _ _ _ _ _ ?r2] =>
      specialize (IH (attempt + 1) e r2)
  end.
  cbn [RetryLogic.world RetryLogic.invocations] in IH. lia.
Qed.

(** X19: the effort of one [query] is bounded.  It starts at most three
    attempts; it appends at most one transport call per attempt to the
    calls made before, which it leaves in place; every call it makes
    carries the request text, which then is neither empty nor longer than
    5000 characters; and without an environment in the configuration it
    neither reads nor writes the rate limiter. *)
Theorem query_bounded_effort
        (params : option Types.RequestParams) (config : option Query.Config)
        (inputs : nat -> Query.AttemptInputs) (final : Query.FinalInputs)
        (w : Query.World) :
  let w' := snd (Query.query params config inputs final w) in
  (Query.attemptsStarted w <= Query.attemptsStarted w'
   <= Query.attemptsStarted w + 3)%nat
  /\ (exists calls,
         Query.transportCalls w' = Query.transportCalls w ++ calls
         /\ (List.length calls + Query.attemptsStarted w
             <= Query.attemptsStarted w')%nat
         /\ Forall (fun c =>
                      exists p,
                        params = Some p
                        /\ Query.texts (Query.payload (Query.call_body c))
                           = [(Types.text p, Query.REQUEST_ALTERNATIVES)]
                        /\ Str.truthy (Types.text p) = true
                        /\ Z.of_nat (String.length (Types.text p))
                           <= Config.MAX_TEXT_LENGTH) calls)
  /\ (Query.config_env config = None ->
      Query.rateLimitCache w' = Query.rateLimitCache w
      /\ Query.kvPuts w' = Query.kvPuts w).
Proof.
  cbv zeta.
  assert (Hidle :
            (Query.attemptsStarted w <= Query.attemptsStarted w
             <= Query.attemptsStarted w + 3)%nat
            /\ (exists calls,
                   Query.transportCalls w = Query.transportCalls w ++ calls
                   /\ (List.length calls + Query.attemptsStarted w
                       <= Query.attemptsStarted w)%nat
                   /\ Forall (fun c =>
                                exists p,
                                  params = Some p
                                  /\ Query.texts (Query.payload (Query.call_body c))
                                     = [(Types.text p, Query.REQUEST_ALTERNATIVES)]
                                  /\ Str.truthy (Types.text p) = true
                                  /\ Z.of_nat (String.length (Types.text p))
                                     <= Config.MAX_TEXT_LENGTH) calls)
            /\ (Query.config_env config = None ->
                Query.rateLimitCache w = Query.rateLimitCache w
                /\ Query.kvPuts w = Query.kvPuts w)).
  { split; [lia|]. split; [|intros _; split; reflexivity].
    exists []. rewrite app_nil_r. repeat split; [simpl; lia|constructor]. }
  unfold Query.query.
  destruct params as [p|]; [|exact Hidle].
  destruct (negb (Str.truthy (Types.text p))); [exact Hidle|].
  clear Hidle.
  set (R := fun a b : Query.World =>
              (Query.attemptsStarted a <= Query.attemptsStarted b)%nat
              /\ (exists calls,
                     Query.transportCalls b = Query.transportCalls a ++ calls
                     /\ (List.length calls + Query.attemptsStarted a
                         <= Query.attemptsStarted b)%nat
                     /\ Forall (fun c =>
                                  Query.texts (Query.payload (Query.call_body c))
                                  = [(Types.text p, Query.REQUEST_ALTERNATIVES)]
                                  /\ Str.truthy (Types.text p) = true
                                  /\ Z.of_nat (String.length (Types.text p))
                                     <= Config.MAX_TEXT_LENGTH) calls)
              /\ (Query.config_env config = None ->
                  Query.rateLimitCache b = Query.rateLimitCache a
                  /\ Query.kvPuts b = Query.kvPuts a)).
  assert (Hrel : R w (RetryLogic.world
                        (snd (RetryLogic.retryWithBackoff (Query.attempt p config inputs)
                                Query.retryOptions w)))).
  { apply retryWithBackoff_related.
    - intros a. unfold R. split; [lia|]. split; [|intros _; split; reflexivity].
      exists []. rewrite app_nil_r. repeat split; [simpl; lia|constructor].
    - intros a b c [Hab1 [[l1 [Hl1 [Hn1 Hf1]]] Hab3]] [Hbc1 [[l2 [Hl2 [Hn2 Hf2]]] Hbc3]].
      unfold R. split; [lia|]. split.
      + exists (l1 ++ l2). rewrite Hl2, Hl1, app_assoc. split; [reflexivity|].
        split; [rewrite length_app; lia|]. apply Forall_app. split; assumption.
      + intros Hnone. destruct (Hab3 Hnone) as [H1 H2].
        destruct (Hbc3 Hnone) as [H3 H4]. split; congruence.
    - intros a. destruct (attempt_effects p config inputs a) as [H1 [[l [Hl [Hn Hf]]] H3]].
      unfold R. split; [lia|]. split; [|exact H3].
      exists l. split; [exact Hl|]. split; [lia|exact Hf]. }
  assert (Hcount :
            (Query.attemptsStarted
               (RetryLogic.world
                  (snd (RetryLogic.retryWithBackoff (Query.attempt p config inputs)
                          Query.retryOptions w)))
             <= Query.attemptsStarted w + 3)%nat).
  { pose proof (retryWithBackoff_invocations_le (Query.attempt p config inputs)
                  Query.retryOptions w) as Hinv.
    change (Z.to_nat (RetryLogic.maxRetries Query.retryOptions)) with 3%nat in Hinv.
    pose proof (retryLoop_attempts p config inputs
                  (Z.to_nat (RetryLogic.maxRetries Query.retryOptions))
                  0 ThrownUndefined (RetryLogic.start w)) as Hm.
    cbn [RetryLogic.start RetryLogic.world RetryLogic.invocations] in Hm.
    unfold RetryLogic.retryWithBackoff in *.
    lia. }
  destruct (RetryLogic.retryWithBackoff (Query.attempt p config inputs)
              Query.retryOptions w) as [res run].
  cbn [snd] in Hrel, Hcount.
  assert (Hgoal :
            (Query.attemptsStarted w <= Query.attemptsStarted (RetryLogic.world run)
             <= Query.attemptsStarted w + 3)%nat
            /\ (exists calls,
                   Query.transportCalls (RetryLogic.world run)
                   = Query.transportCalls w ++ calls
                   /\ (List.length calls + Query.attemptsStarted w
                       <= Query.attemptsStarted (RetryLogic.world run))%nat
                   /\ Forall (fun c =>
                                exists p0,
                                  Some p = Some p0
                                  /\ Query.texts (Query.payload (Query.call_body c))
                                     = [(Types.text p0, Query.REQUEST_ALTERNATIVES)]
                                  /\ Str.truthy (Types.text p0) = true
                                  /\ Z.of_nat (String.length (Types.text p0))
                                     <= Config.MAX_TEXT_LENGTH) calls)
            /\ (Query.config_env config = None ->
                Query.rateLimitCache (RetryLogic.world run) = Query.rateLimitCache w
                /\ Query.kvPuts (RetryLogic.world run) = Query.kvPuts w)).
  { destruct Hrel as [H1 [[l [Hl [Hn Hf]]] H3]].
    split; [lia|]. split; [|exact H3].
    exists l. split; [exact Hl|]. split; [exact Hn|].
    eapply Forall_impl; [exact Hf|]. intros c [Hc1 [Hc2 Hc3]]. exists p.
    split; [reflexivity|]. split; [exact Hc1|]. split; [exact Hc2|exact Hc3]. }
  destruct res as [r|error]; exact Hgoal.
Qed.

Lemma query_bounded_effort_witness :
  Query.kvPuts
    (snd (Query.query (Some Scenarios.hello) None
            (fun _ => Scenarios.attemptAt 1700000000123 Scenarios.translated)
            Scenarios.finalInputs Scenarios.emptyWorld))
  = Query.kvPuts Scenarios.emptyWorld.
Proof.
  exact (proj2 (proj2 (proj2 (query_bounded_effort (Some Scenarios.hello) None
                                (fun _ => Scenarios.attemptAt 1700000000123
                                            Scenarios.translated)
                                Scenarios.finalInputs Scenarios.emptyWorld))
                      eq_refl)).
Defined.

(** ** Queries without an environment *)

(** Attempts made without an environment go to the configured endpoint or
    else to the direct upstream. *)
Lemma attempt_timeout params config inputs (w : Query.World) (endpoint : string) :
  Query.config_env config = None ->
  endpoint = match config with
             | Some c => match Query.proxyEndpoint c with
                         | Some ep => ep
                         | None => Query.API_URL
                         end
             | None => Query.API_URL
             end ->
  Str.truthy (Types.text params) = true ->
  Z.of_nat (String.length (Types.text params)) <= Config.MAX_TEXT_LENGTH ->
  0 < Query.now_timestamp (Query.buildInputs (inputs (Query.attemptsStarted w))) ->
  Query.payloadSize (Query.buildInputs (inputs (Query.attemptsStarted w)))
  <= Config.MAX_REQUEST_SIZE ->
  Query.fetchOutcome (inputs (Query.attemptsStarted w)) = Query.FetchAborted ->
  let out := Query.attempt params config inputs w in
  fst out = Throw (ThrownError (Query.timeoutError endpoint))
  /\ Query.attemptsStarted (snd out) = S (Query.attemptsStarted w)
  /\ map Query.call_endpoint (Query.transportCalls (snd out))
     = map Query.call_endpoint (Query.transportCalls w) ++ [endpoint].
Proof.
  intros Henv Hep Htext Hlen Hclock Hsize Hfetch. cbv zeta.
  destruct (buildRequestBody_returns _ params Htext Hlen Hclock Hsize) as [body [Hb _]].
  unfold Query.attempt. rewrite Henv. cbv zeta. rewrite Hb, Hfetch.
  cbn [fst snd Query.attemptsStarted Query.transportCalls].
  rewrite map_app. cbn [map Query.call_endpoint].
  destruct config as [[[pe|] ip env]|]; cbn in Hep; subst endpoint;
    repeat split; reflexivity.
Qed.

Lemma attempt_translation params config inputs (w : Query.World) (endpoint : string)
      translatedText lang resultId :
  Query.config_env config = None ->
  endpoint = match config with
             | Some c => match Query.proxyEndpoint c with
                         | Some ep => ep
                         | None => Query.API_URL
                         end
             | None => Query.API_URL
             end ->
  Str.truthy (Types.text params) = true ->
  Z.of_nat (String.length (Types.text params)) <= Config.MAX_TEXT_LENGTH ->
  0 < Query.now_timestamp (Query.buildInputs (inputs (Query.attemptsStarted w))) ->
  Query.payloadSize (Query.buildInputs (inputs (Query.attemptsStarted w)))
  <= Config.MAX_REQUEST_SIZE ->
  Query.fetchOutcome (inputs (Query.attemptsStarted w))
  = Query.FetchResponse {| Query.ok := true; Query.resp_status := of_Z 200;
                           Query.body := Query.BodyTranslation translatedText
                                           (Some lang) resultId |} ->
  let out := Query.attempt params config inputs w in
  fst out
  = Types.createStandardResponse
      (Query.random_response (inputs (Query.attemptsStarted w)))
      (of_Z 200) (Some translatedText) resultId
      (Some (Types.LangStr (Str.toUpperCase lang)))
      (Some (Query.normalizeLanguageCode (Types.target_lang params)))
  /\ Query.attemptsStarted (snd out) = S (Query.attemptsStarted w)
  /\ map Query.call_endpoint (Query.transportCalls (snd out))
     = map Query.call_endpoint (Query.transportCalls w) ++ [endpoint].
Proof.
  intros Henv Hep Htext Hlen Hclock Hsize Hfetch. cbv zeta.
  destruct (buildRequestBody_returns _ params Htext Hlen Hclock Hsize) as [body [Hb _]].
  unfold Query.attempt. rewrite Henv. cbv zeta. rewrite Hb, Hfetch.
  cbn [fst snd Query.attemptsStarted Query.transportCalls Query.ok Query.body negb].
  rewrite map_app. cbn [map Query.call_endpoint].
  destruct config as [[[pe|] ip env]|]; cbn in Hep; subst endpoint;
    repeat split; reflexivity.
Qed.

Lemma timeout_is_retryable (endpoint : string) :
  RetryLogic.isRetryable Query.retryOptions
    (ThrownError (Query.timeoutError endpoint)) = true.
Proof. reflexivity. Qed.

(** X20: a request whose every attempt runs into the deadline is tried
    exactly three times, each time on the same endpoint, and is answered
    with the status 408 and no data. *)
Theorem query_gives_up_after_three_timeouts
        (p : Types.RequestParams) (config : option Query.Config)
        (inputs : nat -> Query.AttemptInputs) (final : Query.FinalInputs)
        (w : Query.World) (endpoint : string)
        (Henv : Query.config_env config = None)
        (Hendpoint : endpoint = match config with
                                | Some c => match Query.proxyEndpoint c with
                                            | Some ep => ep
                                            | None => Query.API_URL
                                            end
                                | None => Query.API_URL
                                end)
        (Htext : Str.truthy (Types.text p) = true)
        (Hlen : Z.of_nat (String.length (Types.text p)) <= Config.MAX_TEXT_LENGTH)
        (Hclock : forall n, 0 < Query.now_timestamp (Query.buildInputs (inputs n)))
        (Hsize : forall n, Query.payloadSize (Query.buildInputs (inputs n))
                           <= Config.MAX_REQUEST_SIZE)
        (Hfetch : forall n, Query.fetchOutcome (inputs n) = Query.FetchAborted) :
  let out := Query.query (Some p) config inputs final w in
  (exists q,
      fst out = Return {| Types.code := of_Z 408;
                          Types.data := None;
                          Types.id := Fin q;
                          Types.r_source_lang := None;
                          Types.r_target_lang := None |})
  /\ Query.attemptsStarted (snd out) = (Query.attemptsStarted w + 3)%nat
  /\ map Query.call_endpoint (Query.transportCalls (snd out))
     = map Query.call_endpoint (Query.transportCalls w)
       ++ [endpoint; endpoint; endpoint].
Proof.
  cbv zeta. unfold Query.query. rewrite Htext. cbn [negb].
  unfold RetryLogic.retryWithBackoff.
  change (Z.to_nat (RetryLogic.maxRetries Query.retryOptions)) with 3%nat.
  pose proof (attempt_timeout p config inputs w endpoint Henv Hendpoint Htext Hlen
                (Hclock _) (Hsize _) (Hfetch _)) as [A1 [A2 A3]].
  destruct (Query.attempt p config inputs w) as [res1 w1] eqn:E1.
  cbn [fst snd] in A1, A2, A3. subst res1.
  rewrite (retryLoop_step_retry _ _ 2 0 ThrownUndefined (RetryLogic.start w) _ w1 E1
             (timeout_is_retryable endpoint)).
  pose proof (attempt_timeout p config inputs w1 endpoint Henv Hendpoint Htext Hlen
                (Hclock _) (Hsize _) (Hfetch _)) as [B1 [B2 B3]].
  destruct (Query.attempt p config inputs w1) as [res2 w2] eqn:E2.
  cbn [fst snd] in B1, B2, B3. subst res2.
  match goal with
  | |- context [RetryLogic.retryLoop _ _ 2 ?a ?e ?r] =>
      rewrite (retryLoop_step_retry _ _ 1 a e r _ w2 E2 (timeout_is_retryable endpoint))
  end.
  pose proof (attempt_timeout p config inputs w2 endpoint Henv Hendpoint Htext Hlen
                (Hclock _) (Hsize _) (Hfetch _)) as [C1 [C2 C3]].
  destruct (Query.attempt p config inputs w2) as [res3 w3] eqn:E3.
  cbn [fst snd] in C1, C2, C3. subst res3.
  match goal with
  | |- context [RetryLogic.retryLoop _ _ 1 ?a ?e ?r] =>
      rewrite (retryLoop_step_retry _ _ 0 a e r _ w3 E3 (timeout_is_retryable endpoint))
  end.
  cbn [RetryLogic.retryLoop RetryLogic.world fst snd].
  split; [|split].
  - unfold Types.createStandardResponse. eexists. reflexivity.
  - rewrite C2, B2, A2. lia.
  - rewrite C3, B3, A3, <- !app_assoc. reflexivity.
Qed.

Lemma query_gives_up_after_three_timeouts_witness :
  map Query.call_endpoint
    (Query.transportCalls
       (snd (Query.query (Some Scenarios.hello) None
               (fun _ => Scenarios.attemptAt 1700000000123 Query.FetchAborted)
               Scenarios.finalInputs Scenarios.emptyWorld)))
  = map Query.call_endpoint (Query.transportCalls Scenarios.emptyWorld)
    ++ [Query.API_URL; Query.API_URL; Query.API_URL].
Proof.
  refine (proj2 (proj2 (query_gives_up_after_three_timeouts Scenarios.hello None
                          (fun _ => Scenarios.attemptAt 1700000000123 Query.FetchAborted)
                          Scenarios.finalInputs Scenarios.emptyWorld Query.API_URL
                          _ _ _ _ _ _ _))).
  - reflexivity.
  - reflexivity.
  - reflexivity.
  - vm_compute. discriminate.
  - intros n. reflexivity.
  - intros n. vm_compute. discriminate.
  - intros n. reflexivity.
Defined.

Lemma createStandardResponse_200 random data id (s t : string) :
  exists r,
    Types.createStandardResponse random (of_Z 200) data id
      (Some (Types.LangStr s)) (Some (Types.LangStr t)) = Return r
    /\ Types.code r = of_Z 200
    /\ Types.data r = data.
Proof.
  unfold Types.createStandardResponse. cbv zeta.
  change (negb (eqb (of_Z 200) (of_Z 200))) with false. cbn [Types.upperOr].
  eexists. split; [reflexivity|]. split; reflexivity.
Qed.

(** X21: timeouts are retried.  Without an environment in the
    configuration, for a text that is not empty and has at most 5000
    characters, a positive clock, a payload within the size limit and a
    target tag that [normalizeLanguageCode] maps to a string: when fewer
    than three attempts in a row run into the deadline and the next one is
    answered with HTTP 200 and a translation that names its language,
    [query] returns that translation with the code 200, having made one
    transport call per attempt, all on the same endpoint. *)
Theorem query_succeeds_after_timeouts
        (p : Types.RequestParams) (config : option Query.Config)
        (inputs : nat -> Query.AttemptInputs) (final : Query.FinalInputs)
        (w : Query.World) (endpoint : string) (k : nat)
        (translatedText lang target : string) (resultId : option number)
        (Henv : Query.config_env config = None)
        (Hendpoint : endpoint = match config with
                                | Some c => match Query.proxyEndpoint c with
                                            | Some ep => ep
                                            | None => Query.API_URL
                                            end
                                | None => Query.API_URL
                                end)
        (Htext : Str.truthy (Types.text p) = true)
        (Hlen : Z.of_nat (String.length (Types.text p)) <= Config.MAX_TEXT_LENGTH)
        (Htarget : Query.normalizeLanguageCode (Types.target_lang p)
                   = Types.LangStr target)
        (Hclock : forall n, 0 < Query.now_timestamp (Query.buildInputs (inputs n)))
        (Hsize : forall n, Query.payloadSize (Query.buildInputs (inputs n))
                           <= Config.MAX_REQUEST_SIZE)
        (Hk : (k < 3)%nat)
        (Htimeouts : forall j, (j < k)%nat ->
                               Query.fetchOutcome (inputs (Query.attemptsStarted w + j)%nat)
                               = Query.FetchAborted)
        (Hanswer : Query.fetchOutcome (inputs (Query.attemptsStarted w + k)%nat)
                   = Query.FetchResponse
                       {| Query.ok := true; Query.resp_status := of_Z 200;
                          Query.body := Query.BodyTranslation translatedText
                                          (Some lang) resultId |}) :
  let out := Query.query (Some p) config inputs final w in
  (exists r,
      fst out = Return r
      /\ Types.code r = of_Z 200
      /\ Types.data r = Some translatedText)
  /\ Query.attemptsStarted (snd out) = (Query.attemptsStarted w + k + 1)%nat
  /\ map Query.call_endpoint (Query.transportCalls (snd out))
     = map Query.call_endpoint (Query.transportCalls w) ++ repeat endpoint (S k).
Proof.
  cbv zeta. unfold Query.query. rewrite Htext. cbn [negb].
  unfold RetryLogic.retryWithBackoff.
  change (Z.to_nat (RetryLogic.maxRetries Query.retryOptions)) with 3%nat.
  assert (Hsuccess :
            forall n attempt lastError (r : RetryLogic.Run Query.World),
              Query.attemptsStarted (RetryLogic.world r)
              = (Query.attemptsStarted w + k)%nat ->
              let out := RetryLogic.retryLoop (Query.attempt p config inputs)
                           Query.retryOptions (S n) attempt lastError r in
              (exists res,
                  fst out = Return res /\ Types.code res = of_Z 200
                  /\ Types.data res = Some translatedText)
              /\ Query.attemptsStarted (RetryLogic.world (snd out))
                 = S (Query.attemptsStarted (RetryLogic.world r))
              /\ map Query.call_endpoint (Query.transportCalls (RetryLogic.world (snd out)))
                 = map Query.call_endpoint (Query.transportCalls (RetryLogic.world r))
                   ++ [endpoint]).
  { intros n attempt lastError r Hr. cbv zeta.
    assert (Hans : Query.fetchOutcome (inputs (Query.attemptsStarted (RetryLogic.world r)))
                   = Query.FetchResponse
                       {| Query.ok := true; Query.resp_status := of_Z 200;
                          Query.body := Query.BodyTranslation translatedText
                                          (Some lang) resultId |})
      by (rewrite Hr; exact Hanswer).
    pose proof (attempt_translation p config inputs (RetryLogic.world r) endpoint
                  translatedText lang resultId Henv Hendpoint Htext Hlen
                  (Hclock _) (Hsize _) Hans) as [S1 [S2 S3]].
    rewrite Htarget in S1.
    destruct (createStandardResponse_200
                (Query.random_response
                   (inputs (Query.attemptsStarted (RetryLogic.world r))))
                (Some translatedText) resultId (Str.toUpperCase lang) target)
      as [res [Hres [Hcode Hdata]]].
    rewrite Hres in S1.
    destruct (Query.attempt p config inputs (RetryLogic.world r)) as [res1 w1] eqn:E1.
    cbn [fst snd] in S1, S2, S3. subst res1.
    rewrite (retryLoop_step_return _ _ n attempt lastError r res w1 E1).
    cbn [fst snd RetryLogic.world].
    split; [exists res; repeat split; assumption|]. split; assumption. }
  assert (Hretry :
            forall n j attempt lastError (r : RetryLogic.Run Query.World),
              (j < k)%nat ->
              Query.attemptsStarted (RetryLogic.world r)
              = (Query.attemptsStarted w + j)%nat ->
              exists r',
                RetryLogic.retryLoop (Query.attempt p config inputs)
                  Query.retryOptions (S n) attempt lastError r
                = RetryLogic.retryLoop (Query.attempt p config inputs)
                    Query.retryOptions n (attempt + 1)
                    (ThrownError (Query.timeoutError endpoint)) r'
                /\ Query.attemptsStarted (RetryLogic.world r')
                   = S (Query.attemptsStarted (RetryLogic.world r))
                /\ map Query.call_endpoint (Query.transportCalls (RetryLogic.world r'))
                   = map Query.call_endpoint (Query.transportCalls (RetryLogic.world r))
                     ++ [endpoint]).
  { intros n j attempt lastError r Hj Hr.
    assert (Habort : Query.fetchOutcome
                       (inputs (Query.attemptsStarted (RetryLogic.world r)))
                     = Query.FetchAborted)
      by (rewrite Hr; exact (Htimeouts j Hj)).
    pose proof (attempt_timeout p config inputs (RetryLogic.world r) endpoint
                  Henv Hendpoint Htext Hlen (Hclock _) (Hsize _) Habort) as [A1 [A2 A3]].
    destruct (Query.attempt p config inputs (RetryLogic.world r)) as [res1 w1] eqn:E1.
    cbn [fst snd] in A1, A2, A3. subst res1.
    eexists. split.
    - exact (retryLoop_step_retry _ _ n attempt lastError r _ w1 E1
               (timeout_is_retryable endpoint)).
    - cbn [RetryLogic.world]. split; assumption. }
  destruct k as [|[|[|k]]]; [| | |lia].
  - destruct (Hsuccess 2%nat 0 ThrownUndefined (RetryLogic.start w))
      as [[res [Hres [Hcode Hdata]]] [Hn Hcalls]].
    { cbn [RetryLogic.start RetryLogic.world]. lia. }
    destruct (RetryLogic.retryLoop _ _ 3 0 ThrownUndefined (RetryLogic.start w))
      as [res0 run].
    cbn [fst snd] in Hres, Hn, Hcalls. subst res0. cbn [fst snd].
    cbn [RetryLogic.start RetryLogic.world] in Hn, Hcalls.
    split; [exists res; repeat split; assumption|].
    split; [rewrite Hn; lia|exact Hcalls].
  - destruct (Hretry 2%nat 0%nat 0 ThrownUndefined (RetryLogic.start w))
      as [r1 [-> [Hn1 Hc1]]]; [lia|cbn [RetryLogic.start RetryLogic.world]; lia|].
    cbn [RetryLogic.start RetryLogic.world] in Hn1, Hc1.
    destruct (Hsuccess 1%nat (0 + 1) (ThrownError (Query.timeoutError endpoint)) r1)
      as [[res [Hres [Hcode Hdata]]] [Hn Hcalls]]; [lia|].
    destruct (RetryLogic.retryLoop _ _ 2 (0 + 1) _ r1) as [res0 run].
    cbn [fst snd] in Hres, Hn, Hcalls. subst res0. cbn [fst snd].
    split; [exists res; repeat split; assumption|].
    split; [rewrite Hn, Hn1; lia|].
    rewrite Hcalls, Hc1, <- app_assoc. reflexivity.
  - destruct (Hretry 2%nat 0%nat 0 ThrownUndefined (RetryLogic.start w))
      as [r1 [-> [Hn1 Hc1]]]; [lia|cbn [RetryLogic.start RetryLogic.world]; lia|].
    cbn [RetryLogic.start RetryLogic.world] in Hn1, Hc1.
    destruct (Hretry 1%nat 1%nat (0 + 1) (ThrownError (Query.timeoutError endpoint)) r1)
      as [r2 [-> [Hn2 Hc2]]]; [lia|lia|].
    destruct (Hsuccess 0%nat (0 + 1 + 1) (ThrownError (Query.timeoutError endpoint)) r2)
      as [[res [Hres [Hcode Hdata]]] [Hn Hcalls]]; [lia|].
    destruct (RetryLogic.retryLoop _ _ 1 (0 + 1 + 1) _ r2) as [res0 run].
    cbn [fst snd] in Hres, Hn, Hcalls. subst res0. cbn [fst snd].
    split; [exists res; repeat split; assumption|].
    split; [rewrite Hn, Hn2, Hn1; lia|].
    rewrite Hcalls, Hc2, Hc1, <- !app_assoc. reflexivity.
Qed.

Lemma query_succeeds_after_timeouts_witness :
  let inputs n :=
    Scenarios.attemptAt 1700000000123
      (if Nat.ltb n 2 then Query.FetchAborted else Scenarios.translated) in
  Query.attemptsStarted
    (snd (Query.query (Some Scenarios.hello) None inputs
            Scenarios.finalInputs Scenarios.emptyWorld))
  = (Query.attemptsStarted Scenarios.emptyWorld + 2 + 1)%nat.
Proof.
  cbv zeta.
  refine (proj1 (proj2 (query_succeeds_after_timeouts Scenarios.hello None
                          (fun n => Scenarios.attemptAt 1700000000123
                                      (if Nat.ltb n 2 then Query.FetchAborted
                                       else Scenarios.translated))
                          Scenarios.finalInputs Scenarios.emptyWorld Query.API_URL 2
                          "Hallo" "EN" "DE" (Some (of_Z 12345))
                          _ _ _ _ _ _ _ _ _ _))).
  - reflexivity.
  - reflexivity.
  - reflexivity.
  - vm_compute. discriminate.
  - reflexivity.
  - intros n. reflexivity.
  - intros n. vm_compute. discriminate.
  - lia.
  - intros [|[|j]] Hj; [reflexivity|reflexivity|lia].
  - reflexivity.
Defined.

(** ** The request handler *)

Lemma assoc_languageMap_length (k v : string) :
  Query.assoc k Query.languageMap = Some v -> String.length v = 2%nat.
Proof.
  unfold Query.languageMap. cbn [Query.assoc].
  repeat match goal with
         | |- (if String.eqb k ?x then _ else _) = _ -> _ =>
             destruct (String.eqb k x); [intros H; injection H as <-; reflexivity|]
         end.
  discriminate.
Qed.

(** A tag of at most five characters is normalised to a string of at most
    five characters. *)
Lemma normalizeLanguageCode_length (s : string) :
  (String.length s <= 5)%nat ->
  exists u, Query.normalizeLanguageCode s = Types.LangStr u
            /\ (String.length u <= 5)%nat.
Proof.
  intros Hlen. unfold Query.normalizeLanguageCode.
  destruct (negb (Str.truthy s) || String.eqb (Str.toLowerCase s) "auto").
  { eexists. split; [reflexivity|]. simpl. lia. }
  cbv zeta. unfold Query.languageMap_get.
  assert (Hup : (String.length (Str.toUpperCase (Str.toLowerCase s)) <= 5)%nat).
  { unfold Str.toUpperCase, Str.toLowerCase. rewrite !map_string_length. exact Hlen. }
  destruct (Query.assoc (Str.toLowerCase s) Query.languageMap) as [v|] eqn:Hv.
  - cbn [Query.lang_truthy]. apply assoc_languageMap_length in Hv.
    destruct (Str.truthy v); eexists; (split; [reflexivity|]); [lia|exact Hup].
  - assert (Hno : existsb (String.eqb (Str.toLowerCase s)) Query.inheritedKeys = false).
    { unfold Query.inheritedKeys. cbn [existsb].
      destruct (String.eqb (Str.toLowerCase s) "constructor") eqn:H1.
      - apply eqb_length in H1. unfold Str.toLowerCase in H1.
        rewrite map_string_length in H1. cbn in H1. lia.
      - destruct (String.eqb (Str.toLowerCase s) "__proto__") eqn:H2; [|reflexivity].
        apply eqb_length in H2. unfold Str.toLowerCase in H2.
        rewrite map_string_length in H2. cbn in H2. lia. }
    rewrite Hno. eexists. split; [reflexivity|exact Hup].
Qed.

Lemma languageOf_length (f : Index.Field) (fallback lang : string) :
  (String.length fallback <= 5)%nat ->
  Index.languageOf f fallback = Some lang ->
  (String.length lang <= 5)%nat.
Proof.
  intros Hfb. unfold Index.languageOf.
  destruct f as [|s|[|]].
  - intros H. injection H as <-. exact Hfb.
  - destruct (Str.truthy s).
    + intros H. apply validateLanguageCode_inv in H. lia.
    + intros H. injection H as <-. exact Hfb.
  - discriminate.
  - intros H. injection H as <-. exact Hfb.
Qed.

(** A status that [isValidHttpStatusCode] accepts is read by the [Response]
    constructor as the integer it is. *)
Lemma toUint16_valid (status : number) :
  ErrorHandler.isValidHttpStatusCode (Num status) = true ->
  200 <= Index.toUint16 status <= 599
  /\ eqb (of_Z (Index.toUint16 status)) status = true.
Proof.
  unfold ErrorHandler.isValidHttpStatusCode. cbn [toNumber]. cbv zeta.
  destruct status as [q|]; [|discriminate].
  cbn [isNaN negb andb leb isInteger of_Z].
  intros H. apply andb_prop in H. destruct H as [H Hint].
  apply andb_prop in H. destruct H as [Hlow Hhigh].
  apply Qle_bool_iff in Hlow. apply Qle_bool_iff in Hhigh. apply Qeq_bool_iff in Hint.
  assert (H0 : Qle_bool 0 q = true).
  { apply Qle_bool_iff. apply Qle_trans with (inject_Z 200); [|exact Hlow].
    apply Qle_bool_imp_le. reflexivity. }
  assert (Hrange : 200 <= Qfloor q <= 599).
  { rewrite <- Hint in Hlow, Hhigh.
    rewrite <- Zle_Qle in Hlow. rewrite <- Zle_Qle in Hhigh. lia. }
  unfold Index.toUint16. rewrite H0. rewrite Z.mod_small by lia.
  split; [exact Hrange|].
  unfold eqb, of_Z. apply Qeq_bool_iff. exact Hint.
Qed.

Lemma json_200 (body : Types.ResponseParams) (status : number) :
  eqb status (of_Z 200) = true ->
  Index.json body status
  = Return {| Index.http_status := of_Z 200; Index.http_body := body |}.
Proof.
  destruct status as [q|]; [|discriminate]. unfold eqb, of_Z. intros H.
  apply Qeq_bool_iff in H.
  assert (Hvalid : ErrorHandler.isValidHttpStatusCode (Num (Fin q)) = true).
  { unfold ErrorHandler.isValidHttpStatusCode. cbn [toNumber]. cbv zeta.
    cbn [isNaN negb andb leb isInteger of_Z].
    assert (Hf : Qfloor q = 200) by (rewrite H; reflexivity).
    rewrite Hf.
    assert (H1 : Qle_bool (inject_Z 200) q = true)
      by (apply Qle_bool_iff; rewrite H; apply Qle_refl).
    assert (H2 : Qle_bool q (inject_Z 599) = true)
      by (apply Qle_bool_iff; rewrite H; apply Qle_bool_imp_le; reflexivity).
    assert (H3 : Qeq_bool (inject_Z 200) q = true)
      by (apply Qeq_bool_iff; symmetry; exact H).
    rewrite H1, H2, H3. reflexivity. }
  destruct (toUint16_valid (Fin q) Hvalid) as [_ Heq].
  unfold eqb, of_Z in Heq. apply Qeq_bool_iff in Heq.
  assert (Hs : Index.toUint16 (Fin q) = 200).
  { apply inject_Z_injective. exact (Qeq_trans _ _ _ Heq H). }
  unfold Index.json. cbv zeta. rewrite Hs. reflexivity.
Qed.

(** An error without status and code, as [c.json] throws them, is answered
    with the status 500. *)
Lemma failure_500 (i : Index.HandlerInputs) (error : thrown) :
  value_truthy (ErrorHandler.status_of error) = false ->
  value_truthy (ErrorHandler.code_of error) = false ->
  exists q,
    Index.failure i error
    = Return {| Index.http_status := of_Z 500;
                Index.http_body := {| Types.code := of_Z 500;
                                      Types.data := None;
                                      Types.id := Fin q;
                                      Types.r_source_lang := None;
                                      Types.r_target_lang := None |} |}.
Proof.
  intros Hs Hc. unfold Index.failure, ErrorHandler.createErrorResponse. cbv zeta.
  rewrite Hs, Hc. cbn [ErrorHandler.response ErrorHandler.httpStatus].
  unfold Types.createStandardResponse. eexists. reflexivity.
Qed.

(** What [return c.json(body, status)] answers for a valid status: the
    body under that status, or, for a null-body status, the answer of the
    [catch] with the status 500. *)
Lemma answer_returns (i : Index.HandlerInputs) (body : Types.ResponseParams)
      (status : number) :
  ErrorHandler.isValidHttpStatusCode (Num status) = true ->
  exists resp,
    Index.answer i body status = Return resp
    /\ ((Index.http_body resp = body /\ eqb (Index.http_status resp) status = true)
        \/ (Index.http_status resp = of_Z 500
            /\ Types.code (Index.http_body resp) = of_Z 500
            /\ Types.data (Index.http_body resp) = None))
    /\ ErrorHandler.isValidHttpStatusCode (Num (Index.http_status resp)) = true
    /\ existsb (eqb (Index.http_status resp)) [of_Z 204; of_Z 205; of_Z 304] = false.
Proof.
  intros Hvalid. destruct (toUint16_valid status Hvalid) as [Hrange Heq].
  unfold Index.answer, Index.json. cbv zeta.
  destruct (Z.ltb_spec (Index.toUint16 status) 200) as [|_]; [lia|].
  destruct (Z.ltb_spec 599 (Index.toUint16 status)) as [|_]; [lia|]. cbn [orb].
  destruct ((Index.toUint16 status =? 204) || (Index.toUint16 status =? 205)
            || (Index.toUint16 status =? 304)) eqn:Hnull.
  - destruct (failure_500 i (ThrownError Index.nullBodyStatusError) eq_refl eq_refl)
      as [q ->].
    eexists. split; [reflexivity|]. cbn [Index.http_status Index.http_body
      Types.code Types.data].
    split; [right; repeat split|]. split; reflexivity.
  - eexists. split; [reflexivity|]. cbn [Index.http_status Index.http_body].
    split; [left; split; [reflexivity|exact Heq]|]. split.
    + set (z := Index.toUint16 status) in *.
      unfold ErrorHandler.isValidHttpStatusCode. cbn [toNumber]. cbv zeta.
      unfold of_Z. cbn [isNaN negb leb isInteger].
      assert (H1 : Qle_bool (inject_Z 200) (inject_Z z) = true)
        by (apply Qle_bool_iff; rewrite <- Zle_Qle; lia).
      assert (H2 : Qle_bool (inject_Z z) (inject_Z 599) = true)
        by (apply Qle_bool_iff; rewrite <- Zle_Qle; lia).
      assert (H3 : Qeq_bool (inject_Z (Qfloor (inject_Z z))) (inject_Z z) = true)
        by (apply Qeq_bool_iff; rewrite Qfloor_Z; reflexivity).
      rewrite H1, H2, H3. reflexivity.
    + set (z := Index.toUint16 status) in *.
      apply orb_false_elim in Hnull. destruct Hnull as [Hnull H304].
      apply orb_false_elim in Hnull. destruct Hnull as [H204 H205].
      apply Z.eqb_neq in H204, H205, H304.
      cbn [existsb]. unfold eqb, of_Z.
      assert (Hne : forall k, z <> k -> Qeq_bool (inject_Z z) (inject_Z k) = false).
      { intros k Hk. apply not_true_is_false. intros H.
        apply Qeq_bool_iff in H. apply Hk. apply inject_Z_injective. exact H. }
      rewrite (Hne 204 H204), (Hne 205 H205), (Hne 304 H304). reflexivity.
Qed.

Lemma badRequest_returns (i : Index.HandlerInputs) :
  exists q,
    Index.badRequest i
    = Return {| Index.http_status := of_Z 400;
                Index.http_body := {| Types.code := of_Z 400;
                                      Types.data := None;
                                      Types.id := Fin q;
                                      Types.r_source_lang := None;
                                      Types.r_target_lang := None |} |}.
Proof. unfold Index.badRequest, Types.createStandardResponse. eexists. reflexivity. Qed.

(** X22: the handler of [POST /translate] answers every request: whatever
    the headers, the body, the environment, the store, the upstream and
    the state of the process, it returns a response.  The HTTP status of
    the response is numerically the code in its body; it is an integer
    from 200 to 599 and none of 204, 205 and 304, the statuses for which
    [c.json] throws: a result of [query] with such a code is answered by
    the [catch] of the handler with the status 500. *)
Theorem translate_always_answers
        (headers : string -> option string) (body : Index.RequestJson)
        (env : ProxyManager.Env) (i : Index.HandlerInputs) (srv : Index.Server) :
  exists resp,
    fst (Index.translate headers body env i srv) = Return resp
    /\ eqb (Index.http_status resp) (Types.code (Index.http_body resp)) = true
    /\ ErrorHandler.isValidHttpStatusCode (Num (Index.http_status resp)) = true
    /\ existsb (eqb (Index.http_status resp)) [of_Z 204; of_Z 205; of_Z 304] = false.
Proof.
  assert (Hbad : exists resp,
             Index.badRequest i = Return resp
             /\ eqb (Index.http_status resp) (Types.code (Index.http_body resp)) = true
             /\ ErrorHandler.isValidHttpStatusCode (Num (Index.http_status resp)) = true
             /\ existsb (eqb (Index.http_status resp)) [of_Z 204; of_Z 205; of_Z 304]
                = false).
  { destruct (badRequest_returns i) as [q ->]. eexists. split; [reflexivity|].
    split; [reflexivity|]. split; reflexivity. }
  assert (Hanswer : forall result,
             ErrorHandler.isValidHttpStatusCode (Num (Types.code result)) = true ->
             exists resp,
               Index.answer i result (Types.code result) = Return resp
               /\ eqb (Index.http_status resp) (Types.code (Index.http_body resp)) = true
               /\ ErrorHandler.isValidHttpStatusCode (Num (Index.http_status resp)) = true
               /\ existsb (eqb (Index.http_status resp)) [of_Z 204; of_Z 205; of_Z 304]
                  = false).
  { intros result Hrange.
    destruct (answer_returns i result (Types.code result) Hrange)
      as [resp [Hresp [Hcase [Hvalid Hnull]]]].
    exists resp. split; [exact Hresp|]. split; [|split; assumption].
    destruct Hcase as [[Hbody Heq]|[Hst [Hcode _]]].
    - rewrite Hbody. exact Heq.
    - rewrite Hst, Hcode. reflexivity. }
  unfold Index.translate. cbv zeta.
  destruct body as [| |[|text|b] source target]; try exact Hbad.
  destruct (negb (Str.truthy text)); [exact Hbad|].
  match goal with
  | |- context [negb (Str.truthy ?t)] => set (sanitizedText := t)
  end.
  destruct (negb (Str.truthy sanitizedText)); [exact Hbad|].
  destruct (Index.languageOf source "auto") as [sl|] eqn:Hs;
    [|destruct (Index.languageOf target "en"); exact Hbad].
  destruct (Index.languageOf target "en") as [tl|] eqn:Ht; [|exact Hbad].
  apply languageOf_length in Hs; [|simpl; lia].
  apply languageOf_length in Ht; [|simpl; lia].
  destruct (normalizeLanguageCode_length sl Hs) as [nsl [-> Hnsl]].
  destruct (normalizeLanguageCode_length tl Ht) as [ntl [-> Hntl]].
  destruct (Cache.getCachedTranslation _ _ _ _ _) as [[entry|] memory1].
  - match goal with
    | |- context [Types.createStandardResponse ?rnd (of_Z 200) ?d ?id
                    (Some (Types.LangStr ?s)) (Some (Types.LangStr ?t))] =>
        destruct (createStandardResponse_200 rnd d id s t) as [r [-> [Hcode _]]]
    end.
    eexists. split; [reflexivity|]. cbn [Index.http_status Index.http_body].
    rewrite Hcode. split; [reflexivity|]. split; reflexivity.
  - match goal with
    | |- context [Query.query ?p ?c ?a ?f ?w] =>
        destruct (query_returns_on_string_tags p c a f w) as [r Hr];
        [|pose proof (query_code_range p c a f w r Hr) as Hrange;
          destruct (Query.query p c a f w) as [res world1]]
    end.
    { intros p0 Hp0. injection Hp0 as <-.
      cbn [Types.source_lang Types.target_lang].
      assert (Hs' : (String.length (Query.orElse nsl "auto") <= 5)%nat).
      { unfold Query.orElse. destruct (Str.truthy nsl); [exact Hnsl|simpl; lia]. }
      assert (Ht' : (String.length (Query.orElse ntl "en") <= 5)%nat).
      { unfold Query.orElse. destruct (Str.truthy ntl); [exact Hntl|simpl; lia]. }
      destruct (normalizeLanguageCode_short _ Hs') as [u1 ->].
      destruct (normalizeLanguageCode_short _ Ht') as [u2 ->].
      eexists. eexists. split; reflexivity. }
    cbn [fst] in Hr. subst res.
    destruct (Types.data r) as [translated|].
    + destruct (eqb (Types.code r) (of_Z 200) && Str.truthy translated);
        cbn [fst]; exact (Hanswer r Hrange).
    + cbn [fst]. exact (Hanswer r Hrange).
Qed.

(** A result of [query] with the code 204 cannot be sent with that status:
    the handler answers 500. *)
Lemma translate_null_body_status :
  let i := {| Index.random_bad_request := 1 # 2;
              Index.now_memory := 1700000000000;
              Index.now_durable := 1700000000000;
              Index.cacheAnswer := Cache.KvGetNull;
              Index.random_cached_id := 1 # 2;
              Index.random_cached := 1 # 2;
              Index.attempts := fun _ => Scenarios.attemptAt 1700000000123
                                           (Scenarios.upstreamError 204);
              Index.final := Scenarios.finalInputs;
              Index.now_store := 1700000000200;
              Index.random_failure := 1 # 2 |} in
  let srv := {| Index.memoryCache := ∅; Index.world := Scenarios.emptyWorld;
                Index.cachePuts := [] |} in
  let out := Index.translate (fun _ => None)
               (Index.JsonObject (Index.FieldString "Hello") (Index.FieldString "en")
                  (Index.FieldString "de")) Scenarios.noProxies i srv in
  fst out = Return {| Index.http_status := of_Z 500;
                      Index.http_body := {| Types.code := of_Z 500;
                                            Types.data := None;
                                            Types.id := of_Z 5000000000;
                                            Types.r_source_lang := None;
                                            Types.r_target_lang := None |} |}
  /\ List.length (Query.transportCalls (Index.world (snd out))) = 1%nat.
Proof. cbv zeta. split; vm_compute; reflexivity. Qed.

Lemma take_truthy (n : nat) (s : string) :
  (0 < n)%nat -> Str.truthy s = true -> Str.truthy (Str.take n s) = true.
Proof.
  intros Hn Hs. destruct s as [|c s]; [discriminate Hs|].
  destruct n as [|n]; [lia|]. reflexivity.
Qed.

Lemma sanitized_truthy (text : string) :
  Str.truthy text = true ->
  Str.truthy (if Z.ltb Config.MAX_TEXT_LENGTH (Z.of_nat (String.length text))
              then Str.take (Z.to_nat Config.MAX_TEXT_LENGTH) text
              else text) = true.
Proof.
  intros H. destruct (Z.ltb Config.MAX_TEXT_LENGTH (Z.of_nat (String.length text)));
    [|exact H].
  apply take_truthy; [|exact H]. unfold Config.MAX_TEXT_LENGTH. lia.
Qed.

(** A request whose key has a fresh entry in the in-memory cache is
    answered from that entry, and the state of the process stays as it
    is. *)
Lemma translate_hit headers text source target env i (srv : Index.Server)
      sl tl nsl ntl entry :
  Str.truthy text = true ->
  Index.languageOf source "auto" = Some sl ->
  Index.languageOf target "en" = Some tl ->
  Query.normalizeLanguageCode sl = Types.LangStr nsl ->
  Query.normalizeLanguageCode tl = Types.LangStr ntl ->
  Index.memoryCache srv
    !! Cache.generateCacheKey
         (if Z.ltb Config.MAX_TEXT_LENGTH (Z.of_nat (String.length text))
          then Str.take (Z.to_nat Config.MAX_TEXT_LENGTH) text
          else text) nsl ntl
  = Some entry ->
  Cache.fresh (Index.now_memory i) entry = true ->
  exists r,
    Index.translate headers
      (Index.JsonObject (Index.FieldString text) source target) env i srv
    = (Return {| Index.http_status := of_Z 200; Index.http_body := r |}, srv)
    /\ Types.code r = of_Z 200
    /\ Types.data r = Some (Cache.data entry).
Proof.
  intros Htext Hs Ht Hns Hnt Hmem Hfresh.
  unfold Index.translate. cbv zeta.
  rewrite Htext. cbn [negb]. rewrite (sanitized_truthy text Htext). cbn [negb].
  rewrite Hs, Ht, Hns, Hnt.
  unfold Cache.getCachedTranslation. rewrite Hmem, Hfresh.
  match goal with
  | |- context [Types.createStandardResponse ?rnd (of_Z 200) ?d ?id
                  (Some (Types.LangStr ?s)) (Some (Types.LangStr ?t))] =>
      destruct (createStandardResponse_200 rnd d id s t) as [r [-> [Hcode Hdata]]]
  end.
  exists r. split; [|split; assumption].
  destruct srv as [memory world puts]. reflexivity.
Qed.

(** X23: a request whose cache key has a fresh entry in the in-memory
    cache is answered with the status 200 and the data of that entry; the
    process state is left as it is, so the rate limiter is not consulted
    and no transport call is made. *)
Theorem translate_answers_from_cache
        (headers : string -> option string) (text : string)
        (source target : Index.Field) (env : ProxyManager.Env)
        (i : Index.HandlerInputs) (srv : Index.Server)
        (sl tl nsl ntl : string) (entry : Cache.CacheEntry)
        (Htext : Str.truthy text = true)
        (Hsource : Index.languageOf source "auto" = Some sl)
        (Htarget : Index.languageOf target "en" = Some tl)
        (Hnsl : Query.normalizeLanguageCode sl = Types.LangStr nsl)
        (Hntl : Query.normalizeLanguageCode tl = Types.LangStr ntl)
        (Hcached : Index.memoryCache srv
                     !! Cache.generateCacheKey
                          (if Z.ltb Config.MAX_TEXT_LENGTH
                                    (Z.of_nat (String.length text))
                           then Str.take (Z.to_nat Config.MAX_TEXT_LENGTH) text
                           else text) nsl ntl
                   = Some entry)
        (Hfresh : Cache.fresh (Index.now_memory i) entry = true) :
  exists r,
    Index.translate headers
      (Index.JsonObject (Index.FieldString text) source target) env i srv
    = (Return {| Index.http_status := of_Z 200; Index.http_body := r |}, srv)
    /\ Types.code r = of_Z 200
    /\ Types.data r = Some (Cache.data entry).
Proof.
  exact (translate_hit headers text source target env i srv sl tl nsl ntl entry
           Htext Hsource Htarget Hnsl Hntl Hcached Hfresh).
Qed.

Lemma translate_answers_from_cache_witness :
  let entry := {| Cache.data := "Hallo"; Cache.timestamp := of_Z 1700000000000;
                  Cache.source_lang := "EN"; Cache.target_lang := "DE";
                  Cache.id := Some (of_Z 7) |} in
  let srv := {| Index.memoryCache :=
                  {[ Cache.generateCacheKey "Hello" "EN" "DE" := entry ]};
                Index.world := Scenarios.emptyWorld;
                Index.cachePuts := [] |} in
  let i := {| Index.random_bad_request := 1 # 2;
              Index.now_memory := 1700000001000;
              Index.now_durable := 1700000001000;
              Index.cacheAnswer := Cache.KvGetThrows;
              Index.random_cached_id := 1 # 2;
              Index.random_cached := 1 # 2;
              Index.attempts := fun _ => Scenarios.attemptAt 1700000001000
                                           Query.FetchAborted;
              Index.final := Scenarios.finalInputs;
              Index.now_store := 1700000001000;
              Index.random_failure := 1 # 2 |} in
  exists r,
    Index.translate (fun _ => None)
      (Index.JsonObject (Index.FieldString "Hello") (Index.FieldString "en")
         (Index.FieldString "de")) Scenarios.noProxies i srv
    = (Return {| Index.http_status := of_Z 200; Index.http_body := r |}, srv)
    /\ Types.code r = of_Z 200
    /\ Types.data r = Some "Hallo"%string.
Proof.
  cbv zeta.
  refine (translate_answers_from_cache _ "Hello" _ _ _ _ _ "en" "de" "EN" "DE"
            {| Cache.data := "Hallo"; Cache.timestamp := of_Z 1700000000000;
               Cache.source_lang := "EN"; Cache.target_lang := "DE";
               Cache.id := Some (of_Z 7) |}
            _ _ _ _ _ _ _).
  - reflexivity.
  - reflexivity.
  - reflexivity.
  - reflexivity.
  - reflexivity.
  - apply lookup_singleton_eq.
  - vm_compute. reflexivity.
Defined.

(** X24: a request without a usable text or with an unusable language tag
    is answered with the status 400 and touches nothing: the body is not
    JSON or not an object, the text is missing, empty or not a string, or
    a language tag is present and is not accepted by
    [validateLanguageCode].  The caches, the rate limiter and the
    transport stay as they are. *)
Theorem translate_rejects_invalid
        (headers : string -> option string) (body : Index.RequestJson)
        (env : ProxyManager.Env) (i : Index.HandlerInputs) (srv : Index.Server)
        (Hinvalid : match body with
                    | Index.JsonObject (Index.FieldString text) source target =>
                        Str.truthy text = false
                        \/ Index.languageOf source "auto" = None
                        \/ Index.languageOf target "en" = None
                    | _ => True
                    end) :
  exists q,
    Index.translate headers body env i srv
    = (Return {| Index.http_status := of_Z 400;
                 Index.http_body := {| Types.code := of_Z 400;
                                       Types.data := None;
                                       Types.id := Fin q;
                                       Types.r_source_lang := None;
                                       Types.r_target_lang := None |} |},
       srv).
Proof.
  destruct (badRequest_returns i) as [q Hbad]. exists q.
  unfold Index.translate. cbv zeta.
  destruct body as [| |[|text|b] source target]; try (rewrite Hbad; reflexivity).
  destruct (Str.truthy text) eqn:Htext; cbn [negb]; [|rewrite Hbad; reflexivity].
  rewrite (sanitized_truthy text Htext). cbn [negb].
  destruct Hinvalid as [H|[H|H]]; [discriminate H| |].
  - rewrite H. rewrite Hbad. reflexivity.
  - rewrite H. destruct (Index.languageOf source "auto"); rewrite Hbad; reflexivity.
Qed.

Lemma translate_rejects_invalid_witness :
  let i := {| Index.random_bad_request := 1 # 2;
              Index.now_memory := 1700000001000;
              Index.now_durable := 1700000001000;
              Index.cacheAnswer := Cache.KvGetNull;
              Index.random_cached_id := 1 # 2;
              Index.random_cached := 1 # 2;
              Index.attempts := fun _ => Scenarios.attemptAt 1700000001000
                                           Scenarios.translated;
              Index.final := Scenarios.finalInputs;
              Index.now_store := 1700000001000;
              Index.random_failure := 1 # 2 |} in
  let srv := {| Index.memoryCache := ∅; Index.world := Scenarios.emptyWorld;
                Index.cachePuts := [] |} in
  exists q,
    Index.translate (fun _ => None)
      (Index.JsonObject (Index.FieldString "hi") (Index.FieldString "constructor")
         (Index.FieldString "en")) Scenarios.noProxies i srv
    = (Return {| Index.http_status := of_Z 400;
                 Index.http_body := {| Types.code := of_Z 400;
                                       Types.data := None;
                                       Types.id := Fin q;
                                       Types.r_source_lang := None;
                                       Types.r_target_lang := None |} |},
       srv).
Proof.
  cbv zeta.
  refine (translate_rejects_invalid _
            (Index.JsonObject (Index.FieldString "hi") (Index.FieldString "constructor")
               (Index.FieldString "en")) _ _ _ _).
  right. left. reflexivity.
Defined.

(** The handler writes to the durable cache only after a translation with
    the code 200 and non-empty data, and then the in-memory cache holds the
    translation under the key of the request, stamped with the clock read
    for the write. *)
Lemma translate_stored headers text source target env i (srv : Index.Server)
      resp srv' :
  Index.translate headers
    (Index.JsonObject (Index.FieldString text) source target) env i srv
  = (resp, srv') ->
  Index.cachePuts srv' <> Index.cachePuts srv ->
  exists sl tl nsl ntl result translated entry,
    Str.truthy text = true
    /\ Index.languageOf source "auto" = Some sl
    /\ Index.languageOf target "en" = Some tl
    /\ Query.normalizeLanguageCode sl = Types.LangStr nsl
    /\ Query.normalizeLanguageCode tl = Types.LangStr ntl
    /\ resp = Return {| Index.http_status := of_Z 200;
                        Index.http_body := result |}
    /\ eqb (Types.code result) (of_Z 200) = true
    /\ Types.data result = Some translated
    /\ Index.memoryCache srv'
         !! Cache.generateCacheKey
              (if Z.ltb Config.MAX_TEXT_LENGTH (Z.of_nat (String.length text))
               then Str.take (Z.to_nat Config.MAX_TEXT_LENGTH) text
               else text) nsl ntl
       = Some entry
    /\ Cache.data entry = translated
    /\ Cache.timestamp entry = of_Z (Index.now_store i).
Proof.
  unfold Index.translate. cbv zeta.
  destruct (Str.truthy text) eqn:Htext; cbn [negb];
    [|intros H Hp; injection H as _ <-; congruence].
  rewrite (sanitized_truthy text Htext). cbn [negb].
  destruct (Index.languageOf source "auto") as [sl|] eqn:Hs;
    [|destruct (Index.languageOf target "en");
      intros H Hp; injection H as _ <-; congruence].
  destruct (Index.languageOf target "en") as [tl|] eqn:Ht;
    [|intros H Hp; injection H as _ <-; congruence].
  destruct (Query.normalizeLanguageCode sl) as [nsl|] eqn:Hns;
    [|destruct (Query.normalizeLanguageCode tl);
      intros H Hp; injection H as _ <-; congruence].
  destruct (Query.normalizeLanguageCode tl) as [ntl|] eqn:Hnt;
    [|intros H Hp; injection H as _ <-; congruence].
  destruct (Cache.getCachedTranslation _ _ _ _ _) as [[cachedEntry|] memory1].
  { destruct (Types.createStandardResponse _ _ _ _ _ _);
      intros H Hp; injection H as _ <-; cbn [Index.cachePuts] in Hp; congruence. }
  destruct (Query.query _ _ _ _ _) as [[result|e] world1];
    [|intros H Hp; injection H as _ <-; cbn [Index.cachePuts] in Hp; congruence].
  destruct (Types.data result) as [translated|] eqn:Hdata;
    [|intros H Hp; injection H as _ <-; cbn [Index.cachePuts] in Hp; congruence].
  destruct (eqb (Types.code result) (of_Z 200)) eqn:Hcode; cbn [andb];
    [|intros H Hp; injection H as _ <-; cbn [Index.cachePuts] in Hp; congruence].
  destruct (Str.truthy translated);
    [|intros H Hp; injection H as _ <-; cbn [Index.cachePuts] in Hp; congruence].
  unfold Cache.setCachedTranslation, Index.answer.
  rewrite (json_200 result (Types.code result) Hcode).
  intros H _. injection H as <- <-. cbn [Index.memoryCache].
  exists sl, tl, nsl, ntl, result, translated. eexists.
  repeat (split; [first [reflexivity | assumption]|]).
  split; [apply lookup_insert_eq|]. split; reflexivity.
Qed.

(** X25: a stored translation is served to every later request with the
    same cache key.  After a request whose translation the handler stored,
    a request with the same language fields and a text with the same key,
    arriving less than an hour after the write, is answered with the
    status 200 and the data of the first response, and leaves the process
    state as it is: no admission check, no transport call.  The text of the
    second request need not be the text of the first. *)
Theorem translate_serves_stored
        (headers headers' : string -> option string) (text text' : string)
        (source target : Index.Field) (env env' : ProxyManager.Env)
        (i i' : Index.HandlerInputs) (srv srv' : Index.Server)
        (resp : completion Index.HttpResponse thrown)
        (Hfirst : Index.translate headers
                    (Index.JsonObject (Index.FieldString text) source target)
                    env i srv = (resp, srv'))
        (Hstored : Index.cachePuts srv' <> Index.cachePuts srv)
        (Htext' : Str.truthy text' = true)
        (Hkey : forall sourceLang targetLang,
            Cache.generateCacheKey
              (if Z.ltb Config.MAX_TEXT_LENGTH (Z.of_nat (String.length text'))
               then Str.take (Z.to_nat Config.MAX_TEXT_LENGTH) text'
               else text') sourceLang targetLang
            = Cache.generateCacheKey
                (if Z.ltb Config.MAX_TEXT_LENGTH (Z.of_nat (String.length text))
                 then Str.take (Z.to_nat Config.MAX_TEXT_LENGTH) text
                 else text) sourceLang targetLang)
        (Hfresh : Index.now_memory i' - Index.now_store i < 3600000) :
  exists r r',
    resp = Return r
    /\ Index.translate headers'
         (Index.JsonObject (Index.FieldString text') source target) env' i' srv'
       = (Return {| Index.http_status := of_Z 200; Index.http_body := r' |}, srv')
    /\ Types.code r' = of_Z 200
    /\ Types.data r' = Types.data (Index.http_body r).
Proof.
  destruct (translate_stored headers text source target env i srv resp srv'
              Hfirst Hstored)
    as [sl [tl [nsl [ntl [result [translated [entry
          [_ [Hs [Ht [Hns [Hnt [Hresp [_ [Hdata [Hmem [Hentry Hstamp]]]]]]]]]]]]]]]]].
  rewrite <- Hkey in Hmem.
  assert (Hf : Cache.fresh (Index.now_memory i') entry = true).
  { apply (fresh_iff _ (Index.now_store i) _ Hstamp).
    unfold Cache.CACHE_TTL. lia. }
  destruct (translate_hit headers' text' source target env' i' srv' sl tl nsl ntl entry
              Htext' Hs Ht Hns Hnt Hmem Hf) as [r' [Hsecond [Hcode' Hdata']]].
  exists {| Index.http_status := of_Z 200; Index.http_body := result |}, r'.
  split; [exact Hresp|]. split; [exact Hsecond|]. split; [exact Hcode'|].
  cbn [Index.http_body]. rewrite Hdata', Hdata, Hentry. reflexivity.
Qed.

Lemma translate_serves_stored_witness :
  let request t := Index.JsonObject (Index.FieldString t) (Index.FieldString "en")
                     (Index.FieldString "de") in
  let i := {| Index.random_bad_request := 1 # 2;
              Index.now_memory := 1700000000000;
              Index.now_durable := 1700000000000;
              Index.cacheAnswer := Cache.KvGetNull;
              Index.random_cached_id := 1 # 2;
              Index.random_cached := 1 # 2;
              Index.attempts := fun _ => Scenarios.attemptAt 1700000000123
                                           Scenarios.translated;
              Index.final := Scenarios.finalInputs;
              Index.now_store := 1700000000200;
              Index.random_failure := 1 # 2 |} in
  let srv := {| Index.memoryCache := ∅; Index.world := Scenarios.emptyWorld;
                Index.cachePuts := [] |} in
  let first := Index.translate (fun _ => None) (request "Aa") Scenarios.noProxies i srv in
  exists r r',
    fst first = Return r
    /\ Index.translate (fun _ => None) (request "BB") Scenarios.noProxies i (snd first)
       = (Return {| Index.http_status := of_Z 200; Index.http_body := r' |}, snd first)
    /\ Types.code r' = of_Z 200
    /\ Types.data r' = Types.data (Index.http_body r).
Proof.
  cbv zeta.
  refine (translate_serves_stored (fun _ => None) (fun _ => None) "Aa" "BB"
            (Index.FieldString "en") (Index.FieldString "de")
            Scenarios.noProxies Scenarios.noProxies _ _ _ _ _ _ _ _ _ _).
  - apply surjective_pairing.
  - vm_compute. discriminate.
  - reflexivity.
  - intros sourceLang targetLang.
    exact (eq_sym (generateCacheKey_same_hash "Aa" "BB" collision_Aa_BB "" ""
                     sourceLang targetLang)).
  - vm_compute. reflexivity.
Defined.

(** ** Breaker registry *)

(** X26: [getCircuitBreaker] keeps one breaker per URL: the breaker it
    returns is the one registered under the URL afterwards, a fresh one
    if none was registered and the registered one otherwise; asking again
    returns the same breaker and changes nothing; and the breakers of
    other URLs stay as they are. *)
Theorem getCircuitBreaker_one_per_url
        (proxyUrl : string)
        (circuitBreakers : gmap string CircuitBreakerM.CircuitBreakerState) :
  let out := CircuitBreakerM.getCircuitBreaker proxyUrl circuitBreakers in
  snd out !! proxyUrl = Some (fst out)
  /\ fst out = default CircuitBreakerM.initial (circuitBreakers !! proxyUrl)
  /\ CircuitBreakerM.getCircuitBreaker proxyUrl (snd out) = out
  /\ (forall other, other <> proxyUrl -> snd out !! other = circuitBreakers !! other).
Proof.
  cbv zeta. unfold CircuitBreakerM.getCircuitBreaker.
  destruct (circuitBreakers !! proxyUrl) as [b|] eqn:Hb; cbn [fst snd default].
  - split; [exact Hb|]. split; [rewrite ?Hb; reflexivity|].
    split; [rewrite ?Hb; reflexivity|].
    intros other _. reflexivity.
  - rewrite lookup_insert_eq. split; [reflexivity|]. split; [reflexivity|].
    split; [reflexivity|].
    intros other Hother. apply lookup_insert_ne. congruence.
Qed.

Lemma getCircuitBreaker_one_per_url_witness :
  snd (CircuitBreakerM.getCircuitBreaker "https://a.example"
         {[ "https://b.example"%string := Scenarios.trippedAt 1000 ]})
    !! "https://b.example"%string
  = ({[ "https://b.example"%string := Scenarios.trippedAt 1000 ]}
       : gmap string CircuitBreakerM.CircuitBreakerState)
      !! "https://b.example"%string.
Proof.
  refine (proj2 (proj2 (proj2 (getCircuitBreaker_one_per_url "https://a.example" _)))
            "https://b.example"%string _).
  discriminate.
Defined.

(** ** The timestamp of the payload *)

Lemma buildRequestBody_timestamp (i : Query.BuildInputs) (data : Types.RequestParams)
      body :
  Query.buildRequestBody i data = Return body ->
  Query.rd_timestamp (Query.payload body)
  = Query.getTimestamp (Query.now_timestamp i)
      (Query.countLetterI (Types.text data)).
Proof.
  unfold Query.buildRequestBody.
  destruct (Str.truthy (Types.text data)); [|discriminate]. cbn [negb]. cbv zeta.
  destruct (Z.ltb Config.MAX_TEXT_LENGTH
              (Z.of_nat (String.length (Types.text data)))); [discriminate|].
  destruct (Z.leb (Query.getTimestamp (Query.now_timestamp i)
                     (Query.countLetterI (Types.text data))) 0); [discriminate|].
  destruct (Z.ltb Config.MAX_REQUEST_SIZE (Query.payloadSize i)); [discriminate|].
  intros H. injection H as <-. reflexivity.
Qed.

(** X27: for a text with [k] letters i, [k] from 1 to 999, and a clock
    that is not negative, the timestamp of the payload is a multiple of
    [k + 1]; it lies after the clock value, by [k + 1] milliseconds at
    most. *)
Theorem timestamp_multiple_of_letter_count
        (i : Query.BuildInputs) (data : Types.RequestParams) (body : Query.RequestBody)
        (Hraw : 0 <= Query.now_timestamp i <= 8640000000000000)
        (Hcount : (1 <= Str.occurrences "i" (Types.text data) <= 999)%nat)
        (Hbuilt : Query.buildRequestBody i data = Return body) :
  let raw := Query.now_timestamp i in
  let k := Z.of_nat (Str.occurrences "i" (Types.text data)) in
  (k + 1 | Query.rd_timestamp (Query.payload body))
  /\ raw < Query.rd_timestamp (Query.payload body) <= raw + k + 1.
Proof.
  cbv zeta. rewrite (buildRequestBody_timestamp i data body Hbuilt).
  rewrite countLetterI_occurrences.
  set (k := Z.of_nat (Str.occurrences "i" (Types.text data))).
  set (raw := Query.now_timestamp i) in *.
  assert (Hk : 1 <= k <= 999) by (unfold k; lia).
  rewrite getTimestamp_spec by lia.
  destruct (Z.eqb_spec k 0) as [|_]; [lia|].
  destruct (Z.leb_spec 1000 k) as [|_]; [lia|]. cbn [orb].
  rewrite Z.rem_mod_nonneg by lia.
  pose proof (Z.mod_pos_bound raw (k + 1) ltac:(lia)) as Hmod.
  destruct (Z.ltb_spec 0 (raw - raw mod (k + 1) + (k + 1))) as [_|]; [|lia].
  split; [|lia].
  exists (raw / (k + 1) + 1).
  pose proof (Z.div_mod raw (k + 1) ltac:(lia)). lia.
Qed.

Lemma timestamp_multiple_of_letter_count_witness :
  exists body,
    Query.buildRequestBody
      {| Query.now_id := 1700000000123; Query.random_id := 1 # 2;
         Query.now_timestamp := 1700000000123; Query.payloadSize := 200 |}
      {| Types.text := "mississippi"; Types.source_lang := "en";
         Types.target_lang := "de" |}
    = Return body
    /\ (5 | Query.rd_timestamp (Query.payload body)).
Proof.
  eexists. split; [reflexivity|].
  refine (proj1 (timestamp_multiple_of_letter_count
                   {| Query.now_id := 1700000000123; Query.random_id := 1 # 2;
                      Query.now_timestamp := 1700000000123; Query.payloadSize := 200 |}
                   {| Types.text := "mississippi"; Types.source_lang := "en";
                      Types.target_lang := "de" |} _ _ _ eq_refl)).
  - cbn. lia.
  - cbn. lia.
Defined.

(** ** Dynamic limits *)

(** X28: for a proxy count [n] that is not negative,
    [calculateDynamicRateLimits] gives a capacity of 480 tokens per minute
    and a refill of 8 tokens per second for each proxy, and counts no
    proxy as one. *)
Theorem calculateDynamicRateLimits_scales (n : Z) (Hn : 0 <= n) :
  exists t r,
    Config.TOKENS_PER_MINUTE (Config.calculateDynamicRateLimits (Num (of_Z n))) = Fin t
    /\ Config.REFILL_RATE (Config.calculateDynamicRateLimits (Num (of_Z n))) = Fin r
    /\ (t == inject_Z (480 * Z.max n 1))%Q
    /\ (r == inject_Z (8 * Z.max n 1))%Q.
Proof.
  unfold Config.calculateDynamicRateLimits.
  destruct (Z.eq_dec n 0) as [->|Hn0].
  - cbn. eexists. eexists. split; [reflexivity|]. split; [reflexivity|].
    split; reflexivity.
  - assert (Hne : value_eqb (Num (of_Z n)) (of_Z 0) = false).
    { unfold Js.value_eqb, Js.eqb, Js.of_Z. apply not_true_is_false. intros H.
      apply Qeq_bool_iff in H. unfold Qeq in H. simpl in H. lia. }
    rewrite Hne. cbv zeta.
    cbn [Config.TOKENS_PER_MINUTE Config.REFILL_RATE toNumber].
    unfold Config.PROXY_TOKENS_PER_SECOND, of_Z, mul, div.
    change (Qeq_bool (inject_Z 60) 0) with false. cbv iota.
    eexists. eexists. split; [reflexivity|]. split; [reflexivity|].
    replace (Z.max n 1) with n by lia.
    rewrite !inject_Z_mult.
    change (inject_Z 480) with (480 # 1)%Q. change (inject_Z 8) with (8 # 1)%Q.
    change (inject_Z 60) with (60 # 1)%Q.
    split; [ring|field].
Qed.

Lemma calculateDynamicRateLimits_scales_witness :
  exists t r,
    Config.TOKENS_PER_MINUTE (Config.calculateDynamicRateLimits (Num (of_Z 3))) = Fin t
    /\ Config.REFILL_RATE (Config.calculateDynamicRateLimits (Num (of_Z 3))) = Fin r
    /\ (t == inject_Z (480 * Z.max 3 1))%Q
    /\ (r == inject_Z (8 * Z.max 3 1))%Q.
Proof.
  apply (calculateDynamicRateLimits_scales 3). lia.
Defined.

(** ** Proxy lists *)

(** X29: [getProxyEndpoints] does not validate: with a non-empty
    [PROXY_URLS] every piece between commas, whatever it holds, becomes an
    endpoint, so there is one endpoint more than there are commas;
    [getProxyUrls] keeps only the pieces that start with [http://] or
    [https://], so it never lists more. *)
Theorem getProxyEndpoints_unvalidated
        (env : ProxyManager.Env) (urls : string)
        (Hurls : ProxyManager.PROXY_URLS env = Some urls)
        (Htruthy : Str.truthy urls = true) :
  List.length (ProxyManager.await (ProxyManager.getProxyEndpoints env))
  = S (Str.occurrences "," urls)
  /\ (List.length (ProxyManager.getProxyUrls env)
      <= List.length (ProxyManager.await (ProxyManager.getProxyEndpoints env)))%nat
  /\ Forall (fun u => Str.startsWith "http://" u || Str.startsWith "https://" u = true)
            (ProxyManager.getProxyUrls env).
Proof.
  unfold ProxyManager.getProxyEndpoints, ProxyManager.getProxyUrls.
  rewrite Hurls, Htruthy. cbv zeta. cbn [ProxyManager.await].
  rewrite !length_map. unfold Str.split at 1. rewrite split_go_length.
  split; [reflexivity|]. split.
  - etransitivity; [apply length_filter|].
    rewrite length_map. unfold Str.split. rewrite split_go_length. lia.
  - apply Forall_forall. intros u Hu.
    apply list_elem_of_filter in Hu. destruct Hu as [Hu _].
    apply Is_true_true in Hu. exact Hu.
Qed.

Lemma getProxyEndpoints_unvalidated_witness :
  List.length (ProxyManager.await
                 (ProxyManager.getProxyEndpoints
                    {| ProxyManager.PROXY_URLS :=
                         Some "https://a.example,,ftp://b.example"%string |}))
  = 3%nat.
Proof.
  exact (proj1 (getProxyEndpoints_unvalidated
                  {| ProxyManager.PROXY_URLS :=
                       Some "https://a.example,,ftp://b.example"%string |}
                  "https://a.example,,ftp://b.example" eq_refl eq_refl)).
Defined.
